(** * SnapMemoryDL: a shallow embedding of [snap_memories_dl.py]

    The development follows the source file function by function:
    Python strings are [string] (the model covers ASCII text), Python
    integers are [Z], the selection set is a [gset Z], the file system is
    a [gmap] from paths to file contents, and the effects of the HTTP
    session, the clock, the cancellation flag and the external transcoder
    are threaded through an explicit [World]. *)

From Stdlib Require Import ZArith Lia Ascii String List Bool.
From stdpp Require Import base decidable list sorting gmap strings pretty.

Local Open Scope string_scope.
Local Open Scope list_scope.
Local Open Scope Z_scope.

(** ** Python string primitives used by the source *)

Module PyStr.

Definition code (c : ascii) : nat := nat_of_ascii c.

Definition is_digit (c : ascii) : bool :=
  (Nat.leb 48 (code c) && Nat.leb (code c) 57)%bool.

Definition is_upper (c : ascii) : bool :=
  (Nat.leb 65 (code c) && Nat.leb (code c) 90)%bool.

Definition is_lower (c : ascii) : bool :=
  (Nat.leb 97 (code c) && Nat.leb (code c) 122)%bool.

Definition is_alnum (c : ascii) : bool :=
  (is_digit c || is_upper c || is_lower c)%bool.

(** Whitespace skipped by [int()]: tab, newline, vertical tab, form feed,
    carriage return and space. *)
Definition is_space (c : ascii) : bool :=
  (Nat.leb 9 (code c) && Nat.leb (code c) 13 || Nat.eqb (code c) 32)%bool.

Definition digit_val (c : ascii) : Z := Z.of_nat (code c) - 48.

Definition lower_char (c : ascii) : ascii :=
  if is_upper c then ascii_of_nat (code c + 32) else c.

(** [s.lower()] *)
Fixpoint lower (s : string) : string :=
  match s with
  | EmptyString => EmptyString
  | String c r => String (lower_char c) (lower r)
  end.

Definition eqb_char (a b : ascii) : bool := Ascii.eqb a b.

(** [s.startswith(p)] *)
Fixpoint startswith (p s : string) : bool :=
  match p, s with
  | EmptyString, _ => true
  | String a p', String b s' => (eqb_char a b && startswith p' s')%bool
  | String _ _, EmptyString => false
  end.

(** [p in s] for strings *)
Fixpoint contains (p s : string) : bool :=
  match s with
  | EmptyString => startswith p s
  | String _ r => (startswith p s || contains p r)%bool
  end.

(** [c in s] for a single character *)
Fixpoint has_char (c : ascii) (s : string) : bool :=
  match s with
  | EmptyString => false
  | String d r => (eqb_char c d || has_char c r)%bool
  end.

(** [s.replace(c, empty)] for a single character [c] *)
Fixpoint remove_char (c : ascii) (s : string) : string :=
  match s with
  | EmptyString => EmptyString
  | String d r => if eqb_char c d then remove_char c r else String d (remove_char c r)
  end.

(** [s.split(c, 1)] when [c] occurs in [s]: the text before the first [c]
    and the text after it. *)
Fixpoint split_first (c : ascii) (s : string) : string * string :=
  match s with
  | EmptyString => (EmptyString, EmptyString)
  | String d r =>
      if eqb_char c d then (EmptyString, r)
      else let '(a, b) := split_first c r in (String d a, b)
  end.

(** [s.split(c)]: never empty, the empty text splits into one empty part. *)
Fixpoint split (c : ascii) (s : string) : list string :=
  match s with
  | EmptyString => [EmptyString]
  | String d r =>
      if eqb_char c d then EmptyString :: split c r
      else match split c r with
           | p :: ps => String d p :: ps
           | [] => [String d EmptyString]
           end
  end.

Fixpoint lstrip (s : string) : string :=
  match s with
  | String c r => if is_space c then lstrip r else s
  | EmptyString => s
  end.

Fixpoint all_space (s : string) : bool :=
  match s with
  | EmptyString => true
  | String c r => (is_space c && all_space r)%bool
  end.

(** The digits of a decimal literal once its first digit has been read:
    more digits, single underscores between digits, then only trailing
    whitespace. *)
Fixpoint int_digits (acc : Z) (s : string) : option Z :=
  match s with
  | EmptyString => Some acc
  | String c r =>
      if is_digit c then int_digits (10 * acc + digit_val c) r
      else if eqb_char c "_" then
        match r with
        | String d r' =>
            if is_digit d then int_digits (10 * acc + digit_val d) r' else None
        | EmptyString => None
        end
      else if all_space s then Some acc else None
  end.

Definition int_unsigned (s : string) : option Z :=
  match s with
  | String c r => if is_digit c then int_digits (digit_val c) r else None
  | EmptyString => None
  end.

(** [int(s)] in base ten on ASCII text; [None] stands for [ValueError].
    (CPython also reads the digits and white space outside ASCII, and
    refuses literals of more than 4300 digits.) *)
Definition int (s : string) : option Z :=
  match lstrip s with
  | String "-" r => Z.opp <$> int_unsigned r
  | String "+" r => int_unsigned r
  | t => int_unsigned t
  end.

End PyStr.

(** ** Regular expressions of the source, written out

    Each [re.search] of the program is translated into the scan it
    performs: the leftmost start position wins, quantifiers are greedy and
    give characters back only as far as the rest of the pattern needs. *)

Module Re.

Import PyStr.

Definition dquote : ascii := ascii_of_nat 34.
Definition squote : ascii := ascii_of_nat 39.
Definition newline : ascii := ascii_of_nat 10.

Fixpoint take_while (p : ascii → bool) (s : string) : string :=
  match s with
  | String c r => if p c then String c (take_while p r) else EmptyString
  | EmptyString => EmptyString
  end.

Fixpoint drop (n : nat) (s : string) : string :=
  match n, s with
  | O, _ => s
  | S n', String _ r => drop n' r
  | S _, EmptyString => EmptyString
  end.

Fixpoint take (n : nat) (s : string) : string :=
  match n, s with
  | O, _ => EmptyString
  | S n', String c r => String c (take n' r)
  | S _, EmptyString => EmptyString
  end.

Definition nonempty (s : string) : bool :=
  match s with EmptyString => false | String _ _ => true end.

(** Leftmost match of a pattern given by its matcher at a fixed start. *)
Fixpoint search {A : Type} (at_start : string → option A) (s : string) : option A :=
  match at_start s with
  | Some m => Some m
  | None =>
      match s with
      | String _ r => search at_start r
      | EmptyString => None
      end
  end.

(** *** The Content-Disposition pattern: [filename=], an optional double
    quote, then group 1, one or more characters other than a double quote
    or a semicolon (the closing optional quote never changes group 1). *)

Definition not_quote_semi (c : ascii) : bool :=
  negb (eqb_char c dquote || eqb_char c ";").

Definition filename_at (s : string) : option string :=
  if startswith "filename=" s then
    let rest := drop 9 s in
    let after_quote :=
      match rest with
      | String c r => if eqb_char c dquote then take_while not_quote_semi r else EmptyString
      | EmptyString => EmptyString
      end in
    if nonempty after_quote then Some after_quote
    else
      let bare := take_while not_quote_semi rest in
      if nonempty bare then Some bare else None
  else None.

Definition search_filename (cd : string) : option string := search filename_at cd.

(** *** [\.([a-z0-9]{2,4})(?:\?|$)] with [re.I], group 1

    On ASCII text [re.I] makes the class match the letters of both cases
    and the digits, and [lower()] maps the upper-case letters; outside
    ASCII, Python also lets the class match the four characters whose
    case folding is an ASCII letter, and lowers by the Unicode tables.
    The scan below is the one for ASCII text. *)

(** Where [(?:\?|$)] matches: before a question mark, at the end of the
    text, or before a final newline. *)
Definition query_or_end (s : string) : bool :=
  match s with
  | EmptyString => true
  | String c r =>
      (eqb_char c "?" || (eqb_char c newline && negb (nonempty r)))%bool
  end.

Definition alnum_run (s : string) : nat := String.length (take_while is_alnum s).

Definition suffix_of_length (n : nat) (r : string) : option string :=
  if (Nat.leb n (alnum_run r) && query_or_end (drop n r))%bool
  then Some (take n r) else None.

Definition url_ext_at (s : string) : option string :=
  match s with
  | String c r =>
      if eqb_char c "." then
        match suffix_of_length 4 r with
        | Some g => Some g
        | None =>
            match suffix_of_length 3 r with
            | Some g => Some g
            | None => suffix_of_length 2 r
            end
        end
      else None
  | EmptyString => None
  end.

Definition search_url_ext (url : string) : option string := search url_ext_at url.

(** *** The storage pattern: [https://], one or more characters that are
    neither whitespace nor a quote, [amazonaws], one or more such
    characters again; group 0. *)

(** [\s] on ASCII text: tab to carriage return, the four separators
    28 to 31, and space.  (On other text Python's [\s] also matches the
    white space outside ASCII, so a match of the source can end earlier
    there.) *)
Definition is_re_space (c : ascii) : bool :=
  (Nat.leb 9 (code c) && Nat.leb (code c) 13
   || Nat.leb 28 (code c) && Nat.leb (code c) 31
   || Nat.eqb (code c) 32)%bool.

Definition url_char (c : ascii) : bool :=
  negb (is_re_space c || eqb_char c squote || eqb_char c dquote).

(** [amazonaws] must start after at least one character of the run and
    be followed by at least one more. *)
Fixpoint amazonaws_inside (run : string) : bool :=
  match run with
  | String _ r =>
      (startswith "amazonaws" r && nonempty (drop 9 r) || amazonaws_inside r)%bool
  | EmptyString => false
  end.

Definition amazonaws_at (s : string) : option string :=
  if startswith "https://" s then
    let run := take_while url_char (drop 8 s) in
    if amazonaws_inside run then Some ("https://" +:+ run) else None
  else None.

Definition search_amazonaws (text : string) : option string :=
  search amazonaws_at text.

(** *** The media pattern, with [re.I]: [https://], one or more characters
    that are neither whitespace nor a quote, a dot, one of [jpg], [jpeg],
    [png], [mp4], [mov], and optionally a question mark followed by any
    characters other than quotes; group 0. *)

Definition startswith_ci (p s : string) : bool := startswith (lower p) (lower s).

(** Length of the alternative matched at a dot, tried in the order of the
    pattern. *)
Definition media_ext_len (after_dot : string) : option nat :=
  if startswith_ci "jpg" after_dot then Some 3%nat
  else if startswith_ci "jpeg" after_dot then Some 4%nat
  else if startswith_ci "png" after_dot then Some 3%nat
  else if startswith_ci "mp4" after_dot then Some 3%nat
  else if startswith_ci "mov" after_dot then Some 3%nat
  else None.

(** The greedy run gives characters back until a dot with a media
    extension follows: the last such dot of the run, at offset [j >= 1].
    Returns the length of the run prefix, the dot and the extension. *)
Fixpoint last_media_dot (j : nat) (run : string) : option nat :=
  match run with
  | EmptyString => None
  | String c r =>
      match last_media_dot (S j) r with
      | Some n => Some n
      | None =>
          if (Nat.ltb 0 j && eqb_char c ".")%bool then
            match media_ext_len r with
            | Some k => Some (j + 1 + k)%nat
            | None => None
            end
          else None
      end
  end.

Definition not_quote (c : ascii) : bool :=
  negb (eqb_char c squote || eqb_char c dquote).

Definition query_len (s : string) : nat :=
  match s with
  | String c r =>
      if eqb_char c "?" then S (String.length (take_while not_quote r)) else 0%nat
  | EmptyString => 0%nat
  end.

Definition media_url_at (s : string) : option string :=
  if startswith_ci "https://" s then
    let tail := drop 8 s in
    match last_media_dot 0 (take_while url_char tail) with
    | Some n => Some (take (8 + n + query_len (drop n tail)) s)
    | None => None
    end
  else None.

Definition search_media_url (text : string) : option string :=
  search media_url_at text.

End Re.

(** ** [os.path.splitext] and the [pathlib] operations the program uses *)

Module PyPath.

Import PyStr.

(** [s.rfind(c)], [-1] when [c] does not occur. *)
Fixpoint rfind_from (c : ascii) (i : Z) (s : string) : Z :=
  match s with
  | EmptyString => -1
  | String d r =>
      let later := rfind_from c (i + 1) r in
      if decide (later ≠ -1) then later
      else if eqb_char c d then i else -1
  end.

Definition rfind (c : ascii) (s : string) : Z := rfind_from c 0 s.

Definition len (s : string) : Z := Z.of_nat (String.length s).

(** [s[i:]] and [s[:i]] for [0 <= i]. *)
Definition from (i : Z) (s : string) : string := Re.drop (Z.to_nat i) s.
Definition upto (i : Z) (s : string) : string := Re.take (Z.to_nat i) s.

(** The scan of [genericpath._splitext] over the leading dots of the
    last component. *)
Fixpoint leading_dots_only (n : nat) (s : string) : bool :=
  match n, s with
  | O, _ => true
  | S n', String c r => (eqb_char c "." && leading_dots_only n' r)%bool
  | S _, EmptyString => false
  end.

(** [os.path.splitext(p)[1]]; [nt] selects the separators of [ntpath]. *)
Definition splitext_ext (nt : bool) (p : string) : string :=
  let sepIndex :=
    if nt then Z.max (rfind "\" p) (rfind "/" p) else rfind "/" p in
  let dotIndex := rfind "." p in
  if decide (dotIndex > sepIndex) then
    let filenameIndex := sepIndex + 1 in
    if leading_dots_only (Z.to_nat (dotIndex - filenameIndex)) (from filenameIndex p)
    then EmptyString
    else from dotIndex p
  else EmptyString.

(** A path is a directory and a final component. *)
Record Path := { parent : string; name : string }.

(** [PurePath.suffix] *)
Definition suffix (p : Path) : string :=
  let i := rfind "." (name p) in
  if decide (0 < i ∧ i < len (name p) - 1) then from i (name p) else EmptyString.

(** [PurePath.stem] *)
Definition stem (p : Path) : string :=
  let i := rfind "." (name p) in
  if decide (0 < i ∧ i < len (name p) - 1) then upto i (name p) else name p.

(** [PurePath.with_suffix]; [None] stands for [ValueError]. *)
Definition with_suffix (nt : bool) (p : Path) (suf : string) : option Path :=
  if (has_char "/" suf || nt && has_char "\" suf)%bool then None
  else if (Re.nonempty suf && negb (startswith "." suf) || String.eqb suf ".")%bool then None
  else if negb (Re.nonempty (name p)) then None
  else
    let old := suffix p in
    Some {| parent := parent p;
            name := if Re.nonempty old
                    then upto (len (name p) - len old) (name p) +:+ suf
                    else name p +:+ suf |}.

(** [dir / child] for a plain file name [child]. *)
Definition child (dir : Path) (file : string) : Path :=
  {| parent := parent dir +:+ "/" +:+ name dir; name := file |}.

End PyPath.

Export PyPath(Path).

Global Instance Path_eq_dec : EqDecision Path.
Proof. solve_decision. Defined.

Global Instance Path_countable : Countable Path.
Proof.
  refine (inj_countable' (λ p, (PyPath.parent p, PyPath.name p))
            (λ q, {| PyPath.parent := q.1; PyPath.name := q.2 |}) _).
  by intros [].
Defined.

(** ** Index selection: [_parse_indices] *)

(** [range(a, b + 1)] *)
Definition range_incl (a b : Z) : list Z := seqZ a (b + 1 - a).

(** The body of [for k in range(a, b + 1): if 1 <= k <= max_n: sel.add(k)] *)
Definition add_in_bounds (max_n : Z) (sel : gset Z) (k : Z) : gset Z :=
  if decide (1 ≤ k ∧ k ≤ max_n) then {[k]} ∪ sel else sel.

(** One iteration of the loop over the comma separated parts; a failed
    [int()] raises before anything is added, and the exception is
    swallowed by [continue]. *)
Definition parse_part (max_n : Z) (sel : gset Z) (part : string) : gset Z :=
  match part with
  | EmptyString => sel
  | _ =>
      if PyStr.has_char "-" part then
        let '(sa, sb) := PyStr.split_first "-" part in
        match PyStr.int sa, PyStr.int sb with
        | Some a, Some b =>
            let '(a, b) := if decide (a > b) then (b, a) else (a, b) in
            foldl (add_in_bounds max_n) sel (range_incl a b)
        | _, _ => sel
        end
      else
        match PyStr.int part with
        | Some k => add_in_bounds max_n sel k
        | None => sel
        end
  end.

Definition selected (text : string) (max_n : Z) : gset Z :=
  foldl (parse_part max_n) ∅ (PyStr.split "," (PyStr.remove_char " " text)).

(** [sorted(sel)] *)
Definition sorted (sel : gset Z) : list Z := merge_sort Z.le (elements sel).

Definition _parse_indices (text : string) (max_n : Z) : list Z :=
  sorted (selected text max_n).

(** ** The outside world: HTTP responses, JSON values, the environment *)

Inductive Method := GET | POST.

(** The body of a streamed response.  [Unread chunks raises]: the
    iterator will yield [chunks] and then end, or raise if [raises];
    [Consumed]: the iterator ran to its end, iterating again raises;
    [Cached content]: the whole body was read through [r.text]. *)
Inductive Stream :=
| Unread (chunks : list string) (raises : bool)
| Consumed
| Cached (content : string).

Record Response := {
  status_code : Z;
  headers : list (string * string);
  url : string;
  stream : Stream;
}.

Definition with_stream (r : Response) (s : Stream) : Response :=
  {| status_code := status_code r; headers := headers r; url := url r; stream := s |}.

(** [r.headers.get(name, default)]: header names compare without case. *)
Fixpoint header_get (hs : list (string * string)) (name default : string) : string :=
  match hs with
  | [] => default
  | (k, v) :: rest =>
      if String.eqb (PyStr.lower k) (PyStr.lower name) then v
      else header_get rest name default
  end.

Inductive Exn :=
| RequestError (msg : string)    (* raised by [session.get] or [session.post] *)
| HTTPError (status : Z)         (* raised by [raise_for_status] *)
| RuntimeError (msg : string)
| StreamError                    (* raised by the body iterator *)
| ValueError
| UnboundLocalError.             (* a local variable read before assignment *)

Inductive Result (A : Type) :=
| Ok (a : A)
| Err (e : Exn).
Arguments Ok {A} a.
Arguments Err {A} e.

(** A request either yields a response or raises a network error. *)
Inductive NetOutcome :=
| Resp (r : Response)
| Raise (msg : string).

(** Values produced by [json.loads]; an object lists its items. *)
#[local] Set Warnings "-register-all".
Inductive Json :=
| JNull
| JBool (b : bool)
| JInt (n : Z)
| JFloat (text : string) (zero : bool)
| JStr (s : string)
| JArr (items : list Json)
| JObj (items : list (string * Json)).

(** What the external tool does with a source file. *)
Inductive FfOutcome :=
| FfDone (output : string)             (* exit status 0, output written *)
| FfFailed (partial : option string).  (* failure, possibly leaving a partial output *)

(** Everything the run does not control. *)
Record Env := {
  (** the answer of the network to the n-th request of the run *)
  env_net : nat → Method → string → NetOutcome;
  (** [json.loads]; [None] stands for any exception it raises *)
  env_json_loads : string → option Json;
  (** [str] of a JSON value that is not a string *)
  env_repr : Json → string;
  (** the cancellation flag reads as set from this poll on; [None]: never *)
  env_stop_at : option nat;
  (** [os.name == nt] *)
  env_nt : bool;
  (** whether [_find_ffmpeg] locates the tool and its probe *)
  env_ffmpeg : bool;
  env_ffprobe : bool;
  (** output of the probe for a file with the given contents *)
  env_probe : string → string;
  (** the tool run in stream-copy mode ([true]) or re-encoding ([false]) *)
  env_run : bool → string → FfOutcome;
}.

(** ** Observable effects and the state threaded through the run *)

Inductive Event :=
| Request (m : Method) (u : string)
| Close (r : Response)
| Sleep (seconds : Z)
| Log (line : string)
| Unlink (p : Path)
| Replace (src dst : Path)
| WriteFile (p : Path)
| Ffmpeg (copy : bool) (src dst : Path)
| Progress (value : Z).

Record World := {
  requests : nat;             (* HTTP requests issued so far *)
  polls : nat;                (* reads of the cancellation flag so far *)
  fs : gmap Path string;      (* regular files and their contents *)
  trace : list Event;         (* effects, oldest first *)
}.

Definition emit (e : Event) (w : World) : World :=
  {| requests := requests w; polls := polls w; fs := fs w; trace := trace w ++ [e] |}.

Definition set_fs (f : gmap Path string) (w : World) : World :=
  {| requests := requests w; polls := polls w; fs := f; trace := trace w |}.

(** [session.get] and [session.post] *)
Definition session_request (E : Env) (m : Method) (u : string) (w : World)
  : World * NetOutcome :=
  ({| requests := S (requests w); polls := polls w; fs := fs w;
      trace := trace w ++ [Request m u] |},
   env_net E (requests w) m u).

(** [stop_event.is_set()] *)
Definition is_set (E : Env) (w : World) : World * bool :=
  ({| requests := requests w; polls := S (polls w); fs := fs w; trace := trace w |},
   match env_stop_at E with
   | Some n => bool_decide (n ≤ polls w)%nat
   | None => false
   end).

(** ** [_request_with_fallback] *)

Definition str_exn (e : Exn) : string :=
  match e with
  | RequestError msg => msg
  | HTTPError status => pretty status +:+ " Error"
  | RuntimeError msg => msg
  | StreamError => "stream error"
  | ValueError => "invalid value"
  | UnboundLocalError => "local variable referenced before assignment"
  end.

(** [min(8, 2 ** (a - 1))] *)
Definition backoff (a : Z) : Z := Z.min 8 (2 ^ (a - 1)).

Definition method_fallback (status : Z) : bool :=
  bool_decide (status = 405 ∨ status = 403).

Definition retryable (status : Z) : bool :=
  bool_decide (500 ≤ status ∨ status = 429).

Definition log_if (log : bool) (line : string) (w : World) : World :=
  if log then emit (Log line) w else w.

Definition attempt_suffix (u : string) (a attempts : Z) : string :=
  " for " +:+ u +:+ " (attempt " +:+ pretty a +:+ "/" +:+ pretty attempts +:+ ")".

(** How one pass through the loop body ends: [return r], or the next
    iteration with the current bindings of [r] and [last_exc]. *)
Inductive Flow :=
| Return (r : Response)
| Next (r : option Response) (last_exc : option Exn).

(** The [except] clause of the loop body. *)
Definition on_exception (log : bool) (u : string) (a attempts : Z)
    (r : option Response) (e : Exn) (w : World) : World * Flow :=
  (emit (Sleep (backoff a))
     (log_if log ("[RETRY] Error '" +:+ str_exn e +:+ "'" +:+ attempt_suffix u a attempts) w),
   Next r (Some e)).

(** The status test applied to the response bound to [r], whichever
    method produced it. *)
Definition classify (log : bool) (u : string) (a attempts : Z)
    (last_exc : option Exn) (r : Response) (w : World) : World * Flow :=
  if retryable (status_code r) then
    (emit (Sleep (backoff a))
       (log_if log ("[RETRY] HTTP " +:+ pretty (status_code r) +:+ attempt_suffix u a attempts) w),
     Next (Some r) last_exc)
  else (w, Return r).

(** One iteration of the [for] loop. *)
Definition attempt (E : Env) (log : bool) (u : string) (attempts a : Z)
    (r0 : option Response) (last_exc : option Exn) (w : World) : World * Flow :=
  let '(w1, o1) := session_request E GET u w in
  match o1 with
  | Raise msg => on_exception log u a attempts r0 (RequestError msg) w1
  | Resp r =>
      if method_fallback (status_code r) then
        let w2 := emit (Close r) w1 in
        let '(w3, o2) := session_request E POST u w2 in
        match o2 with
        | Raise msg => on_exception log u a attempts (Some r) (RequestError msg) w3
        | Resp r2 => classify log u a attempts last_exc r2 w3
        end
      else classify log u a attempts last_exc r w1
  end.

(** The loop over [range(1, max(1, attempts) + 1)] and the code after it. *)
Fixpoint attempts_loop (E : Env) (log : bool) (u : string) (attempts : Z)
    (todo : list Z) (r : option Response) (last_exc : option Exn) (w : World)
  : World * Result Response :=
  match todo with
  | [] =>
      match last_exc with
      | Some e => (w, Err e)
      | None =>
          match r with
          | Some r => (w, Ok r)
          | None => (w, Err UnboundLocalError)
          end
      end
  | a :: rest =>
      match attempt E log u attempts a r last_exc w with
      | (w', Return r') => (w', Ok r')
      | (w', Next r' last_exc') => attempts_loop E log u attempts rest r' last_exc' w'
      end
  end.

Definition attempt_numbers (attempts : Z) : list Z := seqZ 1 (Z.max 1 attempts).

Definition _request_with_fallback (E : Env) (log : bool) (u : string) (attempts : Z)
    (w : World) : World * Result Response :=
  attempts_loop E log u attempts (attempt_numbers attempts) None None w.


(** ** Reading response bodies *)

(** [s[:n]] and [s[n:]] with the bound counted in [Z]. *)
Fixpoint takeZ (n : Z) (s : string) : string :=
  match s with
  | EmptyString => EmptyString
  | String c r => if decide (0 < n) then String c (takeZ (n - 1) r) else EmptyString
  end.

Fixpoint dropZ (n : Z) (s : string) : string :=
  match s with
  | EmptyString => EmptyString
  | String c r => if decide (0 < n) then dropZ (n - 1) r else s
  end.

Fixpoint slices_fuel (fuel : nat) (n : Z) (s : string) : list string :=
  match fuel with
  | O => []
  | S fuel' =>
      if Re.nonempty s then takeZ n s :: slices_fuel fuel' n (dropZ n s) else []
  end.

(** [iter_slices(content, n)] of a cached body, for a positive [n]. *)
Definition iter_slices (n : Z) (s : string) : list string :=
  slices_fuel (String.length s) n s.

(** What [r.iter_content(chunk_size=n)] will yield: the chunks and whether
    the iterator raises after them; [None] when the first step already
    raises because the stream was consumed. *)
Definition iter_content (n : Z) (s : Stream) : option (list string * bool) :=
  match s with
  | Unread chunks raises => Some (chunks, raises)
  | Consumed => None
  | Cached c => Some (iter_slices n c, false)
  end.

(** The stream once an iteration over it ran to its end. *)
Definition exhausted (s : Stream) (raises : bool) : Stream :=
  match s with
  | Unread _ _ => if raises then Unread [] true else Consumed
  | other => other
  end.

(** The stream when an iteration stopped with [rest] still to come. *)
Definition interrupted (s : Stream) (rest : list string) (raises : bool) : Stream :=
  match s with
  | Unread _ _ => Unread rest raises
  | other => other
  end.

(** The loop that collects up to just over one MiB for parsing;
    [Some rest] when it left through [break]. *)
Fixpoint read_chunks (content : string) (chunks : list string)
  : string * option (list string) :=
  match chunks with
  | [] => (content, None)
  | c :: rest =>
      let content' := if Re.nonempty c then content +:+ c else content in
      if decide (PyPath.len content' > 1024 * 1024) then (content', Some rest)
      else read_chunks content' rest
  end.

(** The body prefix read by [_resolve_media_response] and the response
    afterwards; any exception of the iterator is swallowed. *)
Definition read_for_parsing (r : Response) : string * Response :=
  match iter_content 65536 (stream r) with
  | None => (EmptyString, r)
  | Some (chunks, raises) =>
      match read_chunks EmptyString chunks with
      | (content, Some rest) => (content, with_stream r (interrupted (stream r) rest raises))
      | (content, None) => (content, with_stream r (exhausted (stream r) raises))
      end
  end.

Definition concat_chunks (chunks : list string) : string :=
  foldr String.append EmptyString chunks.

(** [r.text] inside [try ... except Exception: text = empty], and the
    response afterwards. *)
Definition read_text (r : Response) : string * Response :=
  match stream r with
  | Unread chunks false =>
      (concat_chunks chunks, with_stream r (Cached (concat_chunks chunks)))
  | Unread chunks true => (EmptyString, with_stream r (Unread [] true))
  | Consumed => (EmptyString, r)
  | Cached c => (c, r)
  end.

(** [next(r.iter_content(...))] inside [try ... except], decoded. *)
Definition read_sample (r : Response) : string :=
  match iter_content (1024 * 128) (stream r) with
  | Some (c :: _, _) => c
  | _ => EmptyString
  end.

(** ** [_looks_like_media_contenttype], [_guess_ext_from_headers],
    [_ext_from_url] *)

Definition _looks_like_media_contenttype (ctype : string) : bool :=
  let ctype := PyStr.lower ctype in
  (PyStr.startswith "image/" ctype || PyStr.startswith "video/" ctype
   || PyStr.contains "octet-stream" ctype)%bool.

Definition _guess_ext_from_headers (nt : bool) (r : Response) (fallback : string) : string :=
  let ctype := PyStr.lower (header_get (headers r) "Content-Type" EmptyString) in
  if PyStr.contains "image/jpeg" ctype then ".jpg"
  else if PyStr.contains "image/png" ctype then ".png"
  else if (PyStr.contains "image/heic" ctype || PyStr.contains "image/heif" ctype)%bool
  then ".heic"
  else if PyStr.contains "video/mp4" ctype then ".mp4"
  else if PyStr.contains "video/quicktime" ctype then ".mov"
  else
    let cd := header_get (headers r) "Content-Disposition" EmptyString in
    match Re.search_filename cd with
    | Some name =>
        let suf := PyPath.splitext_ext nt name in
        if Re.nonempty suf then suf else fallback
    | None => fallback
    end.

Definition _ext_from_url (u : string) : string :=
  match Re.search_url_ext u with
  | Some g => "." +:+ PyStr.lower g
  | None => EmptyString
  end.

(** The extension chosen by [download_all] for a resolved response. *)
Definition chosen_ext (nt : bool) (r : Response) (final_url default_ext : string) : string :=
  let ext := _guess_ext_from_headers nt r default_ext in
  if (String.eqb ext ".bin" || String.eqb ext EmptyString)%bool then
    let from_url := _ext_from_url final_url in
    if Re.nonempty from_url then from_url else ext
  else ext.

(** ** [_resolve_media_response] *)

Fixpoint dict_get (o : list (string * Json)) (k : string) : option Json :=
  match o with
  | [] => None
  | (k', v) :: rest => if String.eqb k' k then Some v else dict_get rest k
  end.

(** Python truth value of a JSON value. *)
Definition truthy (j : Json) : bool :=
  match j with
  | JNull => false
  | JBool b => b
  | JInt n => negb (Z.eqb n 0)
  | JFloat _ zero => negb zero
  | JStr s => Re.nonempty s
  | JArr items => match items with [] => false | _ => true end
  | JObj items => match items with [] => false | _ => true end
  end.

Definition py_str (E : Env) (j : Json) : string :=
  match j with
  | JStr s => s
  | other => env_repr E other
  end.

Definition indirection_keys : list string :=
  ["url"; "signedUrl"; "download_url"; "mediaUrl"].

(** The loop over the keys: the first key whose value is truthy. *)
Fixpoint first_truthy (E : Env) (o : list (string * Json)) (keys : list string)
  : option string :=
  match keys with
  | [] => None
  | k :: ks =>
      match dict_get o k with
      | Some v => if truthy v then Some (py_str E v) else first_truthy E o ks
      | None => first_truthy E o ks
      end
  end.

Definition json_url (E : Env) (text : string) : option string :=
  match env_json_loads E text with
  | Some (JObj o) => first_truthy E o indirection_keys
  | _ => None
  end.

Definition truthy_url (new_url : option string) : bool :=
  match new_url with
  | Some s => Re.nonempty s
  | None => false
  end.

(** The value of [new_url] before the final [if new_url:]. *)
Definition find_indirection (E : Env) (text : string) : option string :=
  let new_url := json_url E text in
  if truthy_url new_url then new_url
  else
    match Re.search_amazonaws text with
    | Some m => Some m
    | None =>
        match Re.search_media_url text with
        | Some m2 => Some m2
        | None => new_url
        end
    end.

Definition terminal_status (status : Z) : bool :=
  bool_decide (400 ≤ status ∧ ¬ (status = 403 ∨ status = 405)).

Definition _resolve_media_response (E : Env) (log : bool) (u : string) (w : World)
  : World * Result (Response * string) :=
  match _request_with_fallback E log u 3 w with
  | (w1, Err e) => (w1, Err e)
  | (w1, Ok r) =>
      if terminal_status (status_code r) then (w1, Ok (r, url r))
      else if _looks_like_media_contenttype (header_get (headers r) "Content-Type" EmptyString)
      then (w1, Ok (r, url r))
      else
        let '(text, r') := read_for_parsing r in
        let new_url := find_indirection E text in
        if truthy_url new_url then
          let target := default EmptyString new_url in
          match _request_with_fallback E log target 3 (emit (Close r') w1) with
          | (w3, Err e) => (w3, Err e)
          | (w3, Ok r2) => (w3, Ok (r2, target))
          end
        else (w1, Ok (r', url r'))
  end.

(** ** The file system operations the program performs *)

(** [p.exists()] *)
Definition file_exists (p : Path) (w : World) : bool :=
  bool_decide (is_Some (fs w !! p)).

(** [p.unlink()] of an existing file *)
Definition unlink (p : Path) (w : World) : World :=
  emit (Unlink p) (set_fs (delete p (fs w)) w).

(** [src.replace(dst)]; [None] when [src] does not exist *)
Definition replace (src dst : Path) (w : World) : option World :=
  match fs w !! src with
  | Some content =>
      Some (emit (Replace src dst) (set_fs (<[dst := content]> (delete src (fs w))) w))
  | None => None
  end.

(** [p.write_text(text)], and [p.open(wb)] followed by writes *)
Definition write_file (p : Path) (content : string) (w : World) : World :=
  emit (WriteFile p) (set_fs (<[p := content]> (fs w)) w).

Definition append_file (p : Path) (chunk : string) (w : World) : World :=
  set_fs (<[p := default EmptyString (fs w !! p) +:+ chunk]> (fs w)) w.

(** ** The transcoder: [_has_ffmpeg], [_video_codec],
    [_convert_to_h264_mp4], [_ensure_h264_mp4] *)

Definition _has_ffmpeg (E : Env) : bool := (env_ffmpeg E && env_ffprobe E)%bool.

Definition _video_codec (E : Env) (p : Path) (w : World) : string :=
  if env_ffprobe E then
    match fs w !! p with
    | Some content => env_probe E content
    | None => EmptyString
    end
  else EmptyString.

Definition is_h264 (vcodec : string) : bool :=
  (String.eqb vcodec "h264" || String.eqb vcodec "avc1")%bool.

Definition _convert_to_h264_mp4 (E : Env) (src dst : Path) (copy_if_h264 : bool)
    (w : World) : World * bool :=
  if env_ffmpeg E then
    let vcodec := PyStr.lower (_video_codec E src w) in
    let copy := (copy_if_h264 && is_h264 vcodec)%bool in
    let w1 := emit (Ffmpeg copy src dst) w in
    match fs w !! src with
    | None => (w1, false)
    | Some content =>
        match env_run E copy content with
        | FfDone output => (set_fs (<[dst := output]> (fs w1)) w1, true)
        | FfFailed (Some partial) => (set_fs (<[dst := partial]> (fs w1)) w1, false)
        | FfFailed None => (w1, false)
        end
    end
  else (w, false).

(** [final_path.parent / (final_path.stem + _tmpconv.mp4)] *)
Definition temp_sibling (final_path : Path) : Path :=
  {| PyPath.parent := PyPath.parent final_path;
     PyPath.name := PyPath.stem final_path +:+ "_tmpconv.mp4" |}.

Definition unlink_if_exists (p : Path) (w : World) : World :=
  if file_exists p w then unlink p w else w.

(** The [try] block that moves the converted file into place.  On the
    map of files, deleting an existing file and renaming an existing file
    do not fail, so the [except] branch is taken only when the temporary
    file is missing; a failure of the operating system in these calls
    (which the source answers with the same warning and [None]) has no
    counterpart here. *)
Definition swap_into_place (src_path temp_path final_path : Path) (w : World)
  : World * option Path :=
  let w1 := unlink_if_exists final_path w in
  match replace temp_path final_path w1 with
  | None => (emit (Log "[WARN] Failed to move converted file") w1, None)
  | Some w2 =>
      let w3 :=
        if (file_exists src_path w2 && negb (bool_decide (src_path = final_path)))%bool
        then unlink src_path w2 else w2 in
      (w3, Some final_path)
  end.

Definition _ensure_h264_mp4 (E : Env) (src_path : Path) (w : World)
  : World * Result (option Path) :=
  if negb (_has_ffmpeg E) then (w, Ok None)
  else
    match PyPath.with_suffix (env_nt E) src_path ".mp4" with
    | None => (w, Err ValueError)
    | Some final_path =>
        let temp_path := temp_sibling final_path in
        let w1 := unlink_if_exists temp_path w in
        let '(w2, ok) := _convert_to_h264_mp4 E src_path temp_path true w1 in
        if negb ok then (unlink_if_exists temp_path w2, Ok None)
        else
          let '(w3, res) := swap_into_place src_path temp_path final_path w2 in
          (w3, Ok res)
    end.

(** ** [download_all]

    The widgets of the caller (progress bar, buttons, message boxes) appear
    only through [Progress] events; creating the output directories, which
    is idempotent, leaves no trace in the model, where a file can always be
    written.  The text of library exceptions is abbreviated in log lines. *)

Record Counters := {
  ok : Z;
  fail : Z;
  failed_out : option (list Z);   (* the caller's list, if one was passed *)
}.

Record Dirs := { out_root : Path; imgs : Path; vids : Path }.

Definition make_dirs (root_dir : Path) : Dirs :=
  let out := PyPath.child root_dir "snap_memories" in
  {| out_root := out; imgs := PyPath.child out "images"; vids := PyPath.child out "videos" |}.

Definition debug_status_path (d : Dirs) (i status : Z) : Path :=
  PyPath.child (PyPath.child (out_root d) "debug")
    ("response_" +:+ pretty i +:+ "_status" +:+ pretty status +:+ ".txt").

Definition debug_sample_path (d : Dirs) (i : Z) : Path :=
  PyPath.child (PyPath.child (out_root d) "debug") ("response_" +:+ pretty i +:+ ".html").

Definition is_video_item (media_text : string) : bool := PyStr.contains "video" media_text.

Definition default_ext_of (media_text : string) : string :=
  if is_video_item media_text then ".mp4" else ".jpg".

(** [folder / f(memory_idx default_ext)] *)
Definition initial_dest (d : Dirs) (idx : Z) (media_text : string) : Path :=
  PyPath.child (if is_video_item media_text then vids d else imgs d)
    ("memory_" +:+ pretty idx +:+ default_ext_of media_text).

(** The destination once the extension is settled; [None] stands for the
    [ValueError] of [with_suffix]. *)
Definition final_dest (E : Env) (d : Dirs) (idx : Z) (media_text : string)
    (r : Response) (final_url : string) : option Path :=
  let dest := initial_dest d idx media_text in
  let ext := chosen_ext (env_nt E) r final_url (default_ext_of media_text) in
  if negb (String.eqb (PyStr.lower (PyPath.suffix dest)) (PyStr.lower ext))
  then PyPath.with_suffix (env_nt E) dest ext
  else Some dest.

(** [r.status_code >= 400] *)
Definition error_status (status : Z) : bool := bool_decide (400 ≤ status).

(** [raise_for_status] raises for client and server error codes. *)
Definition raises_for_status (status : Z) : bool :=
  bool_decide (400 ≤ status ∧ status < 600).

(** The loop that streams the body to the open file. *)
Fixpoint write_chunks (E : Env) (dest : Path) (chunks : list string) (raises : bool)
    (w : World) : World * option Exn :=
  match chunks with
  | [] => (w, if raises then Some StreamError else None)
  | chunk :: rest =>
      let '(w1, stop) := is_set E w in
      if stop then
        let w2 := emit (Log "[STOP] Cancelled during download; partial file removed.") w1 in
        (unlink_if_exists dest w2, Some (RuntimeError "Stopped by user"))
      else
        let w2 := if Re.nonempty chunk then append_file dest chunk w1 else w1 in
        write_chunks E dest rest raises w2
  end.

(** The [with dest.open(wb)] block. *)
Definition save_stream (E : Env) (dest : Path) (r : Response) (w : World)
  : World * option Exn :=
  let w1 := write_file dest EmptyString w in
  match iter_content (1024 * 256) (stream r) with
  | None => (w1, Some StreamError)
  | Some (chunks, raises) => write_chunks E dest chunks raises w1
  end.

(** The transcoding step of a video item, with its log lines. *)
Definition normalize_video (E : Env) (dest : Path) (w : World) : World * option Exn :=
  match _ensure_h264_mp4 E dest w with
  | (w1, Err e) => (w1, Some e)
  | (w1, Ok (Some final_path)) =>
      (emit (Log ("[H264] " +:+ PyPath.name final_path)) w1, None)
  | (w1, Ok None) =>
      if negb (_has_ffmpeg E)
      then (emit (Log "[INFO] ffmpeg not found; cannot guarantee H.264 only.") w1, None)
      else (emit (Log ("[WARN] ffmpeg failed to create H.264 for " +:+ PyPath.name dest
                       +:+ "; keeping original.")) w1, None)
  end.

(** The [try] block of one item: the world afterwards, the value of [ok],
    and the exception that left the block, if any. *)
Definition process_item (E : Env) (d : Dirs) (i idx : Z) (u media_text : string)
    (ok0 : Z) (w : World) : World * Z * option Exn :=
  match _resolve_media_response E false u w with
  | (w1, Err e) => (w1, ok0, Some e)
  | (w1, Ok (r, final_url)) =>
      let '(w2, r2) :=
        if error_status (status_code r) then
          let '(text, r') := read_text r in
          (write_file (debug_status_path d i (status_code r)) text w1, r')
        else (w1, r) in
      if (error_status (status_code r) && raises_for_status (status_code r))%bool
      then (w2, ok0, Some (HTTPError (status_code r)))
      else
        let ctype := PyStr.lower (header_get (headers r2) "Content-Type" EmptyString) in
        if negb (_looks_like_media_contenttype ctype) then
          (write_file (debug_sample_path d i) (read_sample r2) w2, ok0,
           Some (RuntimeError ("Unexpected content type: " +:+ ctype)))
        else
          match final_dest E d idx media_text r2 final_url with
          | None => (w2, ok0, Some ValueError)
          | Some dest =>
              match save_stream E dest r2 w2 with
              | (w3, Some e) => (w3, ok0, Some e)
              | (w3, None) =>
                  let w4 := emit (Log ("[OK] #" +:+ pretty idx +:+ " -> " +:+ PyPath.name dest)) w3 in
                  if is_video_item media_text then
                    let '(w5, exn) := normalize_video E dest w4 in (w5, ok0 + 1, exn)
                  else (w4, ok0 + 1, None)
              end
          end
  end.

(** The [except] clause of one item. *)
Definition record_failure (idx : Z) (u : string) (e : Exn) (c : Counters) (w : World)
  : World * Counters :=
  (emit (Log ("[FAIL] #" +:+ pretty idx +:+ " " +:+ u +:+ " -> " +:+ str_exn e)) w,
   {| ok := ok c; fail := fail c + 1;
      failed_out := (λ l, l ++ [idx]) <$> failed_out c |}).

Definition WorkItem : Type := Z * (Z * (string * string)).

(** The main loop over [enumerate(work, start=1)]. *)
Fixpoint run_items (E : Env) (d : Dirs) (work : list WorkItem) (c : Counters) (w : World)
  : World * Counters :=
  match work with
  | [] => (w, c)
  | (i, (idx, (u, media_text))) :: rest =>
      let '(w1, stop) := is_set E w in
      if stop then (emit (Log "[STOP] Stopping before next item...") w1, c)
      else
        let '(w2, ok', exn) := process_item E d i idx u media_text (ok c) w1 in
        let '(w3, c') :=
          match exn with
          | Some e =>
              record_failure idx u e
                {| ok := ok'; fail := fail c; failed_out := failed_out c |} w2
          | None => (w2, {| ok := ok'; fail := fail c; failed_out := failed_out c |})
          end in
        run_items E d rest c' (emit (Progress i) w3)
  end.

(** [items[:limit]] *)
Definition slice_to {A : Type} (limit : Z) (items : list A) : list A :=
  if decide (0 ≤ limit) then take (Z.to_nat limit) items
  else take (Z.to_nat (Z.of_nat (length items) + limit)) items.

(** [list(enumerate(xs, start=1))] *)
Definition enumerate1 {A : Type} (xs : list A) : list (Z * A) :=
  zip (seqZ 1 (Z.of_nat (length xs))) xs.

(** The work list: the selected positions with their items, or all items
    (cut to [limit] when there is one) numbered from 1. *)
Definition build_work (limit : option Z) (indices_text : option string)
    (items : list (string * string)) : list (Z * (string * string)) :=
  let total_all := Z.of_nat (length items) in
  let selected_indices :=
    match indices_text with
    | Some text => if Re.nonempty text then _parse_indices text total_all else []
    | None => []
    end in
  match selected_indices with
  | [] =>
      let items' :=
        match limit with
        | Some l => if decide (l ≠ 0) then slice_to l items else items
        | None => items
        end in
      enumerate1 items'
  | _ =>
      omap (λ idx, if decide (1 ≤ idx ∧ idx ≤ total_all)
                   then (λ it, (idx, it)) <$> items !! Z.to_nat (idx - 1)
                   else None)
           selected_indices
  end.

(** [download_all] once the index has been parsed into [items]; [None]
    when there is nothing to do. *)
Definition download_all (E : Env) (root_dir : Path) (limit : option Z)
    (indices_text : option string) (failed_out0 : option (list Z))
    (items : list (string * string)) (w : World) : option (World * Counters) :=
  let d := make_dirs root_dir in
  let work := build_work limit indices_text items in
  match work with
  | [] => None
  | _ =>
      let total := Z.of_nat (length work) in
      let w0 := emit (Log ("Found " +:+ pretty total +:+ " memories.")) w in
      let c0 := {| ok := 0; fail := 0; failed_out := (λ _, []) <$> failed_out0 |} in
      let '(w1, c1) := run_items E d (enumerate1 work) c0 w0 in
      let '(w2, stopped) := is_set E w1 in
      let status := if stopped then "Stopped" else "Done" in
      Some (emit (Log (status +:+ ". " +:+ pretty (ok c1) +:+ " downloaded, "
                       +:+ pretty (fail c1) +:+ " failed.")) w2, c1)
  end.

(** ** Observations on traces and scripted environments *)

Definition sleeps (t : list Event) : list Z :=
  omap (λ e, match e with Sleep s => Some s | _ => None end) t.

Definition network (t : list Event) : list (Method * string) :=
  omap (λ e, match e with Request m u => Some (m, u) | _ => None end) t.

(** A network that answers the requests of a run from a list, in order,
    whatever the method and the URL, and refuses connections afterwards. *)
Definition scripted (answers : list NetOutcome) : nat → Method → string → NetOutcome :=
  λ n _ _, nth n answers (Raise "connection refused").

Definition plain_env (net : nat → Method → string → NetOutcome)
    (loads : string → option Json) (stop_at : option nat) : Env :=
  {| env_net := net; env_json_loads := loads; env_repr := λ _, "<value>";
     env_stop_at := stop_at; env_nt := false;
     env_ffmpeg := false; env_ffprobe := false;
     env_probe := λ _, ""; env_run := λ _ _, FfFailed None |}.

Definition empty_world : World :=
  {| requests := 0; polls := 0; fs := ∅; trace := [] |}.

Definition reply (status : Z) (ctype : string) (chunks : list string) : Response :=
  {| status_code := status; headers := [("Content-Type", ctype)];
     url := "https://example.test/final"; stream := Unread chunks false |}.

(** The world after a request has been sent, and after the log line and
    the sleep that precede a retry. *)
Definition sent (m : Method) (u : string) (w : World) : World :=
  {| requests := S (requests w); polls := polls w; fs := fs w;
     trace := trace w ++ [Request m u] |}.

Definition slept (log : bool) (line : string) (a : Z) (w : World) : World :=
  emit (Sleep (backoff a)) (log_if log line w).

(** An environment in which the tool and its probe are installed. *)
Definition with_tool (probe : string → string) (run : bool → string → FfOutcome)
    (E : Env) : Env :=
  {| env_net := env_net E; env_json_loads := env_json_loads E; env_repr := env_repr E;
     env_stop_at := env_stop_at E; env_nt := env_nt E;
     env_ffmpeg := true; env_ffprobe := true;
     env_probe := probe; env_run := run |}.

(** The [Unlink] event of a guarded deletion. *)
Definition unlink_event (present : bool) (p : Path) : list Event :=
  if present then [Unlink p] else [].

(** Whether a trace deletes [src] before it moves any file. *)
Fixpoint unlinked_before_replace (src : Path) (t : list Event) : bool :=
  match t with
  | [] => false
  | Replace _ _ :: _ => false
  | Unlink p :: rest =>
      if decide (p = src) then true else unlinked_before_replace src rest
  | _ :: rest => unlinked_before_replace src rest
  end.

(** ** Predicates used in the statements *)

(** A binding state from which the code after the loop yields a response
    or re-raises a network error. *)
Definition settled (r : option Response) (last_exc : option Exn) : Prop :=
  match last_exc with
  | Some e => ∃ msg, e = RequestError msg
  | None => is_Some r
  end.

Definition proper (res : Result Response) : Prop :=
  (∃ r, res = Ok r) ∨ (∃ msg, res = Err (RequestError msg)).

(** The keys tried before [k], in priority order, all miss: absent, or
    present with a value that Python treats as false. *)
Definition skipped (o : list (string * Json)) (k : string) : Prop :=
  match dict_get o k with
  | Some v => truthy v = false
  | None => True
  end.

(** Two worlds with the same files and the same number of flag reads. *)
Definition same_disk (w w' : World) : Prop := fs w' = fs w ∧ polls w' = polls w.

(** ** Concrete runs *)

Definition q : string := String Re.dquote EmptyString.

Definition app_url : string := "https://app.test/dl?id=1".

Definition env_503_503_200 : Env :=
  plain_env (scripted [Resp (reply 503 "text/html" []); Resp (reply 503 "text/html" []);
                       Resp (reply 200 "image/png" ["png"])]) (λ _, None) None.

Definition env_503_always : Env :=
  plain_env (λ _ _ _, Resp (reply 503 "text/html" [])) (λ _, None) None.

Definition env_offline : Env := plain_env (scripted []) (λ _, None) None.

(** GET is refused with 403, POST is served. *)
Definition env_post_only : Env :=
  plain_env (λ _ m _, match m with
                      | GET => Resp (reply 403 "text/html" [])
                      | POST => Resp (reply 200 "image/png" ["png"])
                      end) (λ _, None) None.

(** A JSON wrapper whose [url] is empty and whose [signedUrl] is set. *)
Definition wrapper_body : string :=
  "{" +:+ q +:+ "url" +:+ q +:+ ": " +:+ q +:+ q +:+ ", "
  +:+ q +:+ "signedUrl" +:+ q +:+ ": " +:+ q +:+ "https://cdn.test/x.mp4" +:+ q +:+ "}".

Definition wrapper_json : Json :=
  JObj [("url", JStr EmptyString); ("signedUrl", JStr "https://cdn.test/x.mp4")].

Definition env_wrapper : Env :=
  plain_env (scripted [Resp (reply 200 "application/json" [wrapper_body]);
                       Resp (reply 200 "video/mp4" ["mp4"])])
    (λ text, if String.eqb text wrapper_body then Some wrapper_json else None) None.

(** A JSON wrapper with the media address under [url]. *)
Definition s3_url : string := "https://bucket.s3.amazonaws.com/x.mp4".

Definition s3_body : string :=
  "{" +:+ q +:+ "url" +:+ q +:+ ":" +:+ q +:+ s3_url +:+ q +:+ "}".

Definition env_s3 : Env :=
  plain_env (scripted [Resp (reply 200 "application/json" [s3_body]);
                       Resp (reply 200 "video/mp4" ["mp4"])])
    (λ text, if String.eqb text s3_body then Some (JObj [("url", JStr s3_url)]) else None)
    None.

Definition export_root : Path := {| PyPath.parent := "/home/u"; PyPath.name := "mydata" |}.

Definition three_items : list (string * string) :=
  [("https://a.test/1", "image"); ("https://a.test/2", "video"); ("https://a.test/3", "image")].

Definition env_404 : Env :=
  plain_env (λ _ _ _, Resp (reply 404 "text/plain" ["not found"])) (λ _, None) None.

(** An image served as a byte stream from an address ending in [.heic]. *)
Definition heic_url : string := "https://cdn.test/file.heic?sig=abc".

Definition env_heic : Env :=
  plain_env (λ _ _ _, Resp (reply 200 "application/octet-stream" ["heic-bytes"]))
    (λ _, None) None.

(** A video served in three chunks; the flag is set from the fourth read on,
    that is, when the third chunk is about to be written. *)
Definition env_cancel : Env :=
  plain_env (λ _ _ _, Resp (reply 200 "video/quicktime" ["aa"; "bb"; "cc"]))
    (λ _, None) (Some 3%nat).

(** The tool is installed and fails on every file. *)
Definition env_tool_fails : Env :=
  with_tool (λ _, "hevc") (λ _ _, FfFailed (Some "partial"))
    (plain_env (λ _ _ _, Resp (reply 200 "video/quicktime" ["aa"; "bb"])) (λ _, None) None).

(** The tool is installed and converts every file. *)
Definition env_tool_works : Env :=
  with_tool (λ _, "hevc") (λ _ _, FfDone "h264-bytes") env_offline.

Definition videos_dir : Path := vids (make_dirs export_root).

Definition mov_file : Path := PyPath.child videos_dir "memory_2.mov".
Definition mp4_file : Path := PyPath.child videos_dir "memory_1.mp4".

Definition world_with (p : Path) (content : string) : World :=
  {| requests := 0; polls := 0; fs := {[p := content]}; trace := [] |}.

Definition dirs : Dirs := make_dirs export_root.

Definition no_counts : Counters := {| ok := 0; fail := 0; failed_out := Some [] |}.

Definition mov_reply : Response := reply 200 "video/quicktime" ["aa"; "bb"; "cc"].

Definition short_mov_reply : Response := reply 200 "video/quicktime" ["aa"; "bb"].

Definition not_found : Response := reply 404 "text/plain" ["not found"].

(** ** Predicates and helpers for the further properties *)

(** The positions a comma separated token stands for: a single integer,
    or every integer between the two ends of a range, in either order. *)
Definition covers (part : string) (k : Z) : Prop :=
  part ≠ EmptyString ∧
  if PyStr.has_char "-" part then
    ∃ a b, PyStr.int (PyStr.split_first "-" part).1 = Some a ∧
           PyStr.int (PyStr.split_first "-" part).2 = Some b ∧
           Z.min a b ≤ k ∧ k ≤ Z.max a b
  else PyStr.int part = Some k.

(** Texts made of decimal digits, and the number they denote after the
    digits read so far. *)
Fixpoint all_digits (s : string) : bool :=
  match s with
  | EmptyString => true
  | String c r => (PyStr.is_digit c && all_digits r)%bool
  end.

Fixpoint digits_val (acc : Z) (s : string) : Z :=
  match s with
  | EmptyString => acc
  | String c r => digits_val (10 * acc + PyStr.digit_val c) r
  end.

(** [sep.join(parts)] *)
Fixpoint join (sep : string) (parts : list string) : string :=
  match parts with
  | [] => EmptyString
  | [p] => p
  | p :: ps => p +:+ sep +:+ join sep ps
  end.

(** The selection text that [retry_failed] hands to the next run:
    the failed positions, deduplicated and sorted, as decimal numbers
    separated by commas. *)
Definition retry_text (failed : list Z) : string :=
  join "," (pretty <$> sorted (list_to_set failed)).

(** The two intermediate values of [download_all] before the work list
    is built: the parsed selection and the items cut to the limit. *)
Definition selected_indices (indices_text : option string) (total_all : Z) : list Z :=
  match indices_text with
  | Some text => if Re.nonempty text then _parse_indices text total_all else []
  | None => []
  end.

Definition limited {A : Type} (limit : option Z) (items : list A) : list A :=
  match limit with
  | Some l => if decide (l ≠ 0) then slice_to l items else items
  | None => items
  end.

(** Texts whose characters all satisfy a test. *)
Fixpoint all_chars (p : ascii → bool) (s : string) : bool :=
  match s with
  | EmptyString => true
  | String c r => (p c && all_chars p r)%bool
  end.

Definition lower_alnum (c : ascii) : bool := (PyStr.is_digit c || PyStr.is_lower c)%bool.

(** The characters of ASCII, the text on which the string primitives and
    the patterns above behave as Python's. *)
Definition is_ascii (c : ascii) : bool := Nat.ltb (PyStr.code c) 128.

(** The index positions of a numbered work list, in order. *)
Definition positions (work : list WorkItem) : list Z := (λ e, e.2.1) <$> work.

(** The text that the files of a directory carry as their parent, and the
    directories a run writes to. *)
Definition dir_of (dir : Path) : string :=
  PyPath.parent dir +:+ "/" +:+ PyPath.name dir.

Definition debug_dir (d : Dirs) : Path := PyPath.child (out_root d) "debug".

Definition folder_of (d : Dirs) (media_text : string) : Path :=
  if is_video_item media_text then vids d else imgs d.




(** ** Further concrete runs *)

(** An image announced with a file name ending in [.bin]. *)
Definition bin_reply : Response :=
  {| status_code := 200;
     headers := [("Content-Type", "application/octet-stream");
                 ("Content-Disposition", "attachment; filename=a.bin")];
     url := "https://example.test/final"; stream := Unread ["bytes"] false |}.

Definition png_reply : Response := reply 200 "image/png" ["png"].

(** A JPEG whose body breaks off after two chunks. *)
Definition broken_reply : Response :=
  {| status_code := 200; headers := [("Content-Type", "image/jpeg")];
     url := "https://example.test/final"; stream := Unread ["aa"; "bb"] true |}.

Definition env_broken : Env := plain_env (λ _ _ _, Resp broken_reply) (λ _, None) None.

(** Three attempts on a server that always answers 503, on a dead
    network, and the resolution of a JSON wrapper. *)
Definition run_503 : World * Result Response :=
  _request_with_fallback env_503_always false app_url 3 empty_world.

Definition run_offline : World * Result Response :=
  _request_with_fallback env_offline false app_url 3 empty_world.

Definition run_s3 : World * Result (Response * string) :=
  _resolve_media_response env_s3 false app_url empty_world.

(** A run over the third item of an index of three, answered with 404. *)
Definition run_404 : option (World * Counters) :=
  download_all env_404 export_root None (Some "3") (Some [7; 8]) three_items empty_world.

(** A conversion of a file on disk. *)
Definition run_tool_works : World * Result (option Path) :=
  _ensure_h264_mp4 env_tool_works mov_file (world_with mov_file "raw").

(** * Properties *)

(** ** Selection parsing *)

Section ParseIndices.

Lemma add_in_bounds_inv (max_n : Z) (sel : gset Z) (k : Z) :
  set_Forall (λ j, 1 ≤ j ∧ j ≤ max_n) sel →
  set_Forall (λ j, 1 ≤ j ∧ j ≤ max_n) (add_in_bounds max_n sel k).
Proof.
  intros Hsel. unfold add_in_bounds. case_decide as Hk; [|done].
  intros j [->%elem_of_singleton | Hj]%elem_of_union; [done | by apply Hsel].
Qed.

Lemma foldl_inv {A B : Type} (P : A → Prop) (f : A → B → A) (l : list B) (a : A) :
  (∀ x y, P x → P (f x y)) → P a → P (foldl f a l).
Proof.
  intros Hf. revert a. induction l as [|y l IH]; intros a Ha; simpl; [done|].
  apply IH, Hf, Ha.
Qed.

Lemma parse_part_inv (max_n : Z) (sel : gset Z) (part : string) :
  set_Forall (λ j, 1 ≤ j ∧ j ≤ max_n) sel →
  set_Forall (λ j, 1 ≤ j ∧ j ≤ max_n) (parse_part max_n sel part).
Proof.
  intros Hsel. unfold parse_part. destruct part as [|c part]; [done|].
  destruct (PyStr.has_char _ _).
  - destruct (PyStr.split_first _ _) as [sa sb].
    destruct (PyStr.int sa) as [a|]; [|done].
    destruct (PyStr.int sb) as [b|]; [|done].
    destruct (decide (a > b)); apply foldl_inv; auto using add_in_bounds_inv.
  - destruct (PyStr.int _); auto using add_in_bounds_inv.
Qed.

Lemma selected_in_bounds (text : string) (max_n : Z) :
  set_Forall (λ j, 1 ≤ j ∧ j ≤ max_n) (selected text max_n).
Proof.
  unfold selected. apply foldl_inv; [intros; by apply parse_part_inv|].
  intros j Hj. by apply not_elem_of_empty in Hj.
Qed.

Lemma le_sorted_nodup_lt (l : list Z) :
  StronglySorted Z.le l → NoDup l → StronglySorted Z.lt l.
Proof.
  induction 1 as [|x l Hl IH Hx]; intros Hnd; [constructor|].
  apply NoDup_cons in Hnd as [Hx' Hnd]. constructor; [by apply IH|].
  apply Forall_forall. intros y Hy.
  assert (x ≤ y) by (by eapply Forall_forall in Hx).
  assert (x ≠ y) by (intros ->; done). lia.
Qed.

Lemma sorted_perm (sel : gset Z) : sorted sel ≡ₚ elements sel.
Proof. apply merge_sort_Permutation. Qed.

Lemma sorted_ascending (sel : gset Z) : StronglySorted Z.lt (sorted sel).
Proof.
  apply le_sorted_nodup_lt.
  - unfold sorted. apply (StronglySorted_merge_sort Z.le).
  - rewrite sorted_perm. apply NoDup_elements.
Qed.

Lemma elem_of_sorted (sel : gset Z) (k : Z) : k ∈ sorted sel ↔ k ∈ sel.
Proof. by rewrite sorted_perm, elem_of_elements. Qed.

(** C7: the four documented selections evaluate as stated, and for every
    selection text and every bound the result is strictly ascending (hence
    sorted and free of duplicates) with all elements between 1 and the
    bound. *)
Theorem parse_indices_selection :
  _parse_indices "1,5-8" 10 = [1; 5; 6; 7; 8] ∧
  _parse_indices "3-1" 10 = [1; 2; 3] ∧
  _parse_indices "0,11" 10 = [] ∧
  _parse_indices "abc,2" 5 = [2] ∧
  ∀ (text : string) (max_n : Z),
    StronglySorted Z.lt (_parse_indices text max_n) ∧
    NoDup (_parse_indices text max_n) ∧
    Forall (λ k, 1 ≤ k ∧ k ≤ max_n) (_parse_indices text max_n).
Proof.
  split; [by vm_compute|]. split; [by vm_compute|].
  split; [by vm_compute|]. split; [by vm_compute|].
  intros text max_n. split; [apply sorted_ascending|]. split.
  - unfold _parse_indices. rewrite sorted_perm. apply NoDup_elements.
  - apply Forall_forall. intros k Hk%elem_of_sorted.
    by apply (selected_in_bounds text max_n).
Qed.

End ParseIndices.

(** ** Extension choice *)

Section Extension.

(** A table entry decides whatever the URL and the fallback are. *)
Lemma chosen_ext_png (nt : bool) (r : Response) (final_url fallback : string) :
  let ctype := PyStr.lower (header_get (headers r) "Content-Type" EmptyString) in
  PyStr.contains "image/jpeg" ctype = false →
  PyStr.contains "image/png" ctype = true →
  chosen_ext nt r final_url fallback = ".png".
Proof.
  intros ctype Hjpeg Hpng. unfold chosen_ext, _guess_ext_from_headers.
  fold ctype. by rewrite Hjpeg, Hpng.
Qed.

(** When neither the type nor the disposition decides, the fallback of
    the caller is the answer for every URL, as long as it is neither
    empty nor [.bin]; the two fallbacks of [download_all] are not. *)
Lemma chosen_ext_fallback_for_every_url (nt : bool) (r : Response)
    (final_url fallback : string) :
  _guess_ext_from_headers nt r fallback = fallback →
  fallback ≠ ".bin" → fallback ≠ EmptyString →
  chosen_ext nt r final_url fallback = fallback.
Proof.
  intros Hguess Hbin Hempty. unfold chosen_ext. rewrite Hguess.
  apply String.eqb_neq in Hbin, Hempty. by rewrite Hbin, Hempty.
Qed.

End Extension.

(** ** Requests with method fallback and retries *)

Section RequestWithFallback.

Context (E : Env).

Lemma sleeps_app (t1 t2 : list Event) : sleeps (t1 ++ t2) = sleeps t1 ++ sleeps t2.
Proof. apply omap_app. Qed.

Lemma network_app (t1 t2 : list Event) : network (t1 ++ t2) = network t1 ++ network t2.
Proof. apply omap_app. Qed.

Lemma log_if_requests log line w : requests (log_if log line w) = requests w.
Proof. by destruct log. Qed.

Lemma log_if_sleeps log line w : sleeps (trace (log_if log line w)) = sleeps (trace w).
Proof. destruct log; simpl; [|done]. by rewrite sleeps_app, app_nil_r. Qed.

Lemma log_if_network log line w : network (trace (log_if log line w)) = network (trace w).
Proof. destruct log; simpl; [|done]. by rewrite network_app, app_nil_r. Qed.

Lemma log_if_fs log line w : fs (log_if log line w) = fs w.
Proof. by destruct log. Qed.

Lemma log_if_polls log line w : polls (log_if log line w) = polls w.
Proof. by destruct log. Qed.

Lemma sent_requests m u w : requests (sent m u w) = S (requests w).
Proof. done. Qed.

Lemma sent_sleeps m u w : sleeps (trace (sent m u w)) = sleeps (trace w).
Proof. simpl. by rewrite sleeps_app, app_nil_r. Qed.

Lemma sent_network m u w : network (trace (sent m u w)) = network (trace w) ++ [(m, u)].
Proof. simpl. by rewrite network_app. Qed.

Lemma sent_fs m u w : fs (sent m u w) = fs w.
Proof. done. Qed.

Lemma sent_polls m u w : polls (sent m u w) = polls w.
Proof. done. Qed.

Lemma slept_requests log line a w : requests (slept log line a w) = requests w.
Proof. by destruct log. Qed.

Lemma slept_sleeps log line a w :
  sleeps (trace (slept log line a w)) = sleeps (trace w) ++ [backoff a].
Proof. unfold slept. simpl. by rewrite sleeps_app, log_if_sleeps. Qed.

Lemma slept_network log line a w : network (trace (slept log line a w)) = network (trace w).
Proof. unfold slept. simpl. by rewrite network_app, log_if_network, app_nil_r. Qed.

Lemma slept_fs log line a w : fs (slept log line a w) = fs w.
Proof. by destruct log. Qed.

Lemma slept_polls log line a w : polls (slept log line a w) = polls w.
Proof. by destruct log. Qed.

Lemma emit_requests e w : requests (emit e w) = requests w.
Proof. done. Qed.

Lemma emit_close_sleeps r w : sleeps (trace (emit (Close r) w)) = sleeps (trace w).
Proof. simpl. by rewrite sleeps_app, app_nil_r. Qed.

Lemma emit_close_network r w : network (trace (emit (Close r) w)) = network (trace w).
Proof. simpl. by rewrite network_app, app_nil_r. Qed.

(** The three ways an iteration that starts with a plain GET answer or a
    network error can go. *)
Lemma loop_get_return log u n a rest r0 le w r :
  env_net E (requests w) GET u = Resp r →
  method_fallback (status_code r) = false →
  retryable (status_code r) = false →
  attempts_loop E log u n (a :: rest) r0 le w = (sent GET u w, Ok r).
Proof.
  intros Hnet Hfb Hre. cbn [attempts_loop]. unfold attempt, session_request, classify.
  by rewrite Hnet, Hfb, Hre.
Qed.

Lemma loop_get_retry log u n a rest r0 le w r :
  env_net E (requests w) GET u = Resp r →
  method_fallback (status_code r) = false →
  retryable (status_code r) = true →
  attempts_loop E log u n (a :: rest) r0 le w =
  attempts_loop E log u n rest (Some r) le
    (slept log ("[RETRY] HTTP " +:+ pretty (status_code r) +:+ attempt_suffix u a n) a
       (sent GET u w)).
Proof.
  intros Hnet Hfb Hre. cbn [attempts_loop]. unfold attempt, session_request, classify.
  by rewrite Hnet, Hfb, Hre.
Qed.

Lemma loop_get_raise log u n a rest r0 le w msg :
  env_net E (requests w) GET u = Raise msg →
  attempts_loop E log u n (a :: rest) r0 le w =
  attempts_loop E log u n rest r0 (Some (RequestError msg))
    (slept log ("[RETRY] Error '" +:+ msg +:+ "'" +:+ attempt_suffix u a n) a
       (sent GET u w)).
Proof.
  intros Hnet. cbn [attempts_loop]. unfold attempt, session_request, on_exception.
  by rewrite Hnet.
Qed.

(** C1: with [attempts = 3], two 503 answers followed by a 200 give that
    one 200 response after sleeps of 1 and 2 seconds; 503 answers on all
    three attempts give the third 503 response back to the caller, not an
    exception, and no fourth request is made; a network error on every
    attempt propagates the last error.  Each sleep lasts
    [min(8, 2 ^ (attempt - 1))] seconds. *)
Theorem request_with_fallback_retry (log : bool) (u : string) (w : World)
    (r1 r2 r3 : Response) (m1 m2 m3 : string) :
  (env_net E (requests w) GET u = Resp r1 →
   env_net E (S (requests w)) GET u = Resp r2 →
   env_net E (S (S (requests w))) GET u = Resp r3 →
   status_code r1 = 503 → status_code r2 = 503 → status_code r3 = 200 →
   ∃ w', _request_with_fallback E log u 3 w = (w', Ok r3) ∧
         sleeps (trace w') = sleeps (trace w) ++ [backoff 1; backoff 2] ∧
         [backoff 1; backoff 2] = [1; 2] ∧
         network (trace w') = network (trace w) ++ [(GET, u); (GET, u); (GET, u)]) ∧
  (env_net E (requests w) GET u = Resp r1 →
   env_net E (S (requests w)) GET u = Resp r2 →
   env_net E (S (S (requests w))) GET u = Resp r3 →
   status_code r1 = 503 → status_code r2 = 503 → status_code r3 = 503 →
   ∃ w', _request_with_fallback E log u 3 w = (w', Ok r3) ∧
         sleeps (trace w') = sleeps (trace w) ++ [1; 2; 4] ∧
         requests w' = (requests w + 3)%nat) ∧
  (env_net E (requests w) GET u = Raise m1 →
   env_net E (S (requests w)) GET u = Raise m2 →
   env_net E (S (S (requests w))) GET u = Raise m3 →
   ∃ w', _request_with_fallback E log u 3 w = (w', Err (RequestError m3)) ∧
         sleeps (trace w') = sleeps (trace w) ++ [1; 2; 4] ∧
         requests w' = (requests w + 3)%nat).
Proof.
  unfold _request_with_fallback.
  change (attempt_numbers 3) with [1; 2; 3].
  split; [|split].
  - intros H1 H2 H3 S1 S2 S3. eexists. split; [|split; [|split]].
    + rewrite (loop_get_retry _ _ _ _ _ _ _ _ r1) by (by rewrite ?S1).
      rewrite (loop_get_retry _ _ _ _ _ _ _ _ r2) by ((repeat first
       [ rewrite slept_requests | rewrite sent_requests
       | rewrite slept_sleeps | rewrite sent_sleeps
       | rewrite slept_network | rewrite sent_network
       | rewrite <- app_assoc ]; simpl); by rewrite ?S2).
      rewrite (loop_get_return _ _ _ _ _ _ _ _ r3) by ((repeat first
       [ rewrite slept_requests | rewrite sent_requests
       | rewrite slept_sleeps | rewrite sent_sleeps
       | rewrite slept_network | rewrite sent_network
       | rewrite <- app_assoc ]; simpl); by rewrite ?S3).
      reflexivity.
    + by (repeat first
       [ rewrite slept_requests | rewrite sent_requests
       | rewrite slept_sleeps | rewrite sent_sleeps
       | rewrite slept_network | rewrite sent_network
       | rewrite <- app_assoc ]; simpl).
    + done.
    + by (repeat first
       [ rewrite slept_requests | rewrite sent_requests
       | rewrite slept_sleeps | rewrite sent_sleeps
       | rewrite slept_network | rewrite sent_network
       | rewrite <- app_assoc ]; simpl).
  - intros H1 H2 H3 S1 S2 S3. eexists. split; [|split].
    + rewrite (loop_get_retry _ _ _ _ _ _ _ _ r1) by (by rewrite ?S1).
      rewrite (loop_get_retry _ _ _ _ _ _ _ _ r2) by ((repeat first
       [ rewrite slept_requests | rewrite sent_requests
       | rewrite slept_sleeps | rewrite sent_sleeps
       | rewrite slept_network | rewrite sent_network
       | rewrite <- app_assoc ]; simpl); by rewrite ?S2).
      rewrite (loop_get_retry _ _ _ _ _ _ _ _ r3) by ((repeat first
       [ rewrite slept_requests | rewrite sent_requests
       | rewrite slept_sleeps | rewrite sent_sleeps
       | rewrite slept_network | rewrite sent_network
       | rewrite <- app_assoc ]; simpl); by rewrite ?S3).
      reflexivity.
    + by (repeat first
       [ rewrite slept_requests | rewrite sent_requests
       | rewrite slept_sleeps | rewrite sent_sleeps
       | rewrite slept_network | rewrite sent_network
       | rewrite <- app_assoc ]; simpl).
    + (repeat first
       [ rewrite slept_requests | rewrite sent_requests
       | rewrite slept_sleeps | rewrite sent_sleeps
       | rewrite slept_network | rewrite sent_network
       | rewrite <- app_assoc ]; simpl). lia.
  - intros H1 H2 H3. eexists. split; [|split].
    + rewrite (loop_get_raise _ _ _ _ _ _ _ _ m1) by done.
      rewrite (loop_get_raise _ _ _ _ _ _ _ _ m2) by (by (repeat first
       [ rewrite slept_requests | rewrite sent_requests
       | rewrite slept_sleeps | rewrite sent_sleeps
       | rewrite slept_network | rewrite sent_network
       | rewrite <- app_assoc ]; simpl)).
      rewrite (loop_get_raise _ _ _ _ _ _ _ _ m3) by (by (repeat first
       [ rewrite slept_requests | rewrite sent_requests
       | rewrite slept_sleeps | rewrite sent_sleeps
       | rewrite slept_network | rewrite sent_network
       | rewrite <- app_assoc ]; simpl)).
      reflexivity.
    + by (repeat first
       [ rewrite slept_requests | rewrite sent_requests
       | rewrite slept_sleeps | rewrite sent_sleeps
       | rewrite slept_network | rewrite sent_network
       | rewrite <- app_assoc ]; simpl).
    + (repeat first
       [ rewrite slept_requests | rewrite sent_requests
       | rewrite slept_sleeps | rewrite sent_sleeps
       | rewrite slept_network | rewrite sent_network
       | rewrite <- app_assoc ]; simpl). lia.
Qed.

(** C8: on every attempt, a GET answered with 403 or 405 is closed and the
    same URL is requested again with POST before anything else happens (no
    sleep, same attempt number); the POST answer then goes through the same
    status test as a GET answer: a retryable status sleeps and moves on to
    the next attempt, any other status is returned. *)
Theorem method_fallback_same_attempt (log : bool) (u : string) (attempts a : Z)
    (r0 : option Response) (last_exc : option Exn) (w : World) (r : Response) :
  env_net E (requests w) GET u = Resp r →
  status_code r = 403 ∨ status_code r = 405 →
  let w3 := sent POST u (emit (Close r) (sent GET u w)) in
  trace w3 = trace w ++ [Request GET u; Close r; Request POST u] ∧
  match env_net E (S (requests w)) POST u with
  | Resp r2 =>
      attempt E log u attempts a r0 last_exc w = classify log u a attempts last_exc r2 w3 ∧
      (retryable (status_code r2) = true →
       ∃ line, attempt E log u attempts a r0 last_exc w =
               (slept log line a w3, Next (Some r2) last_exc)) ∧
      (retryable (status_code r2) = false →
       attempt E log u attempts a r0 last_exc w = (w3, Return r2))
  | Raise msg =>
      attempt E log u attempts a r0 last_exc w =
      on_exception log u a attempts (Some r) (RequestError msg) w3
  end ∧
  ∀ (w0 : World) (r' : Response),
    env_net E (requests w0) GET u = Resp r' →
    method_fallback (status_code r') = false →
    attempt E log u attempts a r0 last_exc w0 =
    classify log u a attempts last_exc r' (sent GET u w0).
Proof.
  intros Hnet Hst w3.
  assert (method_fallback (status_code r) = true) as Hfb.
  { unfold method_fallback. apply bool_decide_eq_true. lia. }
  split; [|split].
  - subst w3. simpl. by rewrite <- !app_assoc.
  - assert (attempt E log u attempts a r0 last_exc w =
            match env_net E (S (requests w)) POST u with
            | Resp r2 => classify log u a attempts last_exc r2 w3
            | Raise msg => on_exception log u a attempts (Some r) (RequestError msg) w3
            end) as Hattempt.
    { unfold attempt, session_request. rewrite Hnet, Hfb. simpl.
      by destruct (env_net E (S (requests w)) POST u). }
    destruct (env_net E (S (requests w)) POST u) as [r2|msg]; [|done].
    split; [done|]. rewrite Hattempt. unfold classify. split; intros ->; [|done].
    by eexists.
  - intros w0 r' Hnet' Hfb'. unfold attempt, session_request.
    by rewrite Hnet', Hfb'.
Qed.

(** *** Totality over the [attempts] parameter *)

Lemma classify_flow log u a attempts last_exc r w w' fl :
  classify log u a attempts last_exc r w = (w', fl) →
  (requests w' = requests w ∧ ∃ t, trace w' = trace w ++ t) ∧
  (fl = Return r ∨ fl = Next (Some r) last_exc).
Proof.
  unfold classify. destruct (retryable _); intros [= <- <-].
  - split; [|by right]. split; [apply slept_requests|].
    destruct log; simpl; rewrite <- ?app_assoc; by eexists.
  - split; [|by left]. split; [done|]. exists []. by rewrite app_nil_r.
Qed.

Lemma on_exception_flow log u a attempts r e w w' fl :
  on_exception log u a attempts r e w = (w', fl) →
  (requests w' = requests w ∧ ∃ t, trace w' = trace w ++ t) ∧ fl = Next r (Some e).
Proof.
  unfold on_exception. intros [= <- <-]. split; [|done].
  split; [apply slept_requests|].
  destruct log; simpl; rewrite <- ?app_assoc; by eexists.
Qed.

(** Every iteration sends a GET first, and leaves the loop by [return] or
    with bindings that are settled whenever they were, or whenever this
    was the first iteration. *)
Lemma attempt_flow log u attempts a r0 last_exc w w' fl :
  attempt E log u attempts a r0 last_exc w = (w', fl) →
  (requests w < requests w')%nat ∧
  (∃ t, trace w' = trace w ++ Request GET u :: t) ∧
  ((∃ r, fl = Return r) ∨
   (∃ r' le', fl = Next r' le' ∧
      (settled r' le' ∨ (∃ e, last_exc = Some e ∧ le' = Some e)))).
Proof.
  unfold attempt, session_request.
  destruct (env_net E (requests w) GET u) as [r|msg].
  - destruct (method_fallback (status_code r)).
    + cbn [emit requests polls fs trace].
      destruct (env_net E (S (requests w)) POST u) as [r2|msg].
      * intros [[Hreq [t Ht]] Hfl]%classify_flow. simpl in *.
        split; [lia|]. split.
        { rewrite Ht, <- !app_assoc. by eexists. }
        destruct Hfl as [->| ->]; [left; by eexists|].
        right. do 2 eexists. split; [done|].
        destruct last_exc as [e|]; [right; by eexists|left; by eexists].
      * intros [[Hreq [t Ht]] ->]%on_exception_flow. simpl in *.
        split; [lia|]. split.
        { rewrite Ht, <- !app_assoc. by eexists. }
        right. do 2 eexists. split; [done|]. left. by eexists.
    + intros [[Hreq [t Ht]] Hfl]%classify_flow. simpl in *.
      split; [lia|]. split.
      { rewrite Ht, <- !app_assoc. by eexists. }
      destruct Hfl as [->| ->]; [left; by eexists|].
      right. do 2 eexists. split; [done|].
      destruct last_exc as [e|]; [right; by eexists|left; by eexists].
  - intros [[Hreq [t Ht]] ->]%on_exception_flow. simpl in *.
    split; [lia|]. split.
    { rewrite Ht, <- !app_assoc. by eexists. }
    right. do 2 eexists. split; [done|]. left. by eexists.
Qed.

Lemma attempts_loop_settled log u attempts todo r0 last_exc w w' res :
  settled r0 last_exc →
  attempts_loop E log u attempts todo r0 last_exc w = (w', res) →
  proper res ∧ (requests w ≤ requests w')%nat ∧ ∃ t, trace w' = trace w ++ t.
Proof.
  revert r0 last_exc w. induction todo as [|a todo IH]; intros r0 last_exc w Hs.
  - simpl. destruct last_exc as [e|].
    + destruct Hs as [msg ->]. intros [= <- <-].
      split; [right; by eexists|]. split; [done|]. exists []. by rewrite app_nil_r.
    + destruct Hs as [r ->]. intros [= <- <-].
      split; [left; by eexists|]. split; [done|]. exists []. by rewrite app_nil_r.
  - cbn [attempts_loop].
    destruct (attempt E log u attempts a r0 last_exc w) as [w1 fl] eqn:Hatt.
    apply attempt_flow in Hatt as (Hreq & [t Ht] & Hfl).
    destruct fl as [r|r' le'].
    + intros [= <- <-]. split; [left; by eexists|]. split; [lia|]. by eexists.
    + intros Hloop. apply IH in Hloop as (Hres & Hreq' & [t' Ht']).
      * split; [done|]. split; [lia|]. rewrite Ht', Ht, <- app_assoc. by eexists.
      * destruct Hfl as [[r Hr]|(r1 & le1 & [= <- <-] & [Hs'|(e & -> & ->)])];
          [done|done|exact Hs].
Qed.

Lemma attempt_numbers_first (attempts : Z) :
  ∃ rest, attempt_numbers attempts = 1 :: rest.
Proof.
  unfold attempt_numbers.
  replace (Z.max 1 attempts) with (Z.succ (Z.max 1 attempts - 1)) by lia.
  rewrite seqZ_cons by lia. by eexists.
Qed.

(** C10: for every integer [attempts], positive or not, the loop runs at
    least once (the count is [max(1, attempts)], and a non-positive value
    behaves as exactly one attempt), so at least one GET is sent and the
    function yields a response or re-raises a network error: it never
    reaches [return r] with [r] unbound. *)
Theorem request_with_fallback_total (log : bool) (u : string) (attempts : Z) (w : World) :
  length (attempt_numbers attempts) = Z.to_nat (Z.max 1 attempts) ∧
  (1 ≤ length (attempt_numbers attempts))%nat ∧
  (attempts ≤ 0 → attempt_numbers attempts = [1]) ∧
  ∃ w' res,
    _request_with_fallback E log u attempts w = (w', res) ∧
    proper res ∧ res ≠ Err UnboundLocalError ∧
    (requests w < requests w')%nat ∧
    ∃ t, trace w' = trace w ++ Request GET u :: t.
Proof.
  split; [apply length_seqZ|].
  split; [unfold attempt_numbers; rewrite length_seqZ; lia|].
  split.
  { intros Hle. unfold attempt_numbers. by replace (Z.max 1 attempts) with 1 by lia. }
  destruct (_request_with_fallback E log u attempts w) as [w' res] eqn:Hrun.
  exists w', res. split; [done|].
  unfold _request_with_fallback in Hrun.
  destruct (attempt_numbers_first attempts) as [rest Hrest].
  rewrite Hrest in Hrun. cbn [attempts_loop] in Hrun.
  destruct (attempt E log u attempts 1 None None w) as [w1 fl] eqn:Hatt.
  apply attempt_flow in Hatt as (Hreq & [t Ht] & Hfl).
  assert (proper res ∧ (requests w < requests w')%nat ∧
          ∃ t, trace w' = trace w ++ Request GET u :: t) as (Hp & Hr & Htr).
  { destruct fl as [r|r' le'].
    - injection Hrun as <- <-. split; [left; by eexists|]. split; [done|]. by eexists.
    - apply attempts_loop_settled in Hrun as (Hres & Hreq' & [t' Ht']).
      + split; [done|]. split; [lia|]. rewrite Ht', Ht, <- app_assoc. by eexists.
      + destruct Hfl as [[r Hr]|(r1 & le1 & [= <- <-] & [Hs'|(e & He & _)])]; done. }
  split; [done|]. split; [|done].
  destruct Hp as [[r ->]|[msg ->]]; done.
Qed.

End RequestWithFallback.

(** ** Resolution through one indirection hop *)

Section Resolve.

Context (E : Env).

(** Each iteration sends one or two requests. *)
Lemma attempt_requests log u attempts a r0 last_exc w w' fl :
  attempt E log u attempts a r0 last_exc w = (w', fl) →
  (requests w' ≤ requests w + 2)%nat.
Proof.
  unfold attempt, session_request, classify, on_exception.
  destruct (env_net E (requests w) GET u) as [r|msg].
  - destruct (method_fallback (status_code r)).
    + cbn [emit requests polls fs trace].
      destruct (env_net E (S (requests w)) POST u) as [r2|msg].
      * destruct (retryable (status_code r2)); intros [= <- <-];
          rewrite ?emit_requests, ?log_if_requests; simpl; lia.
      * intros [= <- <-]. rewrite ?emit_requests, ?log_if_requests. simpl. lia.
    + destruct (retryable (status_code r)); intros [= <- <-];
        rewrite ?emit_requests, ?log_if_requests; simpl; lia.
  - intros [= <- <-]. rewrite ?emit_requests, ?log_if_requests. simpl. lia.
Qed.

Lemma attempts_loop_requests log u attempts todo r0 last_exc w w' res :
  attempts_loop E log u attempts todo r0 last_exc w = (w', res) →
  (requests w' ≤ requests w + 2 * length todo)%nat.
Proof.
  revert r0 last_exc w. induction todo as [|a todo IH]; intros r0 last_exc w.
  - simpl. destruct last_exc; [|destruct r0]; intros [= <- <-]; lia.
  - cbn [attempts_loop].
    destruct (attempt E log u attempts a r0 last_exc w) as [w1 fl] eqn:Hatt.
    apply attempt_requests in Hatt.
    destruct fl as [r|r' le'].
    + intros [= <- <-]. simpl. lia.
    + intros Hloop%IH. simpl. lia.
Qed.

Lemma request_with_fallback_3_requests log u w w' res :
  _request_with_fallback E log u 3 w = (w', res) →
  (requests w' ≤ requests w + 6)%nat.
Proof.
  unfold _request_with_fallback. intros H%attempts_loop_requests.
  change (length (attempt_numbers 3)) with 3%nat in H. lia.
Qed.

Lemma first_truthy_found (o : list (string * Json)) (before after : list string)
    (k : string) (v : Json) :
  Forall (skipped o) before →
  dict_get o k = Some v →
  truthy v = true →
  first_truthy E o (before ++ k :: after) = Some (py_str E v).
Proof.
  intros Hb Hk Hv. induction Hb as [|k' before Hk' _ IH]; simpl.
  - by rewrite Hk, Hv.
  - unfold skipped in Hk'. destruct (dict_get o k') as [v'|]; [by rewrite Hk'|done].
Qed.

Lemma nonempty_true (s : string) : s ≠ EmptyString → Re.nonempty s = true.
Proof. by destruct s. Qed.

(** The result of [_resolve_media_response] once the first request has
    answered: the first response itself (possibly with its body read), or
    the outcome of exactly one further [_request_with_fallback]. *)
Lemma resolve_cases (log : bool) (u : string) (w w1 : World) (r : Response) :
  _request_with_fallback E log u 3 w = (w1, Ok r) →
  (∃ r', _resolve_media_response E log u w = (w1, Ok (r', url r)) ∧
         status_code r' = status_code r ∧ headers r' = headers r) ∨
  (∃ target w3 res2,
      _request_with_fallback E log target 3 (emit (Close (read_for_parsing r).2) w1)
        = (w3, res2) ∧
      _resolve_media_response E log u w =
        (w3, match res2 with Ok r2 => Ok (r2, target) | Err e => Err e end)).
Proof.
  intros Hfirst. unfold _resolve_media_response. rewrite Hfirst.
  destruct (terminal_status _); [left; by eexists|].
  destruct (_looks_like_media_contenttype _); [left; by eexists|].
  destruct (read_for_parsing r) as [text r'] eqn:Hread.
  assert (url r' = url r ∧ status_code r' = status_code r ∧ headers r' = headers r)
    as (Hu & Hs & Hh).
  { unfold read_for_parsing in Hread.
    destruct (iter_content _ _) as [[chunks raises]|]; [|by injection Hread as <- <-].
    destruct (read_chunks _ _) as [content [rest|]]; by injection Hread as <- <-. }
  destruct (truthy_url _).
  - right. simpl.
    destruct (_request_with_fallback E log _ 3 (emit (Close r') w1)) as [w3 [r2|e]] eqn:H2;
      by do 3 eexists.
  - left. exists r'. by rewrite Hu.
Qed.

(** C2 (amended): a first response with status 400 or more, other than
    403 and 405, is returned unchanged with no further request.  For a
    first response that is not terminal and not media, when the body read
    for parsing is a JSON object, the first of the keys [url],
    [signedUrl], [download_url], [mediaUrl] whose value is truthy decides:
    keys that are absent or carry an empty or otherwise false value are
    passed over, and when that value is a non-empty string, the first
    response is closed, a second request goes to exactly that string and
    it is returned as the final URL.  In every case at most one such
    second request sequence follows the first. *)
Theorem resolve_follows_one_hop (log : bool) (u : string) (w w1 : World) (r : Response) :
  _request_with_fallback E log u 3 w = (w1, Ok r) →
  (terminal_status (status_code r) = true →
   _resolve_media_response E log u w = (w1, Ok (r, url r))) ∧
  (∀ (o : list (string * Json)) (before after : list string) (k s : string),
     terminal_status (status_code r) = false →
     _looks_like_media_contenttype (header_get (headers r) "Content-Type" EmptyString) = false →
     env_json_loads E (read_for_parsing r).1 = Some (JObj o) →
     indirection_keys = before ++ k :: after →
     Forall (skipped o) before →
     dict_get o k = Some (JStr s) →
     s ≠ EmptyString →
     ∃ w3 res2,
       _request_with_fallback E log s 3 (emit (Close (read_for_parsing r).2) w1) = (w3, res2) ∧
       _resolve_media_response E log u w =
         (w3, match res2 with Ok r2 => Ok (r2, s) | Err e => Err e end)) ∧
  (∃ w' res,
     _resolve_media_response E log u w = (w', res) ∧
     (requests w' ≤ requests w + 12)%nat ∧
     ((w' = w1 ∧ ∃ r', res = Ok (r', url r) ∧
                        status_code r' = status_code r ∧ headers r' = headers r) ∨
      (∃ target res2,
         _request_with_fallback E log target 3 (emit (Close (read_for_parsing r).2) w1)
           = (w', res2) ∧
         res = match res2 with Ok r2 => Ok (r2, target) | Err e => Err e end))).
Proof.
  intros Hfirst. split; [|split].
  - intros Hterm. unfold _resolve_media_response. by rewrite Hfirst, Hterm.
  - intros o before after k s Hterm Hmedia Hjson Hkeys Hskip Hk Hs.
    unfold _resolve_media_response. rewrite Hfirst, Hterm, Hmedia.
    destruct (read_for_parsing r) as [text r'] eqn:Hread. simpl in *.
    assert (find_indirection E text = Some s) as Hfind.
    { unfold find_indirection, json_url. rewrite Hjson, Hkeys.
      rewrite (first_truthy_found o before after k (JStr s)) by
        (try done; by apply nonempty_true).
      simpl. by rewrite nonempty_true. }
    rewrite Hfind. simpl. rewrite nonempty_true by done.
    destruct (_request_with_fallback E log s 3 (emit (Close r') w1)) as [w3 [r2|e]] eqn:H2;
      by do 2 eexists.
  - pose proof (request_with_fallback_3_requests _ _ _ _ _ Hfirst) as Hreq.
    destruct (resolve_cases log u w w1 r Hfirst)
      as [(r' & Hres & Hst & Hh)|(target & w3 & res2 & H2 & Hres)].
    + exists w1, (Ok (r', url r)). split; [done|]. split; [lia|].
      left. split; [done|]. by exists r'.
    + eexists w3, _. split; [exact Hres|].
      apply request_with_fallback_3_requests in H2 as Hreq2. simpl in Hreq2.
      split; [lia|]. right. by exists target, res2.
Qed.

End Resolve.

(** ** Path arithmetic behind the temporary file name *)

Section PathFacts.

Import PyStr PyPath.

Lemma append_cons (c : ascii) (a b : string) : String c a +:+ b = String c (a +:+ b).
Proof. done. Qed.

Lemma append_nil (b : string) : EmptyString +:+ b = b.
Proof. done. Qed.

Lemma append_assoc (a b c : string) : (a +:+ b) +:+ c = a +:+ (b +:+ c).
Proof.
  induction a as [|x a IH]; [done|]. rewrite !append_cons. f_equal. apply IH.
Qed.

Lemma append_empty_r (a : string) : a +:+ EmptyString = a.
Proof. induction a as [|x a IH]; [done|]. rewrite append_cons. f_equal. apply IH. Qed.

Lemma take_drop (n : nat) (s : string) : Re.take n s +:+ Re.drop n s = s.
Proof.
  revert s. induction n as [|n IH]; intros [|c s]; simpl; try done.
  rewrite append_cons. f_equal. apply IH.
Qed.

Lemma length_drop (n : nat) (s : string) :
  String.length (Re.drop n s) = (String.length s - n)%nat.
Proof. revert s. induction n as [|n IH]; intros [|c s]; simpl; auto; lia. Qed.

Lemma take_app_length (b x : string) : Re.take (String.length b) (b +:+ x) = b.
Proof.
  induction b as [|c b IH]; [by destruct x|].
  rewrite append_cons. simpl. f_equal. apply IH.
Qed.

Lemma length_app (a b : string) :
  String.length (a +:+ b) = (String.length a + String.length b)%nat.
Proof.
  induction a as [|c a IH]; [done|].
  rewrite append_cons. simpl. f_equal. apply IH.
Qed.

Lemma eqb_char_refl (c : ascii) : eqb_char c c = true.
Proof. apply Ascii.eqb_refl. Qed.

Lemma eqb_char_eq (c d : ascii) : eqb_char c d = true → c = d.
Proof. apply Ascii.eqb_eq. Qed.

Lemma rfind_from_absent (c : ascii) (k : Z) (s : string) :
  has_char c s = false → rfind_from c k s = -1.
Proof.
  revert k. induction s as [|d s IH]; intros k; simpl; [done|].
  intros [Hd Hs]%orb_false_elim. rewrite IH by done. by rewrite Hd.
Qed.

(** A successful [rfind] points at an occurrence of the character. *)
Lemma rfind_from_points (c : ascii) (s : string) (k i : Z) :
  rfind_from c k s = i → i ≠ -1 →
  k ≤ i ∧ ∃ t, Re.drop (Z.to_nat (i - k)) s = String c t.
Proof.
  revert k. induction s as [|d s IH]; intros k; simpl; [congruence|].
  case_decide as Hlater.
  - intros Hi _. destruct (IH (k + 1) Hi) as [Hle [t Ht]]; [congruence|].
    split; [lia|]. exists t.
    replace (Z.to_nat (i - k)) with (S (Z.to_nat (i - (k + 1)))) by lia. done.
  - destruct (eqb_char c d) eqn:Hcd; [|congruence].
    intros <- _. split; [lia|]. apply eqb_char_eq in Hcd as ->.
    replace (k - k) with 0 by lia. by eexists.
Qed.

(** The last occurrence, when the text ends with [c] followed by text
    free of [c]. *)
Lemma rfind_from_app_last (c : ascii) (b t : string) (k : Z) :
  0 ≤ k → has_char c t = false →
  rfind_from c k (b +:+ String c t) = k + len b.
Proof.
  intros Hk Ht. revert k Hk. induction b as [|d b IH]; intros k Hk.
  - rewrite append_nil. simpl. rewrite rfind_from_absent by done.
    rewrite eqb_char_refl. case_decide; [done|]. unfold len. simpl. lia.
  - rewrite append_cons. cbn [rfind_from]. rewrite IH by lia.
    unfold len. cbn [String.length]. case_decide; lia.
Qed.

(** A suffix is empty or starts with a dot; the name is stem plus suffix. *)
Lemma suffix_shape (p : Path) :
  suffix p = EmptyString ∨ ∃ t, suffix p = String "." t.
Proof.
  unfold suffix. case_decide as Hi; [|by left]. right.
  destruct (rfind_from_points "." (name p) 0 (rfind "." (name p))) as [_ [t Ht]];
    [done|lia|].
  exists t. unfold from. by rewrite Z.sub_0_r in Ht.
Qed.

Lemma stem_suffix (p : Path) : name p = stem p +:+ suffix p.
Proof.
  unfold stem, suffix. case_decide.
  - unfold upto, from. by rewrite take_drop.
  - clear. induction (name p) as [|c s IH]; [done|].
    rewrite append_cons. by rewrite <- IH.
Qed.

Lemma stem_nonempty (p : Path) : name p ≠ EmptyString → stem p ≠ EmptyString.
Proof.
  unfold stem. case_decide as Hi; [|done]. intros _.
  unfold upto. destruct (name p) as [|c s]; [unfold len in Hi; simpl in Hi; lia|].
  destruct (Z.to_nat (rfind "." (String c s))) eqn:Hn; [lia|done].
Qed.

(** [with_suffix(.mp4)] keeps the stem. *)
Lemma with_suffix_mp4 (nt : bool) (p : Path) :
  name p ≠ EmptyString →
  with_suffix nt p ".mp4" =
  Some {| parent := parent p; name := stem p +:+ ".mp4" |}.
Proof.
  intros Hname. unfold with_suffix.
  replace (has_char "/" ".mp4" || nt && has_char "\" ".mp4")%bool with false
    by (by destruct nt).
  cbn [Re.nonempty startswith eqb_char negb andb orb].
  change (String.eqb ".mp4" ".") with false. cbn [orb].
  rewrite (nonempty_true _ Hname). cbn [negb].
  do 2 f_equal. unfold stem, suffix. case_decide as Hi.
  - assert (Re.nonempty (from (rfind "." (name p)) (name p)) = true) as ->.
    { apply nonempty_true. intros Hempty.
      assert (String.length (from (rfind "." (name p)) (name p)) = 0%nat) as Hl
        by (by rewrite Hempty).
      unfold from in Hl. rewrite length_drop in Hl. unfold len in Hi. lia. }
    f_equal. unfold upto, from, len. f_equal. rewrite length_drop.
    unfold len in Hi. lia.
  - done.
Qed.

Lemma stem_of_mp4 (dir b : string) :
  b ≠ EmptyString →
  stem {| parent := dir; name := b +:+ ".mp4" |} = b.
Proof.
  intros Hb. unfold stem. cbn [name].
  assert (rfind "." (b +:+ ".mp4") = len b) as Hr.
  { unfold rfind. rewrite (rfind_from_app_last "." b "mp4" 0) by done. lia. }
  rewrite Hr. case_decide as Hi.
  - unfold upto, len. rewrite Nat2Z.id. apply take_app_length.
  - exfalso. apply Hi. unfold len. rewrite length_app. simpl.
    destruct b; [done|]. simpl. lia.
Qed.

Lemma append_inj_l (a x y : string) : a +:+ x = a +:+ y → x = y.
Proof.
  induction a as [|c a IH]; [done|]. rewrite !append_cons. intros [= H]. by apply IH.
Qed.

(** The temporary file is a sibling distinct from the source and from the
    final path. *)
Lemma temp_sibling_fresh (nt : bool) (src final_path : Path) :
  name src ≠ EmptyString →
  with_suffix nt src ".mp4" = Some final_path →
  temp_sibling final_path ≠ src ∧
  temp_sibling final_path ≠ final_path ∧
  parent (temp_sibling final_path) = parent src ∧
  name final_path = stem src +:+ ".mp4" ∧
  name (temp_sibling final_path) = stem src +:+ "_tmpconv.mp4".
Proof.
  intros Hname Hws. rewrite with_suffix_mp4 in Hws by done.
  injection Hws as <-.
  assert (stem {| parent := parent src; name := stem src +:+ ".mp4" |} = stem src)
    as Hstem by (apply stem_of_mp4; by apply stem_nonempty).
  unfold temp_sibling. rewrite Hstem. cbn [parent name].
  split; [|split; [|done]].
  - intros Heq. apply (f_equal name) in Heq. cbn [name] in Heq.
    rewrite (stem_suffix src) in Heq. apply append_inj_l in Heq.
    destruct (suffix_shape src) as [Hs|[t Hs]]; rewrite Hs in Heq; done.
  - intros Heq. apply (f_equal name) in Heq. cbn [name] in Heq.
    by apply append_inj_l in Heq.
Qed.

(** A path produced by [with_suffix] has a name. *)
Lemma with_suffix_named (nt : bool) (p q : Path) (suf : string) :
  with_suffix nt p suf = Some q → name q ≠ EmptyString.
Proof.
  unfold with_suffix.
  destruct (has_char "/" suf || nt && has_char "\" suf)%bool; [done|].
  destruct (Re.nonempty suf && negb (startswith "." suf) || String.eqb suf ".")%bool;
    [done|].
  destruct (name p) as [|c s] eqn:Hname; [done|]. cbn [Re.nonempty negb].
  intros [= <-]. cbn [name].
  destruct (Re.nonempty (suffix p)) eqn:Hold; [|done].
  unfold suffix in *. rewrite Hname in *. case_decide as Hi; [|done].
  unfold upto, from, len. rewrite length_drop.
  unfold len in Hi. clear Hold Hname.
  generalize dependent (rfind "." (String c s)). intros i Hi.
  cbn [String.length] in *.
  destruct (Z.to_nat (Z.of_nat (S (String.length s)) -
                      Z.of_nat (S (String.length s) - Z.to_nat i))) as [|n] eqn:Hn;
    [lia|].
  cbn [Re.take]. by rewrite append_cons.
Qed.

End PathFacts.

(** ** The transcoder's temporary file and swap *)

Section Transcoder.

Context (E : Env).

Import PyPath.

Lemma unlink_if_exists_fs (p : Path) (w : World) :
  fs (unlink_if_exists p w) = delete p (fs w).
Proof.
  unfold unlink_if_exists, file_exists. case_bool_decide as Hp; [done|].
  symmetry. apply delete_id. by apply eq_None_not_Some.
Qed.

Lemma unlink_if_exists_trace (p : Path) (w : World) :
  trace (unlink_if_exists p w) = trace w ++ unlink_event (file_exists p w) p.
Proof.
  unfold unlink_if_exists, unlink_event. destruct (file_exists p w); [done|].
  by rewrite app_nil_r.
Qed.

Lemma unlink_if_exists_requests (p : Path) (w : World) :
  requests (unlink_if_exists p w) = requests w.
Proof. unfold unlink_if_exists. by destruct (file_exists p w). Qed.

Lemma unlink_if_exists_polls (p : Path) (w : World) :
  polls (unlink_if_exists p w) = polls w.
Proof. unfold unlink_if_exists. by destruct (file_exists p w). Qed.

Lemma file_exists_Some (p : Path) (w : World) (content : string) :
  fs w !! p = Some content → file_exists p w = true.
Proof. intros H. unfold file_exists. apply bool_decide_eq_true. by rewrite H. Qed.

Lemma file_exists_None (p : Path) (w : World) :
  fs w !! p = None → file_exists p w = false.
Proof.
  intros H. unfold file_exists. apply bool_decide_eq_false. rewrite H.
  by intros [? ?].
Qed.

(** The conversion step, run on an existing source with the tool present. *)
Lemma convert_run (src dst : Path) (content : string) (w : World) :
  env_ffmpeg E = true → env_ffprobe E = true →
  fs w !! src = Some content →
  let copy := is_h264 (PyStr.lower (env_probe E content)) in
  _convert_to_h264_mp4 E src dst true w =
  match env_run E copy content with
  | FfDone output =>
      (set_fs (<[dst := output]> (fs w)) (emit (Ffmpeg copy src dst) w), true)
  | FfFailed (Some partial) =>
      (set_fs (<[dst := partial]> (fs w)) (emit (Ffmpeg copy src dst) w), false)
  | FfFailed None => (emit (Ffmpeg copy src dst) w, false)
  end.
Proof.
  intros Hff Hpr Hsrc copy. unfold _convert_to_h264_mp4, _video_codec.
  rewrite Hff, Hpr, Hsrc. done.
Qed.

(** The tool is missing: nothing happens. *)
Lemma ensure_unavailable (src : Path) (w : World) :
  _has_ffmpeg E = false → _ensure_h264_mp4 E src w = (w, Ok None).
Proof. intros H. unfold _ensure_h264_mp4. by rewrite H. Qed.

(** The conversion fails: the temporary file is gone and nothing else
    has changed. *)
Lemma ensure_failed (src : Path) (content : string) (w : World) (partial : option string) :
  name src ≠ EmptyString → _has_ffmpeg E = true →
  fs w !! src = Some content →
  env_run E (is_h264 (PyStr.lower (env_probe E content))) content = FfFailed partial →
  ∃ final_path w',
    with_suffix (env_nt E) src ".mp4" = Some final_path ∧
    _ensure_h264_mp4 E src w = (w', Ok None) ∧
    fs w' = delete (temp_sibling final_path) (fs w) ∧
    requests w' = requests w ∧ polls w' = polls w ∧
    trace w' = trace w
      ++ unlink_event (file_exists (temp_sibling final_path) w) (temp_sibling final_path)
      ++ [Ffmpeg (is_h264 (PyStr.lower (env_probe E content))) src (temp_sibling final_path)]
      ++ unlink_event (bool_decide (is_Some partial)) (temp_sibling final_path).
Proof.
  intros Hname Hhas Hsrc Hrun.
  destruct (with_suffix (env_nt E) src ".mp4") as [final_path|] eqn:Hws;
    [|by rewrite with_suffix_mp4 in Hws].
  destruct (temp_sibling_fresh _ _ _ Hname Hws) as (Hts & Htf & _).
  set (temp := temp_sibling final_path) in *.
  apply andb_true_iff in Hhas as Hboth. destruct Hboth as [Hff Hpr].
  assert (fs (unlink_if_exists temp w) !! src = Some content) as Hsrc1.
  { rewrite unlink_if_exists_fs, lookup_delete_ne; done. }
  unfold _ensure_h264_mp4. rewrite Hhas, Hws. cbn [negb]. fold temp.
  rewrite (convert_run src temp content _ Hff Hpr Hsrc1). cbn zeta. rewrite Hrun.
  destruct partial as [part|]; cbn [negb]; eexists final_path, _; (split; [done|]).
  - split; [reflexivity|].
    rewrite unlink_if_exists_fs, unlink_if_exists_trace, unlink_if_exists_requests,
      unlink_if_exists_polls.
    cbn [set_fs emit fs trace requests polls].
    rewrite unlink_if_exists_fs, unlink_if_exists_trace, unlink_if_exists_requests,
      unlink_if_exists_polls.
    split; [by rewrite delete_insert_eq, delete_delete_eq|].
    split; [done|]. split; [done|].
    match goal with |- context [file_exists temp (set_fs ?m ?w0)] =>
      rewrite (file_exists_Some temp (set_fs m w0) part) by apply lookup_insert_eq end.
    subst temp. cbn. by rewrite <- !app_assoc.
  - split; [reflexivity|].
    rewrite unlink_if_exists_fs, unlink_if_exists_trace, unlink_if_exists_requests,
      unlink_if_exists_polls.
    cbn [set_fs emit fs trace requests polls].
    rewrite unlink_if_exists_fs, unlink_if_exists_trace, unlink_if_exists_requests,
      unlink_if_exists_polls.
    split; [by rewrite delete_delete_eq|].
    split; [done|]. split; [done|].
    match goal with |- context [file_exists temp (emit ?e ?w0)] =>
      rewrite (file_exists_None temp (emit e w0))
        by (cbn; rewrite unlink_if_exists_fs; apply lookup_delete_eq) end.
    subst temp. cbn. by rewrite <- !app_assoc, app_nil_r.
Qed.

(** The conversion succeeds: the converted file is moved to the final
    path, and the source is removed unless it is the final path itself. *)
Lemma ensure_converted (src : Path) (content output : string) (w : World) :
  name src ≠ EmptyString → _has_ffmpeg E = true →
  fs w !! src = Some content →
  env_run E (is_h264 (PyStr.lower (env_probe E content))) content = FfDone output →
  ∃ final_path w',
    with_suffix (env_nt E) src ".mp4" = Some final_path ∧
    _ensure_h264_mp4 E src w = (w', Ok (Some final_path)) ∧
    fs w' = (if decide (src = final_path) then id else delete src)
              (<[final_path := output]> (delete (temp_sibling final_path) (fs w))) ∧
    requests w' = requests w ∧ polls w' = polls w ∧
    trace w' = trace w
      ++ unlink_event (file_exists (temp_sibling final_path) w) (temp_sibling final_path)
      ++ [Ffmpeg (is_h264 (PyStr.lower (env_probe E content))) src (temp_sibling final_path)]
      ++ unlink_event (file_exists final_path w) final_path
      ++ [Replace (temp_sibling final_path) final_path]
      ++ (if decide (src = final_path) then [] else [Unlink src]).
Proof.
  intros Hname Hhas Hsrc Hrun.
  destruct (with_suffix (env_nt E) src ".mp4") as [final_path|] eqn:Hws;
    [|by rewrite with_suffix_mp4 in Hws].
  destruct (temp_sibling_fresh _ _ _ Hname Hws) as (Hts & Htf & _).
  set (temp := temp_sibling final_path) in *.
  set (copy := is_h264 (PyStr.lower (env_probe E content))) in *.
  apply andb_true_iff in Hhas as Hboth. destruct Hboth as [Hff Hpr].
  set (w1 := unlink_if_exists temp w).
  assert (fs w1 !! src = Some content) as Hsrc1.
  { subst w1. rewrite unlink_if_exists_fs, lookup_delete_ne; done. }
  set (w2 := set_fs (<[temp := output]> (fs w1)) (emit (Ffmpeg copy src temp) w1)).
  set (w3 := unlink_if_exists final_path w2).
  assert (fs w3 = delete final_path (<[temp := output]> (delete temp (fs w)))) as Hfs3.
  { subst w3 w2 w1. rewrite unlink_if_exists_fs. cbn. by rewrite unlink_if_exists_fs. }
  assert (fs w3 !! temp = Some output) as Htemp3.
  { rewrite Hfs3, lookup_delete_ne, lookup_insert_eq; done. }
  set (m4 := <[final_path := output]> (delete temp (fs w3))).
  set (w4 := emit (Replace temp final_path) (set_fs m4 w3)).
  assert (m4 = <[final_path := output]> (delete temp (fs w))) as Hm4.
  { subst m4. rewrite Hfs3. apply map_eq. intros p.
    destruct (decide (p = final_path)) as [->|Hpf];
      [by rewrite !lookup_insert_eq|].
    rewrite !(lookup_insert_ne _ final_path) by done.
    destruct (decide (p = temp)) as [->|Hpt]; [by rewrite !lookup_delete_eq|].
    by rewrite !lookup_delete_ne, lookup_insert_ne, lookup_delete_ne. }
  assert (file_exists final_path w2 = file_exists final_path w) as Hfe.
  { unfold file_exists. subst w2 w1. cbn. rewrite unlink_if_exists_fs.
    by rewrite lookup_insert_ne, lookup_delete_ne. }
  assert (_ensure_h264_mp4 E src w =
          (if (file_exists src w4 && negb (bool_decide (src = final_path)))%bool
           then unlink src w4 else w4, Ok (Some final_path))) as Hrun'.
  { unfold _ensure_h264_mp4. rewrite Hhas, Hws. cbn [negb]. fold temp w1.
    rewrite (convert_run src temp content w1 Hff Hpr Hsrc1). cbn zeta. fold copy.
    rewrite Hrun. cbn [negb]. fold w2.
    unfold swap_into_place. fold w3. unfold replace. by rewrite Htemp3. }
  assert (trace w4 = trace w ++ unlink_event (file_exists temp w) temp
                       ++ [Ffmpeg copy src temp]
                       ++ unlink_event (file_exists final_path w) final_path
                       ++ [Replace temp final_path]) as Htr4.
  { subst w4 w3. cbn. rewrite unlink_if_exists_trace, Hfe. subst w2 w1. cbn.
    rewrite unlink_if_exists_trace. by rewrite <- !app_assoc. }
  assert (requests w4 = requests w ∧ polls w4 = polls w) as [Hrq4 Hpl4].
  { subst w4 w3. cbn. rewrite unlink_if_exists_requests, unlink_if_exists_polls.
    subst w2 w1. cbn. by rewrite unlink_if_exists_requests, unlink_if_exists_polls. }
  assert (fs w4 = <[final_path := output]> (delete temp (fs w))) as Hfs4
    by (by rewrite <- Hm4).
  clearbody w4. subst temp.
  exists final_path. eexists. split; [done|]. split; [exact Hrun'|].
  destruct (decide (src = final_path)) as [Heq|Hne].
  - rewrite bool_decide_eq_true_2 by done. rewrite andb_false_r.
    split; [done|]. split; [done|]. split; [done|].
    rewrite Htr4. by rewrite app_nil_r.
  - rewrite bool_decide_eq_false_2 by done.
    rewrite (file_exists_Some src w4 content)
      by (rewrite Hfs4, lookup_insert_ne, lookup_delete_ne; done).
    unfold unlink. cbn [andb negb emit set_fs fs trace requests polls].
    split; [by rewrite Hfs4|]. split; [done|]. split; [done|].
    rewrite Htr4. by rewrite <- !app_assoc.
Qed.

(** C3 (amended): [_ensure_h264_mp4] converts into a temporary sibling
    named after the stem with [_tmpconv.mp4], which differs from the source
    and from the final path, so the tool never reads and writes one path.
    On success the temporary file is moved to [stem.mp4], a file already at
    that path being deleted first, and no temporary file remains; a source
    with another name than the final path is deleted only after that move,
    as the last step, whereas a source that already is [stem.mp4] is itself
    the file deleted just before the move.  On failure of the tool the
    temporary file is removed, the source keeps its contents, no file is
    created and nothing else changes. *)
Theorem ensure_h264_mp4_safe (src : Path) (content : string) (w : World) :
  name src ≠ EmptyString →
  _has_ffmpeg E = true →
  fs w !! src = Some content →
  ∃ final_path,
    with_suffix (env_nt E) src ".mp4" = Some final_path ∧
    name final_path = stem src +:+ ".mp4" ∧
    let temp := temp_sibling final_path in
    let copy := is_h264 (PyStr.lower (env_probe E content)) in
    let pre := unlink_event (file_exists temp w) temp ++ [Ffmpeg copy src temp] in
    temp ≠ src ∧ temp ≠ final_path ∧ parent temp = parent src ∧
    name temp = stem src +:+ "_tmpconv.mp4" ∧
    ∃ w' res,
      _ensure_h264_mp4 E src w = (w', Ok res) ∧
      fs w' !! temp = None ∧
      match env_run E copy content with
      | FfDone output =>
          res = Some final_path ∧
          fs w' !! final_path = Some output ∧
          (src ≠ final_path → fs w' !! src = None) ∧
          (∀ p, p ≠ final_path → p ≠ temp → p ≠ src → fs w' !! p = fs w !! p) ∧
          (src = final_path → file_exists final_path w = true) ∧
          trace w' = trace w ++ pre
            ++ unlink_event (file_exists final_path w) final_path
            ++ [Replace temp final_path]
            ++ (if decide (src = final_path) then [] else [Unlink src])
      | FfFailed partial =>
          res = None ∧
          fs w' !! src = Some content ∧
          (∀ p, p ≠ temp → fs w' !! p = fs w !! p) ∧
          (∀ p, fs w !! p = None → fs w' !! p = None) ∧
          trace w' = trace w ++ pre ++ unlink_event (bool_decide (is_Some partial)) temp
      end.
Proof.
  intros Hname Hhas Hsrc.
  destruct (with_suffix (env_nt E) src ".mp4") as [final_path|] eqn:Hws;
    [|by rewrite with_suffix_mp4 in Hws].
  destruct (temp_sibling_fresh _ _ _ Hname Hws) as (Hts & Htf & Hpar & Hfin & Htmp).
  exists final_path. split; [done|]. split; [done|]. cbn zeta.
  split; [done|]. split; [done|]. split; [done|]. split; [done|].
  destruct (env_run E (is_h264 (PyStr.lower (env_probe E content))) content)
    as [output|partial] eqn:Hrun.
  - destruct (ensure_converted src content output w Hname Hhas Hsrc Hrun)
      as (fp & w' & Hws' & Hres & Hfs & _ & _ & Htr).
    assert (fp = final_path) as -> by congruence.
    exists w', (Some final_path). split; [done|].
    split.
    { rewrite Hfs. destruct (decide (src = final_path)); cbn.
      - rewrite lookup_insert_ne, lookup_delete_eq; done.
      - rewrite lookup_delete_ne, lookup_insert_ne, lookup_delete_eq; done. }
    split; [done|]. split.
    { rewrite Hfs. destruct (decide (src = final_path)); cbn.
      - apply lookup_insert_eq.
      - rewrite lookup_delete_ne, lookup_insert_eq; done. }
    split.
    { intros Hne. rewrite Hfs. destruct (decide (src = final_path)); [done|].
      apply lookup_delete_eq. }
    split.
    { intros p Hpf Hpt Hps. rewrite Hfs. destruct (decide (src = final_path)); cbn.
      - rewrite lookup_insert_ne, lookup_delete_ne; done.
      - rewrite lookup_delete_ne, lookup_insert_ne, lookup_delete_ne; done. }
    split.
    { intros <-. by apply (file_exists_Some src w content). }
    rewrite Htr. by rewrite <- !app_assoc.
  - destruct (ensure_failed src content w partial Hname Hhas Hsrc Hrun)
      as (fp & w' & Hws' & Hres & Hfs & _ & _ & Htr).
    assert (fp = final_path) as -> by congruence.
    exists w', None. split; [done|].
    split; [rewrite Hfs; apply lookup_delete_eq|].
    split; [done|].
    split; [rewrite Hfs, lookup_delete_ne; done|].
    split; [intros p Hp; rewrite Hfs, lookup_delete_ne; done|].
    split.
    { intros p Hp. rewrite Hfs. destruct (decide (p = temp_sibling final_path)) as [->|Hne].
      - apply lookup_delete_eq.
      - by rewrite lookup_delete_ne. }
    rewrite Htr. by rewrite <- !app_assoc.
Qed.

End Transcoder.

(** ** The orchestrator *)

Section Orchestrator.

Context (E : Env) (d : Dirs).

Import PyPath.

(** *** Network code neither touches files nor reads the flag *)

Lemma same_disk_refl w : same_disk w w.
Proof. done. Qed.

Lemma same_disk_trans w1 w2 w3 : same_disk w1 w2 → same_disk w2 w3 → same_disk w1 w3.
Proof. intros [? ?] [? ?]. split; congruence. Qed.

Lemma classify_same_disk log u a attempts last_exc r w w' fl :
  classify log u a attempts last_exc r w = (w', fl) → same_disk w w'.
Proof.
  unfold classify. destruct (retryable _); intros [= <- <-]; [|done].
  split; cbn; [apply log_if_fs|apply log_if_polls].
Qed.

Lemma on_exception_same_disk log u a attempts r e w w' fl :
  on_exception log u a attempts r e w = (w', fl) → same_disk w w'.
Proof.
  unfold on_exception. intros [= <- <-].
  split; cbn; [apply log_if_fs|apply log_if_polls].
Qed.

Lemma attempt_same_disk log u attempts a r0 last_exc w w' fl :
  attempt E log u attempts a r0 last_exc w = (w', fl) → same_disk w w'.
Proof.
  unfold attempt, session_request.
  destruct (env_net E (requests w) GET u) as [r|msg].
  - destruct (method_fallback (status_code r)).
    + cbn [emit requests polls fs trace].
      destruct (env_net E (S (requests w)) POST u) as [r2|msg].
      * intros H%classify_same_disk. exact H.
      * intros H%on_exception_same_disk. exact H.
    + intros H%classify_same_disk. exact H.
  - intros H%on_exception_same_disk. exact H.
Qed.

Lemma attempts_loop_same_disk log u attempts todo r0 last_exc w w' res :
  attempts_loop E log u attempts todo r0 last_exc w = (w', res) → same_disk w w'.
Proof.
  revert r0 last_exc w. induction todo as [|a todo IH]; intros r0 last_exc w.
  - simpl. destruct last_exc; [|destruct r0]; by intros [= <- <-].
  - cbn [attempts_loop].
    destruct (attempt E log u attempts a r0 last_exc w) as [w1 fl] eqn:Hatt.
    apply attempt_same_disk in Hatt. destruct fl as [r|r' le'].
    + by intros [= <- <-].
    + intros Hloop%IH. by eapply same_disk_trans.
Qed.

Lemma resolve_same_disk log u w w' res :
  _resolve_media_response E log u w = (w', res) → same_disk w w'.
Proof.
  unfold _resolve_media_response.
  destruct (_request_with_fallback E log u 3 w) as [w1 [r|e]] eqn:H1;
    apply attempts_loop_same_disk in H1; [|by intros [= <- <-]].
  destruct (terminal_status _); [by intros [= <- <-]|].
  destruct (_looks_like_media_contenttype _); [by intros [= <- <-]|].
  destruct (read_for_parsing r) as [text r'].
  destruct (truthy_url _); [|by intros [= <- <-]].
  destruct (_request_with_fallback E log _ 3 (emit (Close r') w1)) as [w3 [r2|e]] eqn:H2;
    apply attempts_loop_same_disk in H2; intros [= <- <-];
    (eapply same_disk_trans; [exact H1|exact H2]).
Qed.

(** *** Streaming the body to disk *)

Lemma is_set_world w : (is_set E w).1 =
  {| requests := requests w; polls := S (polls w); fs := fs w; trace := trace w |}.
Proof. done. Qed.

Lemma is_set_before (n : nat) w :
  env_stop_at E = Some n → (polls w < n)%nat → (is_set E w).2 = false.
Proof.
  intros Hn Hlt. unfold is_set. rewrite Hn. cbn. apply bool_decide_eq_false. lia.
Qed.

Lemma is_set_after (n : nat) w :
  env_stop_at E = Some n → (n ≤ polls w)%nat → (is_set E w).2 = true.
Proof.
  intros Hn Hle. unfold is_set. rewrite Hn. cbn. by apply bool_decide_eq_true.
Qed.

Lemma append_file_other dest chunk w p :
  p ≠ dest → fs (append_file dest chunk w) !! p = fs w !! p.
Proof. intros Hp. unfold append_file. cbn. by rewrite lookup_insert_ne. Qed.

(** Streaming sends nothing and writes to the destination only. *)
Lemma write_chunks_frame dest chunks raises w w' exn :
  write_chunks E dest chunks raises w = (w', exn) →
  requests w' = requests w ∧ (∀ p, p ≠ dest → fs w' !! p = fs w !! p).
Proof.
  revert w. induction chunks as [|chunk rest IH]; intros w.
  - cbn. by intros [= <- <-].
  - cbn [write_chunks]. unfold is_set.
    destruct (match env_stop_at E with Some n => bool_decide (n ≤ polls w)%nat
              | None => false end).
    + intros [= <- <-]. split.
      * by rewrite unlink_if_exists_requests.
      * intros p Hp. rewrite unlink_if_exists_fs. cbn. by rewrite lookup_delete_ne.
    + intros [Hreq Hfs]%IH. split.
      * rewrite Hreq. by destruct (Re.nonempty chunk).
      * intros p Hp. rewrite Hfs by done.
        destruct (Re.nonempty chunk); [by rewrite append_file_other|done].
Qed.

(** The flag becomes set before the chunks run out: the partial file is
    removed and the block is left with [Stopped by user]. *)
Lemma write_chunks_cancelled (n : nat) dest chunks raises w :
  env_stop_at E = Some n →
  (0 < length chunks)%nat →
  (n < polls w + length chunks)%nat →
  ∃ w', write_chunks E dest chunks raises w = (w', Some (RuntimeError "Stopped by user")) ∧
        fs w' !! dest = None ∧ (n < polls w')%nat.
Proof.
  intros Hn. revert w. induction chunks as [|chunk rest IH]; intros w Hpos Hlt.
  - simpl in Hpos. lia.
  - cbn [write_chunks]. unfold is_set. rewrite Hn.
    case_bool_decide as Hset.
    + eexists. split; [reflexivity|]. split.
      * rewrite unlink_if_exists_fs. apply lookup_delete_eq.
      * rewrite unlink_if_exists_polls. cbn. lia.
    + apply IH; destruct (Re.nonempty chunk); cbn; simpl in Hlt; lia.
Qed.

(** All chunks were written: the file holds what it held, followed by
    the body. *)
Lemma write_chunks_completed dest chunks raises w w' content :
  write_chunks E dest chunks raises w = (w', None) →
  fs w !! dest = Some content →
  fs w' !! dest = Some (content +:+ concat_chunks chunks).
Proof.
  revert w content. induction chunks as [|chunk rest IH]; intros w content.
  - cbn. destruct raises; [done|]. intros [= <-] ->. by rewrite append_empty_r.
  - cbn [write_chunks]. unfold is_set.
    destruct (match env_stop_at E with Some n => bool_decide (n ≤ polls w)%nat
              | None => false end); [done|].
    intros Hrest Hdest. cbn [concat_chunks foldr]. fold (concat_chunks rest).
    rewrite <- append_assoc.
    destruct chunk as [|c chunk].
    + rewrite append_empty_r. eapply IH; [exact Hrest|done].
    + eapply IH; [exact Hrest|]. unfold append_file. cbn.
      by rewrite lookup_insert_eq, Hdest.
Qed.

(** Once the flag reads as set, the loop processes nothing more. *)
Lemma run_items_stopped (n : nat) rest c w :
  env_stop_at E = Some n → (n ≤ polls w)%nat →
  ∃ w', run_items E d rest c w = (w', c) ∧ fs w' = fs w ∧ requests w' = requests w.
Proof.
  intros Hn Hle. destruct rest as [|[i [idx [u media_text]]] rest].
  - by exists w.
  - cbn [run_items]. unfold is_set. rewrite Hn.
    rewrite bool_decide_eq_true_2 by done. by eexists.
Qed.

(** An item whose resolution gave a media response without error status
    goes on to stream that response to its destination. *)
Lemma process_item_streams i idx u media_text ok0 w w1 r final_url dest :
  _resolve_media_response E false u w = (w1, Ok (r, final_url)) →
  error_status (status_code r) = false →
  _looks_like_media_contenttype
    (PyStr.lower (header_get (headers r) "Content-Type" EmptyString)) = true →
  final_dest E d idx media_text r final_url = Some dest →
  process_item E d i idx u media_text ok0 w =
  match save_stream E dest r w1 with
  | (w3, Some e) => (w3, ok0, Some e)
  | (w3, None) =>
      let w4 := emit (Log ("[OK] #" +:+ pretty idx +:+ " -> " +:+ name dest)) w3 in
      if is_video_item media_text then
        let '(w5, exn) := normalize_video E dest w4 in (w5, ok0 + 1, exn)
      else (w4, ok0 + 1, None)
  end.
Proof.
  intros Hres Hst Hmedia Hdest. unfold process_item.
  rewrite Hres, Hst. cbn [andb]. rewrite Hmedia. cbn [negb]. by rewrite Hdest.
Qed.

(** C4: when the flag is not set as an item starts but becomes set while
    its body is streamed, before one of its chunks is written, the partial
    destination file is deleted, the item is counted as failed and its
    position appended to the caller's list, no later item is processed
    (no further request is sent, the counters stay), and every other file,
    in particular those of the items completed before, is left as it
    was. *)
Theorem cancel_mid_stream (n : nat) (i idx : Z) (u media_text : string)
    (rest : list WorkItem) (c : Counters) (w0 w1 : World) (r : Response)
    (final_url : string) (dest : Path) (chunks : list string) (raises : bool) :
  env_stop_at E = Some n →
  (polls w0 < n)%nat →
  _resolve_media_response E false u (is_set E w0).1 = (w1, Ok (r, final_url)) →
  error_status (status_code r) = false →
  _looks_like_media_contenttype
    (PyStr.lower (header_get (headers r) "Content-Type" EmptyString)) = true →
  final_dest E d idx media_text r final_url = Some dest →
  iter_content (1024 * 256) (stream r) = Some (chunks, raises) →
  (n ≤ polls w0 + length chunks)%nat →
  ∃ w' c',
    run_items E d ((i, (idx, (u, media_text))) :: rest) c w0 = (w', c') ∧
    fs w' !! dest = None ∧
    (∀ p, p ≠ dest → fs w' !! p = fs w0 !! p) ∧
    ok c' = ok c ∧
    fail c' = fail c + 1 ∧
    failed_out c' = (λ l, l ++ [idx]) <$> failed_out c ∧
    requests w' = requests w1.
Proof.
  intros Hn Hstart Hres Hst Hmedia Hdest Hiter Hcancel.
  pose proof (resolve_same_disk _ _ _ _ _ Hres) as [Hfs1 Hpolls1].
  cbn in Hfs1, Hpolls1.
  destruct (write_chunks_cancelled n dest chunks raises
              (write_file dest EmptyString w1) Hn) as (w3 & Hwrite & Hgone & Hpolls3).
  { lia. }
  { cbn. lia. }
  pose proof (write_chunks_frame _ _ _ _ _ _ Hwrite) as [Hreq3 Hframe3].
  assert (process_item E d i idx u media_text (ok c) (is_set E w0).1 =
          (w3, ok c, Some (RuntimeError "Stopped by user"))) as Hitem.
  { rewrite (process_item_streams _ _ _ _ _ _ _ _ _ _ Hres Hst Hmedia Hdest).
    unfold save_stream. by rewrite Hiter, Hwrite. }
  set (c1 := {| ok := ok c; fail := fail c + 1;
                failed_out := (λ l, l ++ [idx]) <$> failed_out c |}).
  set (w4 := emit (Progress i)
               (emit (Log ("[FAIL] #" +:+ pretty idx +:+ " " +:+ u +:+ " -> "
                           +:+ str_exn (RuntimeError "Stopped by user"))) w3)).
  destruct (run_items_stopped n rest c1 w4 Hn) as (w' & Hrest & Hfs' & Hreq').
  { subst w4. cbn. lia. }
  exists w', c1. split.
  - cbn [run_items].
    rewrite (surjective_pairing (is_set E w0)), (is_set_before n) by done.
    rewrite Hitem. cbn [record_failure ok fail failed_out]. exact Hrest.
  - split; [by rewrite Hfs'|]. split.
    + intros p Hp. rewrite Hfs'. subst w4. cbn [emit fs].
      rewrite Hframe3 by done. cbn. by rewrite lookup_insert_ne, Hfs1.
    + repeat split; try done. rewrite Hreq'. subst w4. cbn. by rewrite Hreq3.
Qed.

(** *** Numbering of the work list *)

Lemma enumerate1_lookup {A : Type} (xs : list A) (k : nat) (i : Z) (x : A) :
  enumerate1 xs !! k = Some (i, x) ↔ i = Z.of_nat k + 1 ∧ xs !! k = Some x.
Proof.
  unfold enumerate1. rewrite lookup_zip_with_Some. split.
  - intros (i' & x' & [= -> ->] & [-> _]%lookup_seqZ & Hx). split; [lia|done].
  - intros [-> Hx]. exists (Z.of_nat k + 1), x. split; [done|]. split; [|done].
    apply lookup_seqZ. split; [lia|]. apply lookup_lt_Some in Hx. lia.
Qed.



(** *** Transcoder outcomes *)

Lemma final_dest_named idx media_text r final_url dest :
  final_dest E d idx media_text r final_url = Some dest → name dest ≠ EmptyString.
Proof.
  unfold final_dest. destruct (negb _).
  - apply with_suffix_named.
  - intros [= <-]. unfold initial_dest. by destruct (is_video_item media_text).
Qed.

(** A completed download leaves the body in the destination file. *)
Lemma save_stream_completed dest r w w3 chunks raises :
  iter_content (1024 * 256) (stream r) = Some (chunks, raises) →
  save_stream E dest r w = (w3, None) →
  fs w3 !! dest = Some (concat_chunks chunks).
Proof.
  intros Hiter. unfold save_stream. rewrite Hiter. intros Hwrite.
  apply (write_chunks_completed _ _ _ _ _ EmptyString) in Hwrite; [done|].
  cbn. apply lookup_insert_eq.
Qed.

(** C9: for a video item whose body was streamed to disk completely, when
    the tool is missing, or is present but fails on the file, the
    downloaded file keeps its contents, the step ends with one
    informational or warning log line, no exception leaves the item, the
    success count grows by one and neither the failure count nor the list
    of failed positions changes. *)
Theorem transcoder_outcome_keeps_success (i idx : Z) (u media_text : string)
    (rest : list WorkItem) (c : Counters) (w0 w1 w3 : World) (r : Response)
    (final_url : string) (dest : Path) (chunks : list string) (raises : bool) :
  is_video_item media_text = true →
  (is_set E w0).2 = false →
  _resolve_media_response E false u (is_set E w0).1 = (w1, Ok (r, final_url)) →
  error_status (status_code r) = false →
  _looks_like_media_contenttype
    (PyStr.lower (header_get (headers r) "Content-Type" EmptyString)) = true →
  final_dest E d idx media_text r final_url = Some dest →
  iter_content (1024 * 256) (stream r) = Some (chunks, raises) →
  save_stream E dest r w1 = (w3, None) →
  (_has_ffmpeg E = false ∨
   (_has_ffmpeg E = true ∧
    ∃ partial,
      env_run E (is_h264 (PyStr.lower (env_probe E (concat_chunks chunks))))
        (concat_chunks chunks) = FfFailed partial)) →
  ∃ w5 line t,
    process_item E d i idx u media_text (ok c) (is_set E w0).1 = (w5, ok c + 1, None) ∧
    fs w5 !! dest = Some (concat_chunks chunks) ∧
    trace w5 = trace w3 ++ t ++ [Log line] ∧
    (line = "[INFO] ffmpeg not found; cannot guarantee H.264 only." ∨
     line = "[WARN] ffmpeg failed to create H.264 for " +:+ name dest
            +:+ "; keeping original.") ∧
    run_items E d ((i, (idx, (u, media_text))) :: rest) c w0 =
    run_items E d rest
      {| ok := ok c + 1; fail := fail c; failed_out := failed_out c |}
      (emit (Progress i) w5).
Proof.
  intros Hvideo Hstart Hres Hst Hmedia Hdest Hiter Hsave Htool.
  pose proof (save_stream_completed _ _ _ _ _ _ Hiter Hsave) as Hbody.
  pose proof (process_item_streams i idx u media_text (ok c) _ _ _ _ _
                Hres Hst Hmedia Hdest) as Hitem.
  rewrite Hsave, Hvideo in Hitem. cbn zeta in Hitem.
  set (w4 := emit (Log ("[OK] #" +:+ pretty idx +:+ " -> " +:+ name dest)) w3) in *.
  assert (∃ w5 line t,
            normalize_video E dest w4 = (w5, None) ∧
            fs w5 !! dest = Some (concat_chunks chunks) ∧
            trace w5 = trace w3 ++ t ++ [Log line] ∧
            (line = "[INFO] ffmpeg not found; cannot guarantee H.264 only." ∨
             line = "[WARN] ffmpeg failed to create H.264 for " +:+ name dest
                    +:+ "; keeping original.")) as (w5 & line & t & Hnorm & Hkept & Htr & Hline).
  { unfold normalize_video. destruct Htool as [Hnone|[Hhas [partial Hrun]]].
    - rewrite ensure_unavailable by done. rewrite Hnone. cbn [negb].
      eexists _, _, [_]. split; [reflexivity|]. split; [done|].
      split; [|by left]. subst w4. cbn. by rewrite <- !app_assoc.
    - destruct (ensure_failed E dest (concat_chunks chunks) w4 partial)
        as (fp & w' & Hws & Hens & Hfs & _ & _ & Htr); try done.
      { by eapply final_dest_named. }
      rewrite Hens, Hhas. cbn [negb].
      destruct (temp_sibling_fresh (env_nt E) dest fp) as (Hts & _); [|done|].
      { by eapply final_dest_named. }
      eexists _, _,
        ([Log ("[OK] #" +:+ pretty idx +:+ " -> " +:+ name dest)]
         ++ unlink_event (file_exists (temp_sibling fp) w4) (temp_sibling fp)
         ++ [Ffmpeg (is_h264 (PyStr.lower (env_probe E (concat_chunks chunks))))
               dest (temp_sibling fp)]
         ++ unlink_event (bool_decide (is_Some partial)) (temp_sibling fp)).
      split; [reflexivity|]. split.
      { cbn [emit fs]. rewrite Hfs, lookup_delete_ne; done. }
      split; [|by right]. cbn [emit trace]. rewrite Htr. subst w4. cbn [emit trace].
      by rewrite <- !app_assoc. }
  rewrite Hnorm in Hitem. exists w5, line, t.
  split; [done|]. split; [done|]. split; [done|]. split; [done|].
  cbn [run_items]. rewrite (surjective_pairing (is_set E w0)), Hstart, Hitem. done.
Qed.

End Orchestrator.

(** ** Concrete runs *)

Section Runs.

Import PyPath.

(** Retries: the three scenarios on scripted networks. *)
Lemma request_with_fallback_retry_witness :
  (∃ w', _request_with_fallback env_503_503_200 false app_url 3 empty_world
           = (w', Ok (reply 200 "image/png" ["png"])) ∧
         sleeps (trace w') = [1; 2] ∧
         network (trace w') = [(GET, app_url); (GET, app_url); (GET, app_url)]) ∧
  (∃ w', _request_with_fallback env_503_always false app_url 3 empty_world
           = (w', Ok (reply 503 "text/html" [])) ∧
         sleeps (trace w') = [1; 2; 4] ∧ requests w' = 3%nat) ∧
  (∃ w', _request_with_fallback env_offline false app_url 3 empty_world
           = (w', Err (RequestError "connection refused")) ∧
         sleeps (trace w') = [1; 2; 4] ∧ requests w' = 3%nat).
Proof.
  split; [|split].
  - destruct (proj1 (request_with_fallback_retry env_503_503_200 false app_url empty_world
                       (reply 503 "text/html" []) (reply 503 "text/html" [])
                       (reply 200 "image/png" ["png"]) "" "" "")
                eq_refl eq_refl eq_refl eq_refl eq_refl eq_refl)
      as (w' & Hrun & Hsleeps & _ & Hnet).
    exists w'. split; [exact Hrun|]. split; [exact Hsleeps|exact Hnet].
  - destruct (proj1 (proj2 (request_with_fallback_retry env_503_always false app_url
                       empty_world (reply 503 "text/html" []) (reply 503 "text/html" [])
                       (reply 503 "text/html" []) "" "" ""))
                eq_refl eq_refl eq_refl eq_refl eq_refl eq_refl)
      as (w' & Hrun & Hsleeps & Hreq).
    exists w'. split; [exact Hrun|]. split; [exact Hsleeps|exact Hreq].
  - destruct (proj2 (proj2 (request_with_fallback_retry env_offline false app_url
                       empty_world (reply 503 "text/html" []) (reply 503 "text/html" [])
                       (reply 503 "text/html" []) "connection refused"
                       "connection refused" "connection refused"))
                eq_refl eq_refl eq_refl)
      as (w' & Hrun & Hsleeps & Hreq).
    exists w'. split; [exact Hrun|]. split; [exact Hsleeps|exact Hreq].
Defined.

(** Method fallback: a GET refused with 403 is closed and followed by a
    POST to the same address, whose 200 answer is returned. *)
Lemma method_fallback_same_attempt_witness :
  status_code (reply 403 "text/html" []) = 403 ∧
  attempt env_post_only false app_url 3 1 None None empty_world =
  (sent POST app_url (emit (Close (reply 403 "text/html" [])) (sent GET app_url empty_world)),
   Return (reply 200 "image/png" ["png"])).
Proof.
  split; [reflexivity|].
  pose proof (method_fallback_same_attempt env_post_only false app_url 3 1 None None
                empty_world (reply 403 "text/html" []) eq_refl (or_introl eq_refl))
    as (_ & Hpost & _).
  cbn in Hpost. destruct Hpost as (_ & _ & Hret). exact (Hret eq_refl).
Defined.

(** Non-positive [attempts]: one attempt is made. *)
Lemma request_with_fallback_total_witness :
  -2 ≤ 0 ∧ attempt_numbers (-2) = [1].
Proof.
  split; [lia|].
  apply (proj1 (proj2 (proj2 (request_with_fallback_total env_offline false app_url (-2)
                                empty_world)))).
  lia.
Defined.

(** Indirection: the wrapper names the media address under [url]; a
    second request goes there and it is the final URL. *)
Lemma resolve_follows_one_hop_witness :
  dict_get [("url", JStr s3_url)] "url" = Some (JStr s3_url) ∧
  ∃ w3 res2,
    _request_with_fallback env_s3 false s3_url 3
      (emit (Close (read_for_parsing (reply 200 "application/json" [s3_body])).2)
         (sent GET app_url empty_world)) = (w3, res2) ∧
    _resolve_media_response env_s3 false app_url empty_world =
      (w3, match res2 with Ok r2 => Ok (r2, s3_url) | Err e => Err e end).
Proof.
  split; [reflexivity|].
  apply (proj1 (proj2 (resolve_follows_one_hop env_s3 false app_url empty_world
                         (sent GET app_url empty_world)
                         (reply 200 "application/json" [s3_body]) eq_refl))
           [("url", JStr s3_url)] [] ["signedUrl"; "download_url"; "mediaUrl"] "url" s3_url).
  - reflexivity.
  - reflexivity.
  - vm_compute. reflexivity.
  - reflexivity.
  - constructor.
  - reflexivity.
  - discriminate.
Defined.

(** C2, as stated, fails: in this wrapper the first key present in
    priority order is [url] and its value is a string, the empty one; the
    code passes over it, sends the second request to the value of
    [signedUrl] and returns that as the final URL. *)
Lemma resolve_passes_over_empty_url :
  env_json_loads env_wrapper wrapper_body = Some wrapper_json ∧
  indirection_keys = "url" :: ["signedUrl"; "download_url"; "mediaUrl"] ∧
  (∃ o, wrapper_json = JObj o ∧ dict_get o "url" = Some (JStr EmptyString)) ∧
  ∃ w' r2,
    _resolve_media_response env_wrapper false app_url empty_world
      = (w', Ok (r2, "https://cdn.test/x.mp4")) ∧
    "https://cdn.test/x.mp4" ≠ EmptyString ∧
    network (trace w') = [(GET, app_url); (GET, "https://cdn.test/x.mp4")].
Proof.
  split; [by vm_compute|]. split; [reflexivity|].
  split; [by eexists|].
  eexists _, _. split; [vm_compute; reflexivity|]. split; [discriminate|].
  vm_compute. reflexivity.
Qed.

(** Transcoding a [.mov] file: the source is deleted after the move. *)
Lemma ensure_h264_mp4_safe_witness :
  name mov_file ≠ EmptyString ∧
  _has_ffmpeg env_tool_works = true ∧
  fs (world_with mov_file "raw") !! mov_file = Some "raw" ∧
  ∃ final_path,
    with_suffix false mov_file ".mp4" = Some final_path ∧
    name final_path = "memory_2.mp4" ∧
    temp_sibling final_path ≠ mov_file ∧
    ∃ w', _ensure_h264_mp4 env_tool_works mov_file (world_with mov_file "raw")
            = (w', Ok (Some final_path)) ∧
          fs w' !! temp_sibling final_path = None ∧
          fs w' !! final_path = Some "h264-bytes" ∧
          fs w' !! mov_file = None ∧
          trace w' = [Ffmpeg false mov_file (temp_sibling final_path);
                      Replace (temp_sibling final_path) final_path;
                      Unlink mov_file].
Proof.
  assert (name mov_file ≠ EmptyString) as Hname by discriminate.
  assert (fs (world_with mov_file "raw") !! mov_file = Some "raw") as Hfile
    by (vm_compute; reflexivity).
  split; [exact Hname|]. split; [reflexivity|]. split; [exact Hfile|].
  destruct (ensure_h264_mp4_safe env_tool_works mov_file "raw" (world_with mov_file "raw")
              Hname eq_refl Hfile)
    as (final_path & Hws & Hfin & Hts & _ & _ & _ & w' & res & Hrun & Htemp & Hdone).
  cbn in Hdone. destruct Hdone as (-> & Hout & Hsrc & _ & _ & Htrace).
  assert (Some final_path = Some (child videos_dir "memory_2.mp4")) as [= ->]
    by (rewrite <- Hws; vm_compute; reflexivity).
  exists (child videos_dir "memory_2.mp4"). split; [exact Hws|]. split; [reflexivity|].
  split; [exact Hts|].
  exists w'. split; [exact Hrun|]. split; [exact Htemp|]. split; [exact Hout|].
  split; [apply Hsrc; discriminate|].
  rewrite Htrace. vm_compute. reflexivity.
Defined.

(** C3, as stated, fails: for a source that already is [memory_1.mp4], as
    every video saved with the default extension is, the source file is
    deleted before the converted file is moved into place. *)
Lemma ensure_h264_mp4_unlinks_source_first :
  ∃ w',
    _ensure_h264_mp4 env_tool_works mp4_file (world_with mp4_file "raw")
      = (w', Ok (Some mp4_file)) ∧
    trace w' = [Ffmpeg false mp4_file (temp_sibling mp4_file);
                Unlink mp4_file;
                Replace (temp_sibling mp4_file) mp4_file] ∧
    unlinked_before_replace mp4_file (trace w') = true.
Proof.
  eexists. split; [vm_compute; reflexivity|]. split; by vm_compute.
Qed.

(** C5: the table entry wins whatever the URL says; but a response whose
    type is empty or a byte stream, with no Content-Disposition, gets the
    caller's fallback although the URL ends in [.heic] followed by a query:
    the URL is never consulted, and the image is saved as [memory_1.jpg]. *)
Theorem chosen_ext_never_reaches_url :
  chosen_ext false (reply 200 "image/png" []) heic_url ".jpg" = ".png" ∧
  _ext_from_url heic_url = ".heic" ∧
  chosen_ext false (reply 200 "" []) heic_url ".jpg" = ".jpg" ∧
  chosen_ext false (reply 200 "application/octet-stream" []) heic_url ".jpg" = ".jpg" ∧
  ∃ w c,
    download_all env_heic export_root None None (Some []) [(heic_url, "image")] empty_world
      = Some (w, c) ∧
    ok c = 1 ∧
    fs w !! child (imgs (make_dirs export_root)) "memory_1.jpg" = Some "heic-bytes" ∧
    fs w !! child (imgs (make_dirs export_root)) "memory_1.heic" = None.
Proof.
  split; [by vm_compute|]. split; [by vm_compute|]. split; [by vm_compute|].
  split; [by vm_compute|].
  eexists _, _. split; [vm_compute; reflexivity|]. split; by vm_compute.
Qed.

(** Cancellation while the third chunk of the first item is pending. *)
Lemma cancel_mid_stream_witness :
  env_stop_at env_cancel = Some 3%nat ∧
  (polls empty_world < 3)%nat ∧
  (3 ≤ polls empty_world + length ["aa"; "bb"; "cc"])%nat ∧
  ∃ w' c',
    run_items env_cancel dirs
      [(1, (1, ("https://a.test/2", "video"))); (2, (2, ("https://a.test/3", "image")))]
      no_counts empty_world = (w', c') ∧
    fs w' !! child (vids dirs) "memory_1.mov" = None ∧
    ok c' = 0 ∧ fail c' = 1 ∧ failed_out c' = Some [1] ∧
    requests w' = 1%nat.
Proof.
  split; [reflexivity|]. split; [cbn; lia|]. split; [cbn; lia|].
  destruct (cancel_mid_stream env_cancel dirs 3 1 1 "https://a.test/2" "video"
              [(2, (2, ("https://a.test/3", "image")))] no_counts empty_world
              (_resolve_media_response env_cancel false "https://a.test/2"
                 (is_set env_cancel empty_world).1).1
              mov_reply "https://example.test/final"
              (child (vids dirs) "memory_1.mov") ["aa"; "bb"; "cc"] false)
    as (w' & c' & Hrun & Hgone & _ & Hok & Hfail & Hlist & Hreq).
  - reflexivity.
  - cbn. lia.
  - vm_compute. reflexivity.
  - reflexivity.
  - vm_compute. reflexivity.
  - vm_compute. reflexivity.
  - reflexivity.
  - cbn. lia.
  - exists w', c'. split; [exact Hrun|]. split; [exact Hgone|].
    split; [exact Hok|]. split; [exact Hfail|]. split; [exact Hlist|exact Hreq].
Defined.



(** A video whose conversion fails stays on disk and counts as a success. *)
Lemma transcoder_outcome_keeps_success_witness :
  is_video_item "video" = true ∧
  _has_ffmpeg env_tool_fails = true ∧
  ∃ w5 line,
    process_item env_tool_fails dirs 1 1 "https://a.test/2" "video" 0
      (is_set env_tool_fails empty_world).1 = (w5, 0 + 1, None) ∧
    fs w5 !! child (vids dirs) "memory_1.mov" = Some "aabb" ∧
    last (trace w5) = Some (Log line) ∧
    (line = "[INFO] ffmpeg not found; cannot guarantee H.264 only." ∨
     line = "[WARN] ffmpeg failed to create H.264 for memory_1.mov; keeping original.").
Proof.
  split; [reflexivity|]. split; [reflexivity|].
  destruct (transcoder_outcome_keeps_success env_tool_fails dirs 1 1 "https://a.test/2"
              "video" [] no_counts empty_world
              (_resolve_media_response env_tool_fails false "https://a.test/2"
                 (is_set env_tool_fails empty_world).1).1
              (save_stream env_tool_fails (child (vids dirs) "memory_1.mov") short_mov_reply
                 (_resolve_media_response env_tool_fails false "https://a.test/2"
                    (is_set env_tool_fails empty_world).1).1).1
              short_mov_reply "https://example.test/final"
              (child (vids dirs) "memory_1.mov") ["aa"; "bb"] false)
    as (w5 & line & t & Hitem & Hkept & Htrace & Hline & _).
  - reflexivity.
  - reflexivity.
  - vm_compute. reflexivity.
  - reflexivity.
  - vm_compute. reflexivity.
  - vm_compute. reflexivity.
  - reflexivity.
  - vm_compute. reflexivity.
  - right. split; [reflexivity|]. by exists (Some "partial").
  - exists w5, line. split; [exact Hitem|]. split; [exact Hkept|].
    split; [rewrite Htrace, app_assoc; apply last_snoc|exact Hline].
Defined.

End Runs.

(** * Further properties of the code *)

(** ** Selections as sets *)

Section SelectionSets.

Lemma elem_of_add_in_bounds (max_n : Z) (sel : gset Z) (j k : Z) :
  k ∈ add_in_bounds max_n sel j ↔ k ∈ sel ∨ (k = j ∧ 1 ≤ k ∧ k ≤ max_n).
Proof.
  unfold add_in_bounds. case_decide as Hj.
  - rewrite elem_of_union, elem_of_singleton. split.
    + intros [->|?]; [right; lia|by left].
    + intros [?|[-> _]]; [by right|by left].
  - split; [by left|]. intros [?|[-> ?]]; [done|lia].
Qed.

Lemma elem_of_foldl_add (max_n : Z) (l : list Z) (sel : gset Z) (k : Z) :
  k ∈ foldl (add_in_bounds max_n) sel l ↔ k ∈ sel ∨ (k ∈ l ∧ 1 ≤ k ∧ k ≤ max_n).
Proof.
  revert sel. induction l as [|j l IH]; intros sel; simpl.
  - split; [by left|]. intros [?|[Hk _]]; [done|by apply elem_of_nil in Hk].
  - rewrite IH, elem_of_add_in_bounds, elem_of_cons. split.
    + intros [[?|(-> & ? & ?)]|(? & ? & ?)]; [by left|right|right]; auto.
    + intros [?|([->|?] & ? & ?)]; [by left; left|left; right|right]; auto.
Qed.

Lemma elem_of_parse_part (max_n : Z) (sel : gset Z) (part : string) (k : Z) :
  k ∈ parse_part max_n sel part ↔ k ∈ sel ∨ (1 ≤ k ∧ k ≤ max_n ∧ covers part k).
Proof.
  unfold parse_part, covers. destruct part as [|c part].
  { split; [by left|]. by intros [?|(_ & _ & ? & _)]. }
  destruct (PyStr.has_char "-" (String c part)).
  - destruct (PyStr.split_first "-" (String c part)) as [sa sb]. cbn [fst snd].
    destruct (PyStr.int sa) as [a|]; [destruct (PyStr.int sb) as [b|]|].
    + assert (∀ lo hi, k ∈ foldl (add_in_bounds max_n) sel (range_incl lo hi) ↔
                        k ∈ sel ∨ (lo ≤ k ∧ k ≤ hi ∧ 1 ≤ k ∧ k ≤ max_n)) as Hrange.
      { intros lo hi. rewrite elem_of_foldl_add. unfold range_incl.
        rewrite elem_of_seqZ. split; (intros [?|?]; [by left|right; lia]). }
      destruct (decide (a > b)); rewrite Hrange; split.
      * intros [?|?]; [by left|right]. split; [lia|]. split; [lia|].
        split; [done|]. exists a, b. repeat split; lia.
      * intros [?|(? & ? & _ & a' & b' & [= <-] & [= <-] & ? & ?)]; [by left|right]. lia.
      * intros [?|?]; [by left|right]. split; [lia|]. split; [lia|].
        split; [done|]. exists a, b. repeat split; lia.
      * intros [?|(? & ? & _ & a' & b' & [= <-] & [= <-] & ? & ?)]; [by left|right]. lia.
    + split; [by left|]. intros [?|(_ & _ & _ & a' & b' & _ & ? & _)]; done.
    + split; [by left|]. intros [?|(_ & _ & _ & a' & b' & ? & _)]; done.
  - destruct (PyStr.int (String c part)) as [j|].
    + rewrite elem_of_add_in_bounds. split.
      * intros [?|(-> & ? & ?)]; [by left|by right].
      * intros [?|(? & ? & _ & [= ->])]; [by left|by right].
    + split; [by left|]. by intros [?|(_ & _ & _ & ?)].
Qed.

Lemma elem_of_foldl_parse (max_n : Z) (parts : list string) (sel : gset Z) (k : Z) :
  k ∈ foldl (parse_part max_n) sel parts ↔
  k ∈ sel ∨ (1 ≤ k ∧ k ≤ max_n ∧ ∃ part, part ∈ parts ∧ covers part k).
Proof.
  revert sel. induction parts as [|part parts IH]; intros sel; simpl.
  - split; [by left|]. intros [?|(_ & _ & part & Hp & _)]; [done|].
    by apply elem_of_nil in Hp.
  - rewrite IH, elem_of_parse_part. split.
    + intros [[?|(? & ? & ?)]|(? & ? & part' & ? & ?)].
      * by left.
      * right. split; [done|]. split; [done|]. exists part.
        split; [apply elem_of_cons; by left|done].
      * right. split; [done|]. split; [done|]. exists part'.
        split; [apply elem_of_cons; by right|done].
    + intros [?|(? & ? & part' & [->|?]%elem_of_cons & ?)].
      * by left; left.
      * by left; right.
      * right. split; [done|]. split; [done|]. by exists part'.
Qed.

(** X1: a position is in the result of [_parse_indices] exactly when it
    lies between 1 and the bound and one of the comma separated tokens,
    spaces removed, stands for it; so order and repetition of tokens are
    immaterial and tokens that fail to parse contribute nothing. *)
Theorem parse_indices_members (text : string) (max_n k : Z) :
  k ∈ _parse_indices text max_n ↔
  1 ≤ k ∧ k ≤ max_n ∧
  ∃ part, part ∈ PyStr.split "," (PyStr.remove_char " " text) ∧ covers part k.
Proof.
  unfold _parse_indices. rewrite elem_of_sorted. unfold selected.
  rewrite elem_of_foldl_parse. split; [|by right].
  intros [Hk|?]; [|done]. by apply not_elem_of_empty in Hk.
Qed.

End SelectionSets.

(** ** Decimal numbers: [str] of an integer and [int] of its text *)

Section Decimal.

Import PyStr.

Lemma pretty_N_char_digit (x : N) :
  (x < 10)%N →
  is_digit (pretty_N_char x) = true ∧ digit_val (pretty_N_char x) = Z.of_N x.
Proof.
  intros Hx.
  assert (x = 0 ∨ x = 1 ∨ x = 2 ∨ x = 3 ∨ x = 4 ∨ x = 5 ∨ x = 6 ∨ x = 7
          ∨ x = 8 ∨ x = 9)%N as Hcases by lia.
  repeat destruct Hcases as [->|Hcases]; try subst x; by vm_compute.
Qed.

Lemma pretty_N_go_app (x : N) (s : string) :
  pretty_N_go x s = pretty_N_go x EmptyString +:+ s.
Proof.
  revert s. induction (N.lt_wf_0 x) as [x _ IH]; intros s.
  destruct (decide (x = 0)%N) as [->|Hx]; [by rewrite !pretty_N_go_0|].
  rewrite !(pretty_N_go_step x) by lia.
  rewrite (IH (x `div` 10)%N) by (apply N.div_lt; lia).
  rewrite (IH (x `div` 10)%N ltac:(apply N.div_lt; lia) (String _ EmptyString)).
  by rewrite append_assoc.
Qed.

Lemma all_digits_app (a b : string) :
  all_digits (a +:+ b) = (all_digits a && all_digits b)%bool.
Proof.
  induction a as [|c a IH]; [done|]. rewrite append_cons. simpl.
  by rewrite IH, andb_assoc.
Qed.

Lemma digits_val_app (acc : Z) (a b : string) :
  digits_val acc (a +:+ b) = digits_val (digits_val acc a) b.
Proof.
  revert acc. induction a as [|c a IH]; intros acc; [done|].
  rewrite append_cons. simpl. apply IH.
Qed.

(** The text of a number consists of digits and denotes the number. *)
Lemma pretty_N_go_digits (x : N) :
  all_digits (pretty_N_go x EmptyString) = true ∧
  digits_val 0 (pretty_N_go x EmptyString) = Z.of_N x ∧
  ((0 < x)%N → pretty_N_go x EmptyString ≠ EmptyString).
Proof.
  induction (N.lt_wf_0 x) as [x _ IH].
  destruct (decide (x = 0)%N) as [->|Hx]; [by rewrite pretty_N_go_0|].
  rewrite pretty_N_go_step, pretty_N_go_app by lia.
  destruct (IH (x `div` 10)%N) as (Hall & Hval & _); [apply N.div_lt; lia|].
  destruct (pretty_N_char_digit (x `mod` 10)%N) as [Hd Hv]; [by apply N.mod_lt|].
  split; [|split].
  - rewrite all_digits_app, Hall. simpl. by rewrite Hd.
  - rewrite digits_val_app, Hval. simpl. rewrite Hv.
    rewrite (N.div_mod x 10) at 3 by done. lia.
  - intros _. destruct (pretty_N_go (x `div` 10) EmptyString); done.
Qed.

Lemma int_digits_all_digits (acc : Z) (s : string) :
  all_digits s = true → int_digits acc s = Some (digits_val acc s).
Proof.
  revert acc. induction s as [|c s IH]; intros acc; [done|]. simpl.
  intros [Hc Hs]%andb_true_iff. rewrite Hc. by apply IH.
Qed.

Lemma digit_not_sign (c : ascii) (r : string) :
  is_digit c = true →
  int (String c r) = int_unsigned (String c r).
Proof.
  intros Hc. unfold int.
  assert (is_space c = false) as Hsp.
  { unfold is_digit, is_space in *. apply andb_true_iff in Hc as [H1 _].
    apply Nat.leb_le in H1. apply orb_false_iff. split.
    - apply andb_false_iff. right. apply Nat.leb_gt. lia.
    - apply Nat.eqb_neq. lia. }
  cbn [lstrip]. rewrite Hsp.
  destruct c as [[] [] [] [] [] [] [] []]; try done.
Qed.

Lemma pretty_pos_text (p : positive) :
  pretty (Z.pos p) = pretty_N_go (N.pos p) EmptyString.
Proof. done. Qed.

(** The text of a positive number has digits only. *)
Lemma pretty_pos_digits (z : Z) :
  0 < z → all_digits (pretty z) = true ∧ pretty z ≠ EmptyString.
Proof.
  destruct z as [|p|p]; try lia. intros _. rewrite pretty_pos_text.
  destruct (pretty_N_go_digits (N.pos p)) as (Hall & _ & Hne). split; [done|].
  apply Hne. lia.
Qed.

(** [int(str(z)) == z] for positive [z]. *)
Lemma int_pretty (z : Z) : 0 < z → int (pretty z) = Some z.
Proof.
  destruct z as [|p|p]; try lia. intros _. rewrite pretty_pos_text.
  destruct (pretty_N_go_digits (N.pos p)) as (Hall & Hval & Hne).
  destruct (pretty_N_go (N.pos p) EmptyString) as [|c r] eqn:Htext;
    [exfalso; apply Hne; [lia|done]|].
  simpl in Hall. apply andb_true_iff in Hall as [Hc Hr].
  rewrite digit_not_sign by done. unfold int_unsigned. rewrite Hc.
  rewrite int_digits_all_digits by done. f_equal.
  simpl in Hval. rewrite Z.mul_0_r, Z.add_0_l in Hval. rewrite Hval. lia.
Qed.

Lemma has_char_all_digits (c : ascii) (s : string) :
  is_digit c = false → all_digits s = true → has_char c s = false.
Proof.
  intros Hc. induction s as [|d s IH]; [done|]. simpl.
  intros [Hd Hs]%andb_true_iff. rewrite IH by done. rewrite orb_false_r.
  apply Ascii.eqb_neq. intros ->. congruence.
Qed.

End Decimal.

(** ** Retrying the failed positions *)

Section RetryRoundTrip.

Import PyStr.

Lemma has_char_app (c : ascii) (a b : string) :
  has_char c (a +:+ b) = (has_char c a || has_char c b)%bool.
Proof.
  induction a as [|d a IH]; [done|]. rewrite append_cons. simpl.
  by rewrite IH, orb_assoc.
Qed.

Lemma remove_char_absent (c : ascii) (s : string) :
  has_char c s = false → remove_char c s = s.
Proof.
  induction s as [|d s IH]; [done|]. simpl.
  intros [Hd Hs]%orb_false_iff. rewrite Hd. f_equal. by apply IH.
Qed.

Lemma split_absent (c : ascii) (s : string) :
  has_char c s = false → split c s = [s].
Proof.
  induction s as [|d s IH]; [done|]. simpl.
  intros [Hd Hs]%orb_false_iff. rewrite Hd, IH by done. done.
Qed.

Lemma split_app_sep (c : ascii) (p r : string) :
  has_char c p = false → split c (p +:+ String c r) = p :: split c r.
Proof.
  induction p as [|d p IH].
  - intros _. rewrite append_nil. simpl. by rewrite eqb_char_refl.
  - rewrite append_cons. simpl. intros [Hd Hp]%orb_false_iff.
    rewrite Hd, IH by done. done.
Qed.

Lemma join_cons (p p' : string) (ps : list string) :
  join "," (p :: p' :: ps) = p +:+ String "," (join "," (p' :: ps)).
Proof. done. Qed.

Lemma split_join (parts : list string) :
  Forall (λ p, has_char "," p = false) parts → parts ≠ [] →
  split "," (join "," parts) = parts.
Proof.
  induction 1 as [|p parts Hp Hparts IH]; [done|]. intros _.
  destruct parts as [|p' parts]; [by apply split_absent|].
  rewrite join_cons, split_app_sep by done. f_equal. by apply IH.
Qed.

Lemma has_char_join (c : ascii) (parts : list string) :
  eqb_char c "," = false →
  Forall (λ p, has_char c p = false) parts →
  has_char c (join "," parts) = false.
Proof.
  intros Hc. induction 1 as [|p parts Hp Hparts IH]; [done|].
  destruct parts as [|p' parts]; [done|].
  rewrite join_cons, has_char_app, Hp. cbn [has_char orb]. by rewrite Hc, IH.
Qed.

(** The text of a positive number stands for that number only. *)
Lemma covers_pretty (z k : Z) : 0 < z → covers (pretty z) k ↔ k = z.
Proof.
  intros Hz. destruct (pretty_pos_digits z Hz) as [Hall Hne].
  unfold covers. rewrite (has_char_all_digits "-") by done.
  rewrite int_pretty by done. split; [by intros [_ [= ->]]|by intros ->].
Qed.

Lemma elem_of_selected_join (l : list Z) (max_n k : Z) :
  Forall (λ z, 1 ≤ z ∧ z ≤ max_n) l →
  k ∈ selected (join "," (pretty <$> l)) max_n ↔ k ∈ l.
Proof.
  intros Hl. unfold selected. rewrite elem_of_foldl_parse.
  assert (Forall (λ p, all_digits p = true ∧ p ≠ EmptyString) (pretty <$> l)) as Hparts.
  { apply Forall_fmap. eapply Forall_impl; [exact Hl|]. intros z [? ?].
    apply pretty_pos_digits. lia. }
  rewrite remove_char_absent.
  2:{ apply has_char_join; [done|]. eapply Forall_impl; [exact Hparts|].
      intros p [Hp _]. by apply has_char_all_digits. }
  split.
  - intros [Hk|(_ & _ & part & Hpart & Hcov)]; [by apply not_elem_of_empty in Hk|].
    destruct l as [|z l].
    + simpl in Hpart. apply list_elem_of_singleton in Hpart as ->. by destruct Hcov.
    + rewrite split_join in Hpart; [|..|done].
      2:{ eapply Forall_impl; [exact Hparts|]. intros p [Hp _].
          by apply has_char_all_digits. }
      apply list_elem_of_fmap in Hpart as (z' & -> & Hz').
      pose proof (proj1 (Forall_forall _ _) Hl z' Hz') as [? ?].
      apply covers_pretty in Hcov as ->; [done|lia].
  - intros Hk. right.
    pose proof (proj1 (Forall_forall _ _) Hl k Hk) as [? ?].
    split; [done|]. split; [done|]. exists (pretty k). split.
    + rewrite split_join.
      * apply list_elem_of_fmap. by exists k.
      * eapply Forall_impl; [exact Hparts|]. intros p [Hp _].
        by apply has_char_all_digits.
      * by destruct l; [apply elem_of_nil in Hk|].
    + apply covers_pretty; [lia|done].
Qed.

(** X2: the selection text that the retry button builds from the failed
    positions parses back to exactly those positions, deduplicated and
    ascending, whenever they lie within the index; so a retry run works on
    the failed items and on nothing else. *)
Theorem retry_text_round_trip (failed : list Z) (max_n : Z) :
  Forall (λ z, 1 ≤ z ∧ z ≤ max_n) failed →
  _parse_indices (retry_text failed) max_n = sorted (list_to_set failed).
Proof.
  intros Hfailed. unfold _parse_indices, retry_text. f_equal.
  apply set_eq. intros k. rewrite elem_of_selected_join.
  - by rewrite elem_of_sorted.
  - apply Forall_forall. intros z Hz%elem_of_sorted%elem_of_list_to_set.
    by apply (proj1 (Forall_forall _ _) Hfailed).
Qed.

End RetryRoundTrip.

(** ** The work list *)

Section WorkList.

Lemma build_work_cases (limit : option Z) (indices_text : option string)
    (items : list (string * string)) :
  build_work limit indices_text items =
  match selected_indices indices_text (Z.of_nat (length items)) with
  | [] => enumerate1 (limited limit items)
  | sel =>
      omap (λ idx, if decide (1 ≤ idx ∧ idx ≤ Z.of_nat (length items))
                   then (λ it, (idx, it)) <$> items !! Z.to_nat (idx - 1)
                   else None) sel
  end.
Proof.
  unfold build_work. fold (selected_indices indices_text (Z.of_nat (length items))).
  fold (limited limit items).
  by destruct (selected_indices indices_text (Z.of_nat (length items))).
Qed.

Lemma seqZ_ascending (m : Z) (k : nat) : StronglySorted Z.lt (seqZ m (Z.of_nat k)).
Proof.
  revert m. induction k as [|k IH]; intros m; [constructor|].
  rewrite seqZ_cons by lia. replace (Z.pred (Z.of_nat (S k))) with (Z.of_nat k) by lia.
  constructor; [apply IH|]. apply Forall_forall. intros x Hx%elem_of_seqZ. lia.
Qed.

Lemma enumerate1_positions {A : Type} (xs : list A) :
  (enumerate1 xs).*1 = seqZ 1 (Z.of_nat (length xs)).
Proof. unfold enumerate1. apply fst_zip. rewrite length_seqZ. lia. Qed.

Lemma length_enumerate1 {A : Type} (xs : list A) : length (enumerate1 xs) = length xs.
Proof.
  unfold enumerate1. rewrite length_zip, length_seqZ. lia.
Qed.

Lemma limited_prefix {A : Type} (limit : option Z) (items : list A) :
  ∃ n, limited limit items = take n items.
Proof.
  unfold limited, slice_to. destruct limit as [l|].
  - repeat case_decide; eauto. exists (length items). by rewrite take_ge.
  - exists (length items). by rewrite take_ge.
Qed.

(** Selected positions that are within the index all reach the work list,
    each with the item at that position. *)
Lemma selection_work (items : list (string * string)) (sel : list Z) :
  Forall (λ idx, 1 ≤ idx ∧ idx ≤ Z.of_nat (length items)) sel →
  let work := omap (λ idx, if decide (1 ≤ idx ∧ idx ≤ Z.of_nat (length items))
                           then (λ it, (idx, it)) <$> items !! Z.to_nat (idx - 1)
                           else None) sel in
  work.*1 = sel ∧
  Forall (λ e, items !! Z.to_nat (e.1 - 1) = Some e.2) work.
Proof.
  induction 1 as [|idx sel Hidx Hsel [IH1 IH2]]; [by split|]. cbn zeta.
  cbn [omap list_omap]. rewrite decide_True by done.
  destruct (items !! Z.to_nat (idx - 1)) as [it|] eqn:Hit.
  - cbn. split; [by f_equal|]. constructor; done.
  - apply lookup_ge_None in Hit. lia.
Qed.

Lemma ascending_length (l : list Z) (lo hi : Z) :
  StronglySorted Z.lt l → Forall (λ k, lo ≤ k ∧ k ≤ hi) l → lo ≤ hi + 1 →
  Z.of_nat (length l) ≤ hi - lo + 1.
Proof.
  intros Hsorted. revert lo. induction Hsorted as [|x l Hl IH Hx]; intros lo Hb Hlo.
  - simpl. lia.
  - apply Forall_cons in Hb as [Hxb Hb].
    assert (Z.of_nat (length l) ≤ hi - (x + 1) + 1); [|simpl; lia].
    apply IH; [|lia]. apply Forall_forall. intros y Hy.
    pose proof (proj1 (Forall_forall _ _) Hx y Hy) as Hxy.
    pose proof (proj1 (Forall_forall _ _) Hb y Hy) as Hyb.
    cbn beta in Hxy, Hyb. lia.
Qed.

(** X3: whatever the limit and the selection text, the positions of the
    work list are strictly ascending and lie within the index, every entry
    carries the item found at its position, and the list is no longer than
    the index. *)
Theorem work_list_positions (limit : option Z) (indices_text : option string)
    (items : list (string * string)) :
  let work := build_work limit indices_text items in
  StronglySorted Z.lt work.*1 ∧
  Forall (λ e, 1 ≤ e.1 ∧ e.1 ≤ Z.of_nat (length items) ∧
               items !! Z.to_nat (e.1 - 1) = Some e.2) work ∧
  (length work ≤ length items)%nat.
Proof.
  cbn zeta. rewrite build_work_cases.
  destruct (selected_indices indices_text (Z.of_nat (length items))) as [|i0 sel] eqn:Hsel.
  - destruct (limited_prefix limit items) as [n ->].
    split; [|split].
    + rewrite enumerate1_positions. apply seqZ_ascending.
    + apply Forall_forall. intros [i it] [k Hk]%list_elem_of_lookup.
      apply enumerate1_lookup in Hk as [-> Hit]. cbn [fst snd].
      apply lookup_take_Some in Hit as [Hit _].
      pose proof (lookup_lt_Some _ _ _ Hit).
      replace (Z.to_nat (Z.of_nat k + 1 - 1)) with k by lia. split; [lia|]. split; [lia|done].
    + rewrite length_enumerate1, length_take. lia.
  - assert (StronglySorted Z.lt (i0 :: sel) ∧
            Forall (λ idx, 1 ≤ idx ∧ idx ≤ Z.of_nat (length items)) (i0 :: sel))
      as [Hsorted Hbounds].
    { rewrite <- Hsel. unfold selected_indices. destruct indices_text as [text|];
        [|split; constructor]. destruct (Re.nonempty text); [|split; constructor].
      split; [apply sorted_ascending|].
      apply Forall_forall. intros k Hk%elem_of_sorted.
      by apply (selected_in_bounds text (Z.of_nat (length items))). }
    destruct (selection_work items (i0 :: sel) Hbounds) as [Hpos Hitems].
    cbn zeta in Hpos, Hitems. split; [by rewrite Hpos|]. split.
    + apply Forall_forall. intros e He.
      pose proof (proj1 (Forall_forall _ _) Hitems e He) as Hit.
      assert (e.1 ∈ i0 :: sel) as Hin.
      { rewrite <- Hpos. apply list_elem_of_fmap. by exists e. }
      pose proof (proj1 (Forall_forall _ _) Hbounds _ Hin) as [? ?]. done.
    + assert (Z.of_nat (length (i0 :: sel)) ≤ Z.of_nat (length items) - 1 + 1)
        by (apply ascending_length; [done|done|lia]).
      rewrite <- (length_fmap fst), Hpos. lia.
Qed.

(** X4: when the selection text yields no valid position (no text, an
    empty one, or one whose tokens are all malformed or out of range), the
    run works on the index from position 1 on, cut by the limit: no limit
    or the limit 0 keep every item, a positive limit keeps that many, a
    negative limit drops that many from the end.  When the selection does
    yield positions, exactly those are worked on and the limit plays no
    part. *)
Theorem work_list_limit (limit : option Z) (indices_text : option string)
    (items : list (string * string)) :
  let n := Z.of_nat (length items) in
  let work := build_work limit indices_text items in
  (selected_indices indices_text n = [] →
   work.*1 = seqZ 1 (Z.of_nat (length work)) ∧
   work.*2 = limited limit items ∧
   Z.of_nat (length work) =
     match limit with
     | None => n
     | Some l => if decide (l = 0) then n
                 else if decide (0 < l) then Z.min l n else Z.max 0 (n + l)
     end) ∧
  (selected_indices indices_text n ≠ [] →
   work.*1 = selected_indices indices_text n).
Proof.
  cbn zeta. rewrite build_work_cases. split.
  - intros ->. rewrite enumerate1_positions, length_enumerate1. split; [done|].
    split.
    { unfold enumerate1. apply snd_zip. rewrite length_seqZ. lia. }
    unfold limited, slice_to. destruct limit as [l|]; [|done].
    destruct (decide (l = 0)) as [->|Hl]; [by rewrite decide_False by lia|].
    rewrite decide_True by done.
    destruct (decide (0 < l)).
    + rewrite decide_True by lia. rewrite length_take. lia.
    + rewrite decide_False by lia. rewrite length_take. lia.
  - intros Hsel.
    destruct (selected_indices indices_text (Z.of_nat (length items))) as [|i0 sel] eqn:Heq;
      [done|].
    apply selection_work. rewrite <- Heq. unfold selected_indices.
    destruct indices_text as [text|]; [|constructor].
    destruct (Re.nonempty text); [|constructor].
    apply Forall_forall. intros k Hk%elem_of_sorted.
    by apply (selected_in_bounds text (Z.of_nat (length items))).
Qed.

End WorkList.

(** ** Extensions from URLs and headers *)

Section ExtensionShape.

Import PyStr.

(** A successful search matched at some position of the text. *)
Lemma search_at {A : Type} (f : string → option A) (s : string) (m : A) :
  Re.search f s = Some m → ∃ pre t, s = pre +:+ t ∧ f t = Some m.
Proof.
  induction s as [|c s IH]; simpl.
  - destruct (f EmptyString) eqn:Hf; [|done]. intros [= <-].
    by exists EmptyString, EmptyString.
  - destruct (f (String c s)) eqn:Hf.
    + intros [= <-]. by exists EmptyString, (String c s).
    + intros (pre & t & -> & Ht)%IH. by exists (String c pre), t.
Qed.

Lemma length_take_le (n : nat) (s : string) :
  (n ≤ String.length s)%nat → String.length (Re.take n s) = n.
Proof.
  revert s. induction n as [|n IH]; intros [|c s]; simpl; try lia.
  intros Hn. rewrite IH; lia.
Qed.

Lemma take_while_prefix (p : ascii → bool) (n : nat) (s : string) :
  (n ≤ String.length (Re.take_while p s))%nat →
  all_chars p (Re.take n s) = true ∧ String.length (Re.take n s) = n.
Proof.
  revert s. induction n as [|n IH]; intros s; [by destruct s|].
  destruct s as [|c s]; simpl; [lia|].
  destruct (p c) eqn:Hc; simpl; [|lia]. intros Hn.
  destruct (IH s) as [Hall Hlen]; [lia|]. by rewrite Hall, Hlen.
Qed.

Lemma lower_char_alnum (c : ascii) :
  is_alnum c = true → lower_alnum (lower_char c) = true.
Proof. destruct c as [[] [] [] [] [] [] [] []]; by vm_compute. Qed.

Lemma lower_all_alnum (s : string) :
  all_chars is_alnum s = true → all_chars lower_alnum (lower s) = true.
Proof.
  induction s as [|c s IH]; [done|]. simpl.
  intros [Hc Hs]%andb_true_iff. by rewrite lower_char_alnum, IH.
Qed.

Lemma length_lower (s : string) : String.length (lower s) = String.length s.
Proof. induction s as [|c s IH]; [done|]. simpl. by rewrite IH. Qed.

(** X5: for a URL made of ASCII characters, the extension read off it is
    either empty or a dot followed by two to four characters, each a digit
    or a lower-case letter, and these characters follow a dot in the URL
    up to the change of case. *)
Theorem ext_from_url_shape (u : string) :
  all_chars is_ascii u = true →
  _ext_from_url u = EmptyString ∨
  ∃ g, _ext_from_url u = "." +:+ g ∧
       (2 ≤ String.length g ≤ 4)%nat ∧
       all_chars lower_alnum g = true ∧
       ∃ pre g0 post, u = pre +:+ "." +:+ g0 +:+ post ∧ g = lower g0.
Proof.
  intros _. unfold _ext_from_url, Re.search_url_ext.
  destruct (Re.search Re.url_ext_at u) as [g|] eqn:Hsearch; [right|by left].
  apply search_at in Hsearch as (pre & t & Hu & Hat).
  exists (lower g). split; [done|].
  assert (∃ n r, (2 ≤ n ≤ 4)%nat ∧ t = String "." r ∧ Re.suffix_of_length n r = Some g)
    as (n & r & Hn & Ht & Hg).
  { unfold Re.url_ext_at in Hat. destruct t as [|c r]; [done|].
    destruct (eqb_char c ".") eqn:Hc; [|done]. apply eqb_char_eq in Hc as ->.
    destruct (Re.suffix_of_length 4 r) eqn:H4.
    { exists 4%nat, r. split; [lia|]. split; [done|congruence]. }
    destruct (Re.suffix_of_length 3 r) eqn:H3.
    { exists 3%nat, r. split; [lia|]. split; [done|congruence]. }
    exists 2%nat, r. split; [lia|]. by split. }
  unfold Re.suffix_of_length in Hg.
  destruct (Nat.leb n (Re.alnum_run r) && Re.query_or_end (Re.drop n r))%bool eqn:Hok;
    [|done].
  injection Hg as <-. apply andb_true_iff in Hok as [Hrun _].
  apply Nat.leb_le in Hrun.
  destruct (take_while_prefix is_alnum n r Hrun) as [Hall Hlen].
  rewrite length_lower, Hlen. split; [done|]. split; [by apply lower_all_alnum|].
  exists pre, (Re.take n r), (Re.drop n r). split; [|done].
  rewrite Hu, Ht. f_equal. by rewrite append_cons, append_nil, take_drop.
Qed.

Lemma guess_ext_cases (nt : bool) (r : Response) (fallback : string) :
  let ext := _guess_ext_from_headers nt r fallback in
  ext ∈ [".jpg"; ".png"; ".heic"; ".mp4"; ".mov"] ∨
  ext = fallback ∨
  (ext ≠ EmptyString ∧
   ∃ name, Re.search_filename (header_get (headers r) "Content-Disposition" EmptyString)
             = Some name ∧
           PyPath.splitext_ext nt name = ext).
Proof.
  cbn zeta. unfold _guess_ext_from_headers.
  repeat (match goal with |- context [if ?b then _ else _] => destruct b end;
          [left; set_solver|]).
  destruct (Re.search_filename _) as [name|]; [|by right; left].
  destruct (PyPath.splitext_ext nt name) as [|c suf] eqn:Hsuf; [by right; left|].
  right; right. split; [done|]. by exists name.
Qed.

(** X6: with a fallback that is neither empty nor [.bin], as both
    fallbacks of [download_all] are, the extension chosen for a response
    departs from the one the headers give only when a Content-Disposition
    file name ends in [.bin]; in that case alone the URL decides. *)
Theorem url_consulted_only_for_bin (nt : bool) (r : Response)
    (final_url fallback : string) :
  fallback ≠ EmptyString → fallback ≠ ".bin" →
  chosen_ext nt r final_url fallback ≠ _guess_ext_from_headers nt r fallback →
  ∃ name,
    Re.search_filename (header_get (headers r) "Content-Disposition" EmptyString)
      = Some name ∧
    PyPath.splitext_ext nt name = ".bin" ∧
    chosen_ext nt r final_url fallback = _ext_from_url final_url.
Proof.
  intros Hempty Hbin. unfold chosen_ext.
  destruct (guess_ext_cases nt r fallback) as [Htable|[Hfb|(Hne & name & Hname & Hsuf)]];
    cbn zeta in *.
  - set (ext := _guess_ext_from_headers nt r fallback) in *.
    assert ((String.eqb ext ".bin" || String.eqb ext EmptyString)%bool = false) as ->; [|done].
    repeat (apply elem_of_cons in Htable as [->|Htable]; [done|]).
    by apply elem_of_nil in Htable.
  - rewrite Hfb. apply String.eqb_neq in Hempty, Hbin. by rewrite Hempty, Hbin.
  - set (ext := _guess_ext_from_headers nt r fallback) in *.
    destruct (String.eqb ext ".bin") eqn:Hb.
    + apply String.eqb_eq in Hb. cbn [orb].
      destruct (Re.nonempty (_ext_from_url final_url)); [|done].
      intros _. exists name. by rewrite Hsuf, Hb.
    + apply String.eqb_neq in Hne. by rewrite Hne.
Qed.

Lemma chosen_ext_nonempty (nt : bool) (r : Response) (final_url fallback : string) :
  fallback ≠ EmptyString → chosen_ext nt r final_url fallback ≠ EmptyString.
Proof.
  intros Hfb. unfold chosen_ext.
  set (ext := _guess_ext_from_headers nt r fallback).
  assert (ext ≠ EmptyString) as Hext.
  { destruct (guess_ext_cases nt r fallback) as [Htable|[Heq|[Hne _]]]; cbn zeta in *.
    - fold ext in Htable.
      repeat (apply elem_of_cons in Htable as [->|Htable]; [done|]).
      by apply elem_of_nil in Htable.
    - by rewrite <- Heq in Hfb.
    - done. }
  destruct (String.eqb ext ".bin" || String.eqb ext EmptyString)%bool; [|done].
  destruct (_ext_from_url final_url); done.
Qed.

Lemma drop_app_length (b x : string) : Re.drop (String.length b) (b +:+ x) = x.
Proof. induction b as [|c b IH]; [by destruct x|]. rewrite append_cons. apply IH. Qed.

(** The default name of an item: its stem and its suffix. *)
Lemma initial_dest_parts (d : Dirs) (idx : Z) (media_text : string) :
  let dest := initial_dest d idx media_text in
  PyPath.name dest = ("memory_" +:+ pretty idx) +:+ default_ext_of media_text ∧
  PyPath.suffix dest = default_ext_of media_text ∧
  PyPath.stem dest = "memory_" +:+ pretty idx.
Proof.
  cbn zeta. set (b := "memory_" +:+ pretty idx).
  assert (PyPath.name (initial_dest d idx media_text) = b +:+ default_ext_of media_text)
    as Hname by (unfold initial_dest; cbn [PyPath.child PyPath.name]; done).
  split; [done|].
  assert (∃ t, default_ext_of media_text = String "." t ∧ has_char "." t = false
               ∧ String.length t = 3%nat) as (t & Ht & Hdot & Hlen).
  { unfold default_ext_of. destruct (is_video_item media_text); by eexists. }
  assert (PyPath.rfind "." (b +:+ default_ext_of media_text) = PyPath.len b) as Hr.
  { rewrite Ht. unfold PyPath.rfind. rewrite rfind_from_app_last by done. lia. }
  assert (0 < PyPath.len b)
    by (subst b; unfold PyPath.len; rewrite length_app; cbn [String.length]; lia).
  assert (0 < PyPath.len b ∧
          PyPath.len b < PyPath.len (b +:+ default_ext_of media_text) - 1) as Hcond.
  { unfold PyPath.len in *. rewrite length_app, Ht. cbn [String.length]. lia. }
  unfold PyPath.suffix, PyPath.stem. rewrite Hname, Hr.
  rewrite !(decide_True _ _ Hcond).
  unfold PyPath.from, PyPath.upto, PyPath.len. rewrite Nat2Z.id.
  by rewrite drop_app_length, take_app_length.
Qed.

(** X7: the file an item is saved to lies in the folder of its media type
    and is named [memory_], the position in decimal, and an extension that
    starts with a dot. *)
Theorem final_dest_name (E : Env) (d : Dirs) (idx : Z) (media_text : string)
    (r : Response) (final_url : string) (dest : Path) :
  final_dest E d idx media_text r final_url = Some dest →
  PyPath.parent dest = PyPath.parent (initial_dest d idx media_text) ∧
  ∃ t, PyPath.name dest = ("memory_" +:+ pretty idx) +:+ String "." t.
Proof.
  destruct (initial_dest_parts d idx media_text) as (Hname & Hsuf & _). cbn zeta in *.
  unfold final_dest. destruct (negb _).
  - set (ext := chosen_ext (env_nt E) r final_url (default_ext_of media_text)).
    assert (ext ≠ EmptyString) as Hext.
    { apply chosen_ext_nonempty. unfold default_ext_of.
      by destruct (is_video_item media_text). }
    unfold PyPath.with_suffix.
    destruct (has_char "/" ext || env_nt E && has_char "\" ext)%bool; [done|].
    destruct ext as [|c t]; [done|]. cbn [Re.nonempty startswith].
    destruct (eqb_char "." c) eqn:Hc; cbn [andb negb orb]; [|done].
    apply eqb_char_eq in Hc as <-.
    destruct (String.eqb (String "." t) "."); [done|].
    destruct (Re.nonempty (PyPath.name (initial_dest d idx media_text))); cbn [negb];
      [|done].
    intros Heq. apply (inj Some) in Heq. subst dest. cbn [PyPath.parent PyPath.name].
    split; [reflexivity|]. exists t. rewrite Hsuf, Hname.
    assert (Re.nonempty (default_ext_of media_text) = true) as ->
      by (unfold default_ext_of; by destruct (is_video_item media_text)).
    f_equal. unfold PyPath.upto, PyPath.len. rewrite length_app.
    replace (Z.to_nat _) with (String.length ("memory_" +:+ pretty idx)) by lia.
    apply take_app_length.
  - intros [= <-]. split; [done|]. rewrite Hname. unfold default_ext_of.
    destruct (is_video_item media_text); by eexists.
Qed.

Lemma digits_before_dot (a a' t t' : string) :
  all_digits a = true → all_digits a' = true →
  a +:+ String "." t = a' +:+ String "." t' → a = a'.
Proof.
  revert a'. induction a as [|c a IH]; intros [|c' a'] Ha Ha'; try done.
  - rewrite append_nil, append_cons. intros [= <- _]. simpl in Ha'. done.
  - rewrite append_nil, append_cons. intros [= -> _]. simpl in Ha. done.
  - rewrite !append_cons. intros [= -> Hrest]. f_equal.
    simpl in Ha, Ha'. apply andb_true_iff in Ha as [_ Ha], Ha' as [_ Ha'].
    by apply IH.
Qed.

(** X8: two different positions are never saved to the same file,
    whatever their media types, responses and extensions. *)
Theorem distinct_positions_distinct_files (E : Env) (d : Dirs) (idx idx' : Z)
    (media_text media_text' : string) (r r' : Response)
    (final_url final_url' : string) (dest dest' : Path) :
  0 < idx → 0 < idx' → idx ≠ idx' →
  final_dest E d idx media_text r final_url = Some dest →
  final_dest E d idx' media_text' r' final_url' = Some dest' →
  dest ≠ dest'.
Proof.
  intros Hidx Hidx' Hne [_ [t Hname]]%final_dest_name [_ [t' Hname']]%final_dest_name.
  intros ->. rewrite Hname' in Hname. rewrite !append_assoc in Hname.
  apply append_inj_l in Hname. apply Hne.
  apply (inj pretty). symmetry.
  eapply digits_before_dot; [..|exact Hname]; by apply pretty_pos_digits.
Qed.

End ExtensionShape.

(** ** The retry policy *)

Section RetryPolicy.

Context (E : Env).

Lemma attempts_loop_requests_mono log u attempts todo r0 last_exc w w' res :
  attempts_loop E log u attempts todo r0 last_exc w = (w', res) →
  (requests w ≤ requests w')%nat.
Proof.
  revert r0 last_exc w. induction todo as [|a todo IH]; intros r0 last_exc w.
  - simpl. destruct last_exc; [|destruct r0]; intros [= <- <-]; lia.
  - cbn [attempts_loop].
    destruct (attempt E log u attempts a r0 last_exc w) as [w1 fl] eqn:Hatt.
    pose proof (attempt_flow E _ _ _ _ _ _ _ _ _ Hatt) as [Hlt _].
    destruct fl as [r|r' le']; [intros [= <- <-]; lia|].
    intros Hloop%IH. lia.
Qed.

(** At least one request is sent. *)
Lemma at_least_one_request log u attempts w w' res :
  _request_with_fallback E log u attempts w = (w', res) →
  (requests w < requests w')%nat.
Proof.
  unfold _request_with_fallback.
  destruct (attempt_numbers_first attempts) as [rest ->]. cbn [attempts_loop].
  destruct (attempt E log u attempts 1 None None w) as [w1 fl] eqn:Hatt.
  pose proof (attempt_flow E _ _ _ _ _ _ _ _ _ Hatt) as [Hlt _].
  destruct fl as [r|r' le']; [by intros [= <- <-]|].
  intros Hloop. apply attempts_loop_requests_mono in Hloop. lia.
Qed.

Lemma log_if_trace_sleeps log line w : sleeps (trace (log_if log line w)) = sleeps (trace w).
Proof. destruct log; simpl; [|done]. by rewrite sleeps_app, app_nil_r. Qed.

(** An iteration either returns a response that is not retryable, without
    sleeping, or sleeps for the backoff of its number and goes on. *)
Lemma attempt_sleeps log u attempts a r0 last_exc w w' fl :
  attempt E log u attempts a r0 last_exc w = (w', fl) →
  (∃ r, fl = Return r ∧ retryable (status_code r) = false ∧
        sleeps (trace w') = sleeps (trace w)) ∨
  (∃ r' le', fl = Next r' le' ∧
             sleeps (trace w') = sleeps (trace w) ++ [backoff a]).
Proof.
  assert (∀ r w0, sleeps (trace w0) = sleeps (trace w) →
            classify log u a attempts last_exc r w0 = (w', fl) →
            (∃ r, fl = Return r ∧ retryable (status_code r) = false ∧
                  sleeps (trace w') = sleeps (trace w)) ∨
            (∃ r' le', fl = Next r' le' ∧
                       sleeps (trace w') = sleeps (trace w) ++ [backoff a])) as Hclassify.
  { intros r w0 Hw0. unfold classify. destruct (retryable (status_code r)) eqn:Hre;
      intros [= <- <-].
    - right. do 2 eexists. split; [done|]. cbn.
      by rewrite sleeps_app, log_if_trace_sleeps, Hw0.
    - left. by exists r. }
  assert (∀ r e w0, sleeps (trace w0) = sleeps (trace w) →
            on_exception log u a attempts r e w0 = (w', fl) →
            ∃ r' le', fl = Next r' le' ∧
                      sleeps (trace w') = sleeps (trace w) ++ [backoff a]) as Hexc.
  { intros r e w0 Hw0. unfold on_exception. intros [= <- <-].
    do 2 eexists. split; [done|]. cbn.
    by rewrite sleeps_app, log_if_trace_sleeps, Hw0. }
  unfold attempt, session_request.
  destruct (env_net E (requests w) GET u) as [r|msg].
  - destruct (method_fallback (status_code r)).
    + cbn [emit requests polls fs trace].
      destruct (env_net E (S (requests w)) POST u) as [r2|msg].
      * apply Hclassify. cbn. by rewrite !sleeps_app, !app_nil_r.
      * intros H. right. eapply Hexc; [|exact H]. cbn.
        by rewrite !sleeps_app, !app_nil_r.
    + apply Hclassify. cbn. by rewrite sleeps_app, app_nil_r.
  - intros H. right. eapply Hexc; [|exact H]. cbn. by rewrite sleeps_app, app_nil_r.
Qed.

Lemma attempts_loop_sleeps log u attempts todo r0 last_exc w w' res :
  attempts_loop E log u attempts todo r0 last_exc w = (w', res) →
  ∃ k, (k ≤ length todo)%nat ∧
       sleeps (trace w') = sleeps (trace w) ++ (backoff <$> take k todo) ∧
       ((∃ r, res = Ok r ∧ retryable (status_code r) = false) ∨ k = length todo).
Proof.
  revert r0 last_exc w. induction todo as [|a todo IH]; intros r0 last_exc w.
  - simpl. intros Hres. exists 0%nat. split; [done|]. split; [|by right].
    rewrite app_nil_r.
    destruct last_exc; [|destruct r0]; by injection Hres as <- _.
  - cbn [attempts_loop].
    destruct (attempt E log u attempts a r0 last_exc w) as [w1 fl] eqn:Hatt.
    apply attempt_sleeps in Hatt as [(r & -> & Hre & Hs)|(r' & le' & -> & Hs)].
    + intros [= <- <-]. exists 0%nat. split; [simpl; lia|].
      split; [by rewrite Hs, app_nil_r|]. left. by exists r.
    + intros (k & Hk & Hs' & Hend)%IH. exists (S k). split; [simpl; lia|].
      split; [|destruct Hend as [?|Hk']; [by left|right; by rewrite Hk']].
      rewrite Hs', Hs. cbn. by rewrite <- app_assoc.
Qed.

Lemma backoff_bounds (a : Z) : 1 ≤ a → 1 ≤ backoff a ∧ backoff a ≤ 8.
Proof.
  intros Ha. unfold backoff.
  assert (0 < 2 ^ (a - 1)) by (apply Z.pow_pos_nonneg; lia). lia.
Qed.

Lemma backoff_capped (a : Z) : 4 ≤ a → backoff a = 8.
Proof.
  intros Ha. unfold backoff.
  assert (2 ^ 3 ≤ 2 ^ (a - 1)) by (apply Z.pow_le_mono_r; lia).
  change (2 ^ 3) with 8 in *. lia.
Qed.

(** X9: the sleeps of [_request_with_fallback] are the backoffs of the
    attempts 1, 2, ... in order, one per attempt that did not return;
    unless a response that is not retryable was returned, every attempt
    was used and followed by its sleep, the last one included.  Each sleep
    lasts between 1 and 8 seconds, and 8 seconds from the fourth attempt
    on. *)
Theorem backoff_schedule (log : bool) (u : string) (attempts : Z) (w w' : World)
    (res : Result Response) :
  _request_with_fallback E log u attempts w = (w', res) →
  (∃ k, (k ≤ length (attempt_numbers attempts))%nat ∧
        sleeps (trace w') =
          sleeps (trace w) ++ (backoff <$> take k (attempt_numbers attempts)) ∧
        ((∃ r, res = Ok r ∧ retryable (status_code r) = false) ∨
         k = length (attempt_numbers attempts))) ∧
  Forall (λ s, 1 ≤ s ∧ s ≤ 8) (backoff <$> attempt_numbers attempts) ∧
  (∀ a, 4 ≤ a → backoff a = 8).
Proof.
  intros Hrun. split; [by apply attempts_loop_sleeps in Hrun|].
  split; [|apply backoff_capped].
  apply Forall_fmap, Forall_forall. intros a Ha%elem_of_seqZ.
  apply backoff_bounds. lia.
Qed.

Lemma log_if_trace_network log line w :
  network (trace (log_if log line w)) = network (trace w).
Proof. destruct log; simpl; [|done]. by rewrite network_app, app_nil_r. Qed.

(** An iteration sends a GET, possibly followed by a POST, both to [u]. *)
Lemma attempt_network log u attempts a r0 last_exc w w' fl :
  attempt E log u attempts a r0 last_exc w = (w', fl) →
  ∃ reqs, network (trace w') = network (trace w) ++ reqs ∧
          (reqs = [(GET, u)] ∨ reqs = [(GET, u); (POST, u)]) ∧
          requests w' = (requests w + length reqs)%nat.
Proof.
  assert (∀ r w0 reqs, network (trace w0) = network (trace w) ++ reqs →
            requests w0 = (requests w + length reqs)%nat →
            classify log u a attempts last_exc r w0 = (w', fl) →
            network (trace w') = network (trace w) ++ reqs ∧
            requests w' = (requests w + length reqs)%nat) as Hclassify.
  { intros r w0 reqs Hn Hr. unfold classify. destruct (retryable _); intros [= <- <-].
    - cbn. by rewrite network_app, log_if_trace_network, app_nil_r, log_if_requests.
    - done. }
  assert (∀ r e w0 reqs, network (trace w0) = network (trace w) ++ reqs →
            requests w0 = (requests w + length reqs)%nat →
            on_exception log u a attempts r e w0 = (w', fl) →
            network (trace w') = network (trace w) ++ reqs ∧
            requests w' = (requests w + length reqs)%nat) as Hexc.
  { intros r e w0 reqs Hn Hr. unfold on_exception. intros [= <- <-].
    cbn. by rewrite network_app, log_if_trace_network, app_nil_r, log_if_requests. }
  unfold attempt, session_request.
  destruct (env_net E (requests w) GET u) as [r|msg].
  - destruct (method_fallback (status_code r)).
    + cbn [emit requests polls fs trace].
      destruct (env_net E (S (requests w)) POST u) as [r2|msg]; intros H;
        exists [(GET, u); (POST, u)];
        [eapply Hclassify in H as [? ?]|eapply Hexc in H as [? ?]];
        try (split; [eassumption|split; [by right|eassumption]]);
        cbn; rewrite ?network_app; cbn; rewrite <- ?app_assoc, ?app_nil_r; try done; lia.
    + intros H. exists [(GET, u)].
      eapply Hclassify in H as [? ?];
        try (split; [eassumption|split; [by left|eassumption]]);
        cbn; rewrite ?network_app; cbn; try done; lia.
  - intros H. exists [(GET, u)].
    eapply Hexc in H as [? ?];
      try (split; [eassumption|split; [by left|eassumption]]);
      cbn; rewrite ?network_app; cbn; try done; lia.
Qed.

Lemma attempts_loop_network log u attempts todo r0 last_exc w w' res :
  attempts_loop E log u attempts todo r0 last_exc w = (w', res) →
  ∃ reqs, network (trace w') = network (trace w) ++ reqs ∧
          Forall (λ mu, mu.2 = u) reqs ∧
          (length reqs ≤ 2 * length todo)%nat ∧
          requests w' = (requests w + length reqs)%nat.
Proof.
  revert r0 last_exc w. induction todo as [|a todo IH]; intros r0 last_exc w.
  - simpl. intros Hres. exists []. rewrite app_nil_r.
    destruct last_exc; [|destruct r0]; injection Hres as <- _; repeat split; auto.
  - cbn [attempts_loop].
    destruct (attempt E log u attempts a r0 last_exc w) as [w1 fl] eqn:Hatt.
    apply attempt_network in Hatt as (reqs & Hn & Hshape & Hr).
    assert (Forall (λ mu : Method * string, mu.2 = u) reqs ∧ (length reqs ≤ 2)%nat)
      as [Hall Hlen].
    { destruct Hshape as [-> | ->]; split; repeat constructor. }
    destruct fl as [r|r' le'].
    + intros [= <- <-]. exists reqs. repeat split; auto. simpl. lia.
    + intros (reqs' & Hn' & Hall' & Hlen' & Hr')%IH. exists (reqs ++ reqs').
      split; [by rewrite Hn', Hn, app_assoc|]. split; [by apply Forall_app|].
      rewrite List.length_app. simpl. lia.
Qed.

(** X10: [_request_with_fallback] only ever contacts the URL it was given:
    it sends between one and [2 * max(1, attempts)] requests, all to that
    URL, and neither touches a file nor reads the cancellation flag. *)
Theorem requests_stay_on_url (log : bool) (u : string) (attempts : Z) (w w' : World)
    (res : Result Response) :
  _request_with_fallback E log u attempts w = (w', res) →
  ∃ reqs, network (trace w') = network (trace w) ++ reqs ∧
          Forall (λ mu, mu.2 = u) reqs ∧
          (1 ≤ length reqs)%nat ∧
          (length reqs ≤ 2 * Z.to_nat (Z.max 1 attempts))%nat ∧
          requests w' = (requests w + length reqs)%nat ∧
          fs w' = fs w ∧ polls w' = polls w.
Proof.
  intros Hrun.
  pose proof (attempts_loop_same_disk E _ _ _ _ _ _ _ _ _ Hrun) as [Hfs Hpolls].
  pose proof (at_least_one_request log u attempts w w' res Hrun) as Hlt.
  apply attempts_loop_network in Hrun as (reqs & Hn & Hall & Hlen & Hr).
  exists reqs. split; [done|]. split; [done|]. split; [lia|].
  split; [|done]. unfold attempt_numbers in Hlen. rewrite length_seqZ in Hlen. lia.
Qed.

(** Once an exception has been recorded, the loop can only end with a
    response that is not retryable or with an exception. *)
Lemma attempts_loop_after_exception log u attempts todo r0 e w w' res :
  attempts_loop E log u attempts todo r0 (Some e) w = (w', res) →
  (∃ r, res = Ok r ∧ retryable (status_code r) = false) ∨ (∃ e', res = Err e').
Proof.
  revert r0 e w. induction todo as [|a todo IH]; intros r0 e w.
  - simpl. intros [= <- <-]. right. by eexists.
  - cbn [attempts_loop].
    destruct (attempt E log u attempts a r0 (Some e) w) as [w1 fl] eqn:Hatt.
    pose proof (attempt_sleeps _ _ _ _ _ _ _ _ _ Hatt) as Hs.
    pose proof (attempt_flow E _ _ _ _ _ _ _ _ _ Hatt) as (_ & _ & Hfl).
    destruct fl as [r|r' le'].
    + intros [= <- <-]. left. exists r. split; [done|].
      destruct Hs as [(r1 & [= <-] & Hre & _)|(? & ? & ? & _)]; done.
    + destruct Hfl as [[r Hr]|(r1 & le1 & [= <- <-] & Hle)]; [done|].
      assert (∃ e1, le' = Some e1) as [e1 ->].
      { destruct Hle as [Hs'|(e1 & _ & ->)]; [|by eexists].
        unfold settled in Hs'. destruct le' as [e1|]; [by eexists|].
        (* a settled state without exception cannot follow one with *)
        exfalso. unfold attempt, session_request, classify, on_exception in Hatt.
        destruct (env_net E (requests w) GET u) as [r|msg];
          [destruct (method_fallback (status_code r));
           [cbn [emit requests polls fs trace] in Hatt;
            destruct (env_net E (S (requests w)) POST u) as [r2|msg]|]|];
          repeat match type of Hatt with
                 | context [if ?b then _ else _] => destruct b
                 end; by injection Hatt. }
      apply IH.
Qed.

(** X11: when the first request of [_request_with_fallback] raises a
    network error, the function never hands back a retryable response:
    it returns a response that is not retryable or raises, even if the
    last attempts were answered with 5xx or 429; and when no later request
    raises, the error raised is that first one. *)
Theorem first_exception_outlives_responses (log : bool) (u : string) (attempts : Z)
    (w w' : World) (res : Result Response) (msg : string) :
  env_net E (requests w) GET u = Raise msg →
  _request_with_fallback E log u attempts w = (w', res) →
  ((∃ r, res = Ok r ∧ retryable (status_code r) = false) ∨ (∃ e', res = Err e')) ∧
  ((∀ n m, (requests w < n)%nat → ∃ r, env_net E n m u = Resp r) →
   (∃ r, res = Ok r ∧ retryable (status_code r) = false) ∨
   res = Err (RequestError msg)).
Proof.
  intros Hraise. unfold _request_with_fallback.
  destruct (attempt_numbers_first attempts) as [rest ->].
  rewrite (loop_get_raise E log u attempts 1 rest None None w msg Hraise).
  intros Hloop. split; [by apply attempts_loop_after_exception in Hloop|].
  intros Hlater. revert Hloop.
  set (w1 := slept _ _ _ _).
  assert (requests w < requests w1)%nat as Hlt by (subst w1; cbn; rewrite log_if_requests; cbn; lia).
  clearbody w1. generalize (@None Response) as r0.
  revert w1 Hlt. induction rest as [|a rest IH]; intros w1 Hlt r0.
  - simpl. intros [= <- <-]. by right.
  - cbn [attempts_loop]. unfold attempt, session_request.
    destruct (Hlater (requests w1) GET Hlt) as [r ->].
    destruct (method_fallback (status_code r)).
    + cbn [emit requests polls fs trace].
      destruct (Hlater (S (requests w1)) POST ltac:(lia)) as [r2 ->].
      unfold classify. destruct (retryable (status_code r2)) eqn:Hre.
      * apply IH. cbn. rewrite log_if_requests. cbn. lia.
      * intros [= <- <-]. left. by exists r2.
    + unfold classify. destruct (retryable (status_code r)) eqn:Hre.
      * apply IH. cbn. rewrite log_if_requests. cbn. lia.
      * intros [= <- <-]. left. by exists r.
Qed.

End RetryPolicy.

(** ** What resolution touches *)

Section ResolveFrame.

Context (E : Env).

(** X12: [_resolve_media_response] changes no file and never reads the
    cancellation flag; it sends at most twelve requests, first to the URL
    it was given and then, if at all, to one other address, and when it
    contacted that address and returns a response, that address is the
    final URL it reports. *)
Theorem resolve_contacts_two_urls (log : bool) (u : string) (w w' : World)
    (res : Result (Response * string)) :
  _resolve_media_response E log u w = (w', res) →
  fs w' = fs w ∧ polls w' = polls w ∧
  ∃ reqs1 reqs2 target,
    network (trace w') = network (trace w) ++ reqs1 ++ reqs2 ∧
    Forall (λ mu, mu.2 = u) reqs1 ∧
    Forall (λ mu, mu.2 = target) reqs2 ∧
    (length reqs1 + length reqs2 ≤ 12)%nat ∧
    (reqs2 ≠ [] → ∀ r final_url, res = Ok (r, final_url) → final_url = target).
Proof.
  intros Hrun.
  destruct (resolve_same_disk E _ _ _ _ _ Hrun) as [Hfs Hpolls].
  split; [done|]. split; [done|].
  unfold _resolve_media_response in Hrun.
  destruct (_request_with_fallback E log u 3 w) as [w1 res1] eqn:H1.
  destruct (attempts_loop_network E _ _ _ _ _ _ _ _ _ H1) as (reqs1 & Hn1 & Hall1 & Hlen1 & _).
  change (length (attempt_numbers 3)) with 3%nat in Hlen1.
  assert (∀ res0 : Result (Response * string),
            ∃ reqs1 reqs2 target,
              network (trace w1) = network (trace w) ++ reqs1 ++ reqs2 ∧
              Forall (λ mu, mu.2 = u) reqs1 ∧
              Forall (λ mu : Method * string, mu.2 = target) reqs2 ∧
              (length reqs1 + length reqs2 ≤ 12)%nat ∧
              (reqs2 ≠ [] → ∀ r final_url, res0 = Ok (r, final_url) → final_url = target))
    as Hsame.
  { intros res0. exists reqs1, [], u. rewrite app_nil_r.
    split; [done|]. split; [done|]. split; [constructor|]. split; [simpl; lia|done]. }
  destruct res1 as [r|e]; [|injection Hrun as <- <-; apply Hsame].
  destruct (terminal_status _); [injection Hrun as <- <-; apply Hsame|].
  destruct (_looks_like_media_contenttype _); [injection Hrun as <- <-; apply Hsame|].
  destruct (read_for_parsing r) as [text r'].
  destruct (truthy_url _); [|injection Hrun as <- <-; apply Hsame].
  set (target := default EmptyString (find_indirection E text)) in *.
  destruct (_request_with_fallback E log target 3 (emit (Close r') w1)) as [w3 res3] eqn:H2.
  destruct (attempts_loop_network E _ _ _ _ _ _ _ _ _ H2) as (reqs2 & Hn2 & Hall2 & Hlen2 & _).
  change (length (attempt_numbers 3)) with 3%nat in Hlen2.
  assert (w' = w3) as -> by (destruct res3; by injection Hrun).
  exists reqs1, reqs2, target. split.
  { rewrite Hn2. cbn. rewrite network_app, app_nil_r, Hn1. by rewrite <- app_assoc. }
  split; [done|]. split; [done|]. split; [lia|].
  intros _ r0 fu ->. destruct res3; by injection Hrun.
Qed.

End ResolveFrame.

(** ** The body prefix read for parsing *)

Section ParsingPrefix.

Lemma len_app (a b : string) : PyPath.len (a +:+ b) = PyPath.len a + PyPath.len b.
Proof. unfold PyPath.len. rewrite length_app. lia. Qed.

Lemma concat_chunks_cons (c : string) (cs : list string) :
  concat_chunks (c :: cs) = c +:+ concat_chunks cs.
Proof. done. Qed.

Lemma read_chunks_prefix (content : string) (chunks : list string) :
  PyPath.len content ≤ 1024 * 1024 →
  Forall (λ c, PyPath.len c ≤ 65536) chunks →
  ∃ k, (k ≤ length chunks)%nat ∧
       (read_chunks content chunks).1 = content +:+ concat_chunks (take k chunks) ∧
       PyPath.len (read_chunks content chunks).1 ≤ 1024 * 1024 + 65536 ∧
       (((read_chunks content chunks).2 = Some (drop k chunks) ∧
         1024 * 1024 < PyPath.len (read_chunks content chunks).1) ∨
        ((read_chunks content chunks).2 = None ∧ k = length chunks ∧
         PyPath.len (read_chunks content chunks).1 ≤ 1024 * 1024)).
Proof.
  intros Hlen Hchunks. revert content Hlen.
  induction Hchunks as [|c chunks Hc Hchunks IH]; intros content Hlen.
  - exists 0%nat. cbn. rewrite append_empty_r. split; [done|]. split; [done|].
    split; [lia|]. by right.
  - cbn [read_chunks].
    assert ((if Re.nonempty c then content +:+ c else content) = content +:+ c) as ->.
    { destruct c; [by rewrite append_empty_r|done]. }
    case_decide as Hbig.
    + exists 1%nat. cbn [fst snd take drop concat_chunks foldr length].
      rewrite append_empty_r. split; [lia|]. split; [done|].
      rewrite len_app in *. split; [lia|]. left. split; [done|lia].
    + destruct (IH (content +:+ c)) as (k & Hk & Hcontent & Hbound & Hrest); [lia|].
      exists (S k). split; [simpl; lia|]. split.
      { rewrite Hcontent. cbn [take]. by rewrite concat_chunks_cons, append_assoc. }
      split; [done|]. destruct Hrest as [[? ?]|(? & -> & ?)]; [by left|by right].
Qed.

(** X13: reading a fresh response for parsing collects a prefix of the
    body made of whole chunks; with chunks of at most 64 KiB it holds at
    most 1 MiB plus 64 KiB; a body of up to 1 MiB is read entirely, and
    otherwise the chunks not read stay in the stream of the response. *)
Theorem read_for_parsing_prefix (r : Response) (chunks : list string) (raises : bool) :
  stream r = Unread chunks raises →
  Forall (λ c, PyPath.len c ≤ 65536) chunks →
  ∃ k, (k ≤ length chunks)%nat ∧
       (read_for_parsing r).1 = concat_chunks (take k chunks) ∧
       PyPath.len (read_for_parsing r).1 ≤ 1024 * 1024 + 65536 ∧
       (PyPath.len (concat_chunks chunks) ≤ 1024 * 1024 →
        (read_for_parsing r).1 = concat_chunks chunks) ∧
       (1024 * 1024 < PyPath.len (read_for_parsing r).1 →
        stream (read_for_parsing r).2 = Unread (drop k chunks) raises).
Proof.
  intros Hstream Hchunks.
  destruct (read_chunks_prefix EmptyString chunks) as (k & Hk & Hcontent & Hbound & Hrest);
    [unfold PyPath.len; simpl; lia|done|].
  rewrite append_nil in Hcontent.
  unfold read_for_parsing. rewrite Hstream. cbn [iter_content].
  destruct (read_chunks EmptyString chunks) as [content rest] eqn:Hread.
  cbn [fst snd] in *. exists k. split; [done|].
  assert (∀ r1 r2 : Response,
            (match rest with
             | Some rest' => (content, r1)
             | None => (content, r2)
             end).1 = content) as Hfst by (intros; by destruct rest).
  destruct rest as [rest'|]; cbn [fst snd].
  - destruct Hrest as [[[= ->] Hbig]|[? _]]; [|done].
    split; [done|]. split; [done|]. split.
    + intros Hsmall. exfalso.
      assert (PyPath.len content ≤ PyPath.len (concat_chunks chunks)); [|lia].
      rewrite Hcontent. rewrite <- (List.firstn_skipn k chunks) at 2.
      clear. induction (take k chunks) as [|c cs IH].
      * unfold PyPath.len. simpl. lia.
      * rewrite <- app_comm_cons, !concat_chunks_cons, !len_app. lia.
    + intros _. reflexivity.
  - destruct Hrest as [[? _]|(_ & -> & Hsmall)]; [done|].
    split; [done|]. split; [done|]. rewrite firstn_all in Hcontent. split; [done|lia].
Qed.

End ParsingPrefix.

(** ** The storage address found in a wrapper text *)

Section StorageAddress.

Import PyStr.

Lemma startswith_app (p s : string) :
  startswith p s = true → s = p +:+ Re.drop (String.length p) s.
Proof.
  revert s. induction p as [|a p IH]; intros s; [done|].
  destruct s as [|b s]; [done|]. cbn [startswith].
  intros [Hab Hp]%andb_true_iff. apply eqb_char_eq in Hab as ->.
  rewrite append_cons. cbn [String.length Re.drop]. f_equal. by apply IH.
Qed.

Lemma take_while_split (p : ascii → bool) (s : string) :
  ∃ rest, s = Re.take_while p s +:+ rest ∧ all_chars p (Re.take_while p s) = true.
Proof.
  induction s as [|c s (rest & Hs & Hall)]; [by exists EmptyString|].
  cbn [Re.take_while]. destruct (p c) eqn:Hc.
  - exists rest. rewrite append_cons. split; [by f_equal|]. cbn. by rewrite Hc.
  - by exists (String c s).
Qed.

Lemma contains_cons (p : string) (c : ascii) (s : string) :
  contains p s = true → contains p (String c s) = true.
Proof. intros H. cbn [contains]. rewrite H. apply orb_true_r. Qed.

Lemma contains_app_l (p a s : string) :
  contains p s = true → contains p (a +:+ s) = true.
Proof.
  intros H. induction a as [|c a IH]; [done|]. rewrite append_cons.
  by apply contains_cons.
Qed.

Lemma contains_startswith (p s : string) : startswith p s = true → contains p s = true.
Proof. intros H. destruct s; cbn [contains]; [done|]. by rewrite H. Qed.

Lemma amazonaws_inside_contains (run : string) :
  Re.amazonaws_inside run = true → contains "amazonaws" run = true.
Proof.
  induction run as [|c run IH]; [done|]. cbn [Re.amazonaws_inside].
  intros [[H _]%andb_true_iff|H]%orb_true_iff; apply contains_cons.
  - by apply contains_startswith.
  - by apply IH.
Qed.

Lemma all_chars_app (p : ascii → bool) (a b : string) :
  all_chars p (a +:+ b) = (all_chars p a && all_chars p b)%bool.
Proof.
  induction a as [|c a IH]; [done|]. rewrite append_cons. cbn [all_chars].
  by rewrite IH, andb_assoc.
Qed.

(** X14: an address found by the storage pattern occurs in the text,
    starts with [https://], contains [amazonaws], and holds neither
    whitespace nor a quote. *)
Theorem search_amazonaws_sound (text m : string) :
  Re.search_amazonaws text = Some m →
  (∃ pre post, text = pre +:+ m +:+ post) ∧
  startswith "https://" m = true ∧
  contains "amazonaws" m = true ∧
  all_chars Re.url_char m = true.
Proof.
  unfold Re.search_amazonaws. intros (pre & t & -> & Hat)%search_at.
  unfold Re.amazonaws_at in Hat.
  destruct (startswith "https://" t) eqn:Hstart; [|done].
  apply startswith_app in Hstart. cbn [String.length] in Hstart.
  destruct (take_while_split Re.url_char (Re.drop 8 t)) as (rest & Hrest & Hall).
  set (run := Re.take_while Re.url_char (Re.drop 8 t)) in *. clearbody run.
  destruct (Re.amazonaws_inside run) eqn:Hinside; [|done]. injection Hat as <-.
  split; [|split; [|split]].
  - exists pre, rest. f_equal. rewrite append_assoc. rewrite Hstart at 1.
    f_equal. exact Hrest.
  - done.
  - apply contains_app_l. by apply amazonaws_inside_contains.
  - rewrite all_chars_app, Hall. done.
Qed.

End StorageAddress.

(** ** Counters and the list of failed positions *)

Section Counting.

Context (E : Env) (d : Dirs).

(** With a named source the transcoder step raises nothing. *)
Lemma ensure_never_raises (src : Path) (w : World) :
  PyPath.name src ≠ EmptyString →
  ∃ w' res, _ensure_h264_mp4 E src w = (w', Ok res).
Proof.
  intros Hname. unfold _ensure_h264_mp4. destruct (negb (_has_ffmpeg E)); [by eexists _, _|].
  rewrite with_suffix_mp4 by done.
  destruct (_convert_to_h264_mp4 _ _ _ _ _) as [w2 ok1]. destruct (negb ok1); [by eexists _, _|].
  destruct (swap_into_place _ _ _ _) as [w3 res]. by eexists _, _.
Qed.

(** Every item either succeeds and adds one to [ok], or leaves the [try]
    block with an exception and [ok] as it was. *)
Lemma process_item_outcome i idx u media_text ok0 w w' ok' exn :
  process_item E d i idx u media_text ok0 w = (w', ok', exn) →
  (exn = None ∧ ok' = ok0 + 1) ∨ (∃ e, exn = Some e ∧ ok' = ok0).
Proof.
  unfold process_item.
  destruct (_resolve_media_response E false u w) as [w1 [[r final_url]|e]];
    [|intros [= <- <- <-]; right; by eexists].
  destruct (if error_status (status_code r) then _ else _) as [w2 r2].
  destruct (error_status (status_code r) && raises_for_status (status_code r))%bool;
    [intros [= <- <- <-]; right; by eexists|].
  destruct (negb (_looks_like_media_contenttype _));
    [intros [= <- <- <-]; right; by eexists|].
  destruct (final_dest E d idx media_text r2 final_url) as [dest|] eqn:Hdest;
    [|intros [= <- <- <-]; right; by eexists].
  destruct (save_stream E dest r2 w2) as [w3 [e|]];
    [intros [= <- <- <-]; right; by eexists|].
  destruct (is_video_item media_text); [|intros [= <- <- <-]; by left].
  unfold normalize_video.
  destruct (ensure_never_raises dest
              (emit (Log ("[OK] #" +:+ pretty idx +:+ " -> " +:+ PyPath.name dest)) w3))
    as (w5 & res & ->); [by eapply final_dest_named|].
  destruct res as [final_path|]; [intros [= <- <- <-]; by left|].
  destruct (negb (_has_ffmpeg E)); intros [= <- <- <-]; by left.
Qed.

Lemma sublist_sorted (l k : list Z) :
  l `sublist_of` k → StronglySorted Z.lt k → StronglySorted Z.lt l.
Proof.
  induction 1 as [|x l k Hlk IH|x l k Hlk IH]; intros Hk; [done|..].
  - apply StronglySorted_inv in Hk as [Hk Hx]. constructor; [by apply IH|].
    apply Forall_forall. intros y Hy. apply (proj1 (Forall_forall _ _) Hx).
    by eapply sublist_subseteq.
  - apply StronglySorted_inv in Hk as [Hk _]. by apply IH.
Qed.

(** The loop invariant: what the counters and the caller's list gained. *)
Lemma run_items_counts (work : list WorkItem) (c c' : Counters) (w w' : World) :
  run_items E d work c w = (w', c') →
  ∃ (processed : nat) (failed : list Z),
    (processed ≤ length work)%nat ∧
    ok c' + fail c' = ok c + fail c + Z.of_nat processed ∧
    ok c ≤ ok c' ∧
    fail c' = fail c + Z.of_nat (length failed) ∧
    failed_out c' = (λ l, l ++ failed) <$> failed_out c ∧
    failed `sublist_of` positions work ∧
    (env_stop_at E = None → processed = length work).
Proof.
  revert c w. induction work as [|[i [idx [u media_text]]] work IH]; intros c w.
  - cbn. intros [= <- <-]. exists 0%nat, []. split; [done|]. split; [lia|].
    split; [lia|]. split; [simpl; lia|]. split.
    { destruct (failed_out c); cbn; by rewrite ?app_nil_r. }
    split; [constructor|done].
  - cbn [run_items]. destruct (is_set E w) as [w1 stop] eqn:Hset. destruct stop.
    + intros [= <- <-]. exists 0%nat, []. split; [lia|]. split; [lia|].
      split; [lia|]. split; [simpl; lia|]. split.
      { destruct (failed_out c); cbn; by rewrite ?app_nil_r. }
      split; [apply sublist_nil_l|].
      intros Hnone. unfold is_set in Hset. rewrite Hnone in Hset. by injection Hset.
    + destruct (process_item E d i idx u media_text (ok c) w1) as [[w2 ok'] exn] eqn:Hitem.
      apply process_item_outcome in Hitem as [[-> ->]|(e & -> & ->)].
      * intros (processed & failed & Hp & Hsum & Hok & Hfail & Hlist & Hsub & Hall)%IH.
        cbn [ok fail failed_out] in *.
        exists (S processed), failed. split; [simpl; lia|]. split; [lia|].
        split; [lia|]. split; [done|]. split; [done|].
        split; [by apply sublist_cons|].
        intros Hnone. by rewrite Hall.
      * cbn [record_failure].
        intros (processed & failed & Hp & Hsum & Hok & Hfail & Hlist & Hsub & Hall)%IH.
        cbn [ok fail failed_out] in *.
        exists (S processed), (idx :: failed). split; [simpl; lia|]. split; [lia|].
        split; [lia|]. split; [simpl; lia|]. split.
        { rewrite Hlist. destruct (failed_out c); cbn; [|done].
          by rewrite <- app_assoc. }
        split; [by apply sublist_skip|].
        intros Hnone. by rewrite Hall.
Qed.

End Counting.

(** ** Whole runs: counters, failed positions and the retry selection *)

Section Totals.

Context (E : Env).

Lemma positions_enumerate1 (work : list (Z * (string * string))) :
  positions (enumerate1 work) = work.*1.
Proof.
  unfold positions, enumerate1.
  transitivity ((zip (seqZ 1 (Z.of_nat (length work))) work).*2.*1).
  - by rewrite <- list_fmap_compose.
  - f_equal. apply snd_zip. rewrite length_seqZ. lia.
Qed.

(** The positions of a work list ascend strictly within the index. *)
Lemma work_positions_ascending (limit : option Z) (indices_text : option string)
    (items : list (string * string)) :
  StronglySorted Z.lt (build_work limit indices_text items).*1 ∧
  Forall (λ k, 1 ≤ k ∧ k ≤ Z.of_nat (length items)) (build_work limit indices_text items).*1.
Proof.
  rewrite build_work_cases.
  destruct (selected_indices indices_text (Z.of_nat (length items))) as [|i0 sel] eqn:Hsel.
  - destruct (limited_prefix limit items) as [n ->]. rewrite enumerate1_positions.
    split; [apply seqZ_ascending|].
    apply Forall_forall. intros k Hk%elem_of_seqZ. rewrite length_take in Hk. lia.
  - assert (StronglySorted Z.lt (i0 :: sel) ∧
            Forall (λ idx, 1 ≤ idx ∧ idx ≤ Z.of_nat (length items)) (i0 :: sel))
      as [Hsorted Hbounds].
    { rewrite <- Hsel. unfold selected_indices. destruct indices_text as [text|];
        [|split; constructor]. destruct (Re.nonempty text); [|split; constructor].
      split; [apply sorted_ascending|].
      apply Forall_forall. intros k Hk%elem_of_sorted.
      by apply (selected_in_bounds text (Z.of_nat (length items))). }
    destruct (selection_work items (i0 :: sel) Hbounds) as [Hpos _].
    cbn zeta in Hpos. by rewrite Hpos.
Qed.

(** Sorting the set of an ascending list gives the list back. *)
Lemma sorted_of_ascending (l : list Z) :
  StronglySorted Z.lt l → sorted (list_to_set l) = l.
Proof.
  intros Hl. apply (StronglySorted_unique_strong Z.lt).
  - intros x1 x2 _ _ ? ?. lia.
  - apply sorted_ascending.
  - done.
  - rewrite sorted_perm. apply elements_list_to_set.
    clear -Hl. induction Hl as [|x l Hl IH Hx]; constructor; [|done].
    intros Hin. pose proof (proj1 (Forall_forall _ _) Hx x Hin). lia.
Qed.

(** X15: a run that found work counts every item it processed exactly
    once, as downloaded or as failed; the two counters never exceed the
    number of memories announced, and add up to it when the run is not
    cancelled. *)
Theorem download_all_counts (root_dir : Path) (limit : option Z)
    (indices_text : option string) (failed_out0 : option (list Z))
    (items : list (string * string)) (w w' : World) (c : Counters) :
  download_all E root_dir limit indices_text failed_out0 items w = Some (w', c) →
  let total := Z.of_nat (length (build_work limit indices_text items)) in
  0 ≤ ok c ∧ 0 ≤ fail c ∧ ok c + fail c ≤ total ∧
  (env_stop_at E = None → ok c + fail c = total).
Proof.
  unfold download_all. cbn zeta.
  destruct (build_work limit indices_text items) as [|e work] eqn:Hwork; [done|].
  destruct (run_items E _ _ _ _) as [w1 c1] eqn:Hrun.
  destruct (is_set E w1) as [w2 stopped]. intros [= _ <-].
  apply run_items_counts in Hrun
    as (processed & failed & Hp & Hsum & Hok & Hfail & _ & _ & Hall).
  cbn [ok fail] in *. unfold WorkItem in *. rewrite length_enumerate1 in Hp, Hall.
  split; [lia|]. split; [lia|]. split; [lia|].
  intros Hnone. specialize (Hall Hnone). lia.
Qed.

(** X16: the caller's list is emptied and then receives the positions of
    the failed items, in the order of the work list and as many as the
    [fail] counter says; the selection text that the retry button builds
    from a non-empty list makes the next run work on exactly these
    positions, whatever the limit. *)
Theorem failed_list_retry (root_dir : Path) (limit : option Z)
    (indices_text : option string) (previous : list Z)
    (items : list (string * string)) (w w' : World) (c : Counters) :
  download_all E root_dir limit indices_text (Some previous) items w = Some (w', c) →
  ∃ failed,
    failed_out c = Some failed ∧
    Z.of_nat (length failed) = fail c ∧
    failed `sublist_of` (build_work limit indices_text items).*1 ∧
    (failed ≠ [] →
     ∀ limit', (build_work limit' (Some (retry_text failed)) items).*1 = failed).
Proof.
  unfold download_all. cbn zeta.
  pose proof (work_positions_ascending limit indices_text items) as [Hasc Hbounds].
  destruct (build_work limit indices_text items) as [|e work] eqn:Hwork; [done|].
  destruct (run_items E _ _ _ _) as [w1 c1] eqn:Hrun.
  destruct (is_set E w1) as [w2 stopped]. intros [= _ <-].
  apply run_items_counts in Hrun
    as (processed & failed & _ & _ & _ & Hfail & Hlist & Hsub & _).
  cbn [ok fail failed_out] in *. rewrite positions_enumerate1 in Hsub.
  exists failed. split; [done|]. split; [lia|]. split; [done|].
  intros Hne limit'.
  assert (Forall (λ k, 1 ≤ k ∧ k ≤ Z.of_nat (length items)) failed) as Hfb.
  { apply Forall_forall. intros k Hk.
    apply (proj1 (Forall_forall _ _) Hbounds). by eapply sublist_subseteq. }
  assert (sorted (list_to_set failed) = failed) as Hsorted
    by (by eapply sorted_of_ascending, sublist_sorted).
  assert (_parse_indices (retry_text failed) (Z.of_nat (length items)) = failed) as Hparse.
  { unfold _parse_indices, retry_text. rewrite Hsorted. rewrite <- Hsorted at 2.
    f_equal. apply set_eq. intros k. rewrite elem_of_selected_join by done.
    by rewrite elem_of_list_to_set. }
  assert (Re.nonempty (retry_text failed) = true) as Htext.
  { unfold retry_text. rewrite Hsorted. destruct failed as [|z rest]; [done|].
    apply Forall_cons in Hfb as [Hz _].
    destruct (pretty_pos_digits z) as [_ Hp]; [lia|].
    cbn [fmap list_fmap]. destruct (pretty z) as [|ch t] eqn:Hz'; [done|].
    destruct rest; [done|]. cbn [fmap list_fmap]. by rewrite join_cons. }
  rewrite build_work_cases. unfold selected_indices. rewrite Htext, Hparse.
  destruct failed as [|z rest]; [done|].
  by apply selection_work.
Qed.

End Totals.

(** ** Where a run writes *)

Section Frame.

Context (E : Env) (d : Dirs).

Lemma with_suffix_parent (nt : bool) (p q : Path) (suf : string) :
  PyPath.with_suffix nt p suf = Some q → PyPath.parent q = PyPath.parent p.
Proof.
  unfold PyPath.with_suffix.
  destruct (PyStr.has_char "/" suf || nt && PyStr.has_char "\" suf)%bool; [done|].
  destruct (Re.nonempty suf && negb (PyStr.startswith "." suf) || String.eqb suf ".")%bool;
    [done|].
  destruct (negb (Re.nonempty (PyPath.name p))); [done|]. by intros [= <-].
Qed.

(** The conversion writes to its output path only. *)
Lemma convert_frame (src dst : Path) (copy_if_h264 : bool) (w w' : World) (done' : bool) :
  _convert_to_h264_mp4 E src dst copy_if_h264 w = (w', done') →
  ∀ p, p ≠ dst → fs w' !! p = fs w !! p.
Proof.
  unfold _convert_to_h264_mp4. destruct (env_ffmpeg E); [|by intros [= <- <-]].
  destruct (fs w !! src) as [content|]; [|by intros [= <- <-]].
  destruct (env_run E _ content) as [output|[partial|]]; intros [= <- <-] p Hp; cbn;
    by rewrite ?lookup_insert_ne.
Qed.

Lemma unlink_if_exists_other (q p : Path) (w : World) :
  p ≠ q → fs (unlink_if_exists q w) !! p = fs w !! p.
Proof. intros Hp. rewrite unlink_if_exists_fs. by apply lookup_delete_ne. Qed.

Lemma swap_frame (src temp final : Path) (w w' : World) (res : option Path) :
  swap_into_place src temp final w = (w', res) →
  ∀ p, p ≠ src → p ≠ temp → p ≠ final → fs w' !! p = fs w !! p.
Proof.
  unfold swap_into_place, replace.
  destruct (fs (unlink_if_exists final w) !! temp) as [content|].
  - intros [= <- <-] p Hsrc Htemp Hfinal.
    destruct (file_exists src _ && negb (bool_decide (src = final)))%bool; cbn;
      rewrite ?lookup_delete_ne, lookup_insert_ne, lookup_delete_ne by done;
      by apply unlink_if_exists_other.
  - intros [= <- <-] p Hsrc Htemp Hfinal. cbn. by apply unlink_if_exists_other.
Qed.

(** The transcoder touches files in the directory of its source only. *)
Lemma ensure_frame (src : Path) (w w' : World) (res : Result (option Path)) :
  _ensure_h264_mp4 E src w = (w', res) →
  ∀ p, PyPath.parent p ≠ PyPath.parent src → fs w' !! p = fs w !! p.
Proof.
  unfold _ensure_h264_mp4. destruct (negb (_has_ffmpeg E)); [by intros [= <- <-]|].
  destruct (PyPath.with_suffix (env_nt E) src ".mp4") as [final|] eqn:Hfinal;
    [|by intros [= <- <-]].
  apply with_suffix_parent in Hfinal.
  destruct (_convert_to_h264_mp4 _ _ _ _ _) as [w2 done'] eqn:Hconv.
  intros Hrun p Hp.
  assert (p ≠ src) as Hsrc by (by intros ->).
  assert (p ≠ final) as Hp_final by (intros ->; by rewrite Hfinal in Hp).
  assert (p ≠ temp_sibling final) as Htemp by (intros ->; cbn in Hp; by rewrite Hfinal in Hp).
  pose proof (convert_frame _ _ _ _ _ _ Hconv p Htemp) as Hc.
  rewrite unlink_if_exists_other in Hc by done.
  destruct (negb done').
  - injection Hrun as <- <-. by rewrite unlink_if_exists_other.
  - destruct (swap_into_place _ _ _ _) as [w3 r3] eqn:Hswap. injection Hrun as <- <-.
    by rewrite (swap_frame _ _ _ _ _ _ Hswap p Hsrc Htemp Hp_final).
Qed.

Lemma final_dest_parent idx media_text r final_url dest :
  final_dest E d idx media_text r final_url = Some dest →
  PyPath.parent dest = dir_of (folder_of d media_text).
Proof.
  unfold final_dest. destruct (negb _).
  - by intros ->%with_suffix_parent.
  - by intros [= <-].
Qed.

Lemma save_stream_frame dest r w w' exn :
  save_stream E dest r w = (w', exn) → ∀ p, p ≠ dest → fs w' !! p = fs w !! p.
Proof.
  unfold save_stream. destruct (iter_content _ _) as [[chunks raises]|].
  - intros [_ Hfs]%write_chunks_frame p Hp. rewrite Hfs by done. cbn.
    by rewrite lookup_insert_ne.
  - intros [= <- <-] p Hp. cbn. by rewrite lookup_insert_ne.
Qed.

Lemma normalize_frame dest w w' exn :
  normalize_video E dest w = (w', exn) →
  ∀ p, PyPath.parent p ≠ PyPath.parent dest → fs w' !! p = fs w !! p.
Proof.
  unfold normalize_video.
  destruct (_ensure_h264_mp4 E dest w) as [w1 [[final|]|e]] eqn:Hrun;
    pose proof (ensure_frame _ _ _ _ Hrun) as Hfs.
  - by intros [= <- <-].
  - destruct (negb (_has_ffmpeg E)); by intros [= <- <-].
  - by intros [= <- <-].
Qed.

(** One item writes under the debug directory and under the folder of its
    kind, and nowhere else. *)
Lemma process_item_frame i idx u media_text ok0 w w' ok' exn :
  process_item E d i idx u media_text ok0 w = (w', ok', exn) →
  ∀ p, PyPath.parent p ≠ dir_of (debug_dir d) →
       PyPath.parent p ≠ dir_of (folder_of d media_text) →
       fs w' !! p = fs w !! p.
Proof.
  unfold process_item.
  destruct (_resolve_media_response E false u w) as [w1 [[r final_url]|e]] eqn:Hres;
    apply resolve_same_disk in Hres as [Hdisk _];
    [|intros [= <- <- <-] p _ _; by rewrite Hdisk].
  destruct (if error_status (status_code r) then _ else _) as [w2 r2] eqn:Hdump.
  intros Hrun p Hdebug Hfolder.
  assert (fs w2 !! p = fs w !! p) as Hw2.
  { destruct (error_status (status_code r)).
    - destruct (read_text r) as [text r']. injection Hdump as <- <-. cbn.
      rewrite lookup_insert_ne; [by rewrite Hdisk|]. by intros <-.
    - injection Hdump as <- <-. by rewrite Hdisk. }
  destruct (error_status (status_code r) && raises_for_status (status_code r))%bool;
    [by injection Hrun as <- <- <-|].
  destruct (negb (_looks_like_media_contenttype _)).
  { injection Hrun as <- <- <-. cbn. rewrite lookup_insert_ne; [done|]. by intros <-. }
  destruct (final_dest E d idx media_text r2 final_url) as [dest|] eqn:Hdest;
    [|by injection Hrun as <- <- <-].
  apply final_dest_parent in Hdest.
  assert (p ≠ dest) as Hp by (intros ->; by rewrite Hdest in Hfolder).
  destruct (save_stream E dest r2 w2) as [w3 [e|]] eqn:Hsave;
    pose proof (save_stream_frame _ _ _ _ _ Hsave p Hp) as Hw3;
    [injection Hrun as <- <- <-; by rewrite Hw3|].
  destruct (is_video_item media_text) eqn:Hvideo;
    [|injection Hrun as <- <- <-; cbn; by rewrite Hw3].
  destruct (normalize_video E dest _) as [w5 exn5] eqn:Hnorm.
  injection Hrun as <- <- <-.
  rewrite (normalize_frame _ _ _ _ Hnorm p) by (by rewrite Hdest). cbn. by rewrite Hw3.
Qed.

Lemma run_items_frame (work : list WorkItem) (c c' : Counters) (w w' : World) :
  run_items E d work c w = (w', c') →
  ∀ p, PyPath.parent p ≠ dir_of (imgs d) → PyPath.parent p ≠ dir_of (vids d) →
       PyPath.parent p ≠ dir_of (debug_dir d) →
       fs w' !! p = fs w !! p.
Proof.
  revert c w. induction work as [|[i [idx [u media_text]]] work IH]; intros c w;
    [by intros [= <- <-]|].
  cbn [run_items]. unfold is_set.
  destruct (match env_stop_at E with Some n => bool_decide (n ≤ polls w)%nat
            | None => false end); [by intros [= <- <-]|].
  destruct (process_item E d i idx u media_text (ok c) _) as [[w2 ok'] exn] eqn:Hitem.
  intros Hrun p Himgs Hvids Hdebug.
  pose proof (process_item_frame _ _ _ _ _ _ _ _ _ Hitem p Hdebug) as Hw2.
  cbn [fs] in Hw2. rewrite <- Hw2 by (unfold folder_of; by destruct (is_video_item _)).
  destruct exn as [e|]; cbn [record_failure] in Hrun;
    by rewrite (IH _ _ Hrun p Himgs Hvids Hdebug).
Qed.

End Frame.

Section OutputFolders.

Context (E : Env).

(** X17: a run changes files of three directories only: [images],
    [videos] and [debug] under [snap_memories] of the export folder; every
    other file, the index of the export included, is as it was. *)
Theorem writes_stay_in_output (root_dir : Path) (limit : option Z)
    (indices_text : option string) (failed_out0 : option (list Z))
    (items : list (string * string)) (w w' : World) (c : Counters) :
  download_all E root_dir limit indices_text failed_out0 items w = Some (w', c) →
  let out := PyPath.child root_dir "snap_memories" in
  ∀ p, PyPath.parent p ≠ dir_of (PyPath.child out "images") →
       PyPath.parent p ≠ dir_of (PyPath.child out "videos") →
       PyPath.parent p ≠ dir_of (PyPath.child out "debug") →
       fs w' !! p = fs w !! p.
Proof.
  unfold download_all. cbn zeta.
  destruct (build_work limit indices_text items) as [|e work]; [done|].
  destruct (run_items E _ _ _ _) as [w1 c1] eqn:Hrun.
  intros [= <- <-] p Himgs Hvids Hdebug. cbn [emit is_set fst fs].
  by rewrite (run_items_frame _ _ _ _ _ _ _ Hrun p Himgs Hvids Hdebug).
Qed.

(** X18: when [_ensure_h264_mp4] returns a path, the tools are present
    and the path is the source with the suffix [.mp4]; the source existed,
    the converter reported success on it, and the returned file holds what
    the converter produced; no temporary file is left, the source is gone
    unless it is the returned file, and no other file has changed. *)
Theorem returned_path_is_converted (src final : Path) (w w' : World) :
  _ensure_h264_mp4 E src w = (w', Ok (Some final)) →
  _has_ffmpeg E = true ∧
  PyPath.with_suffix (env_nt E) src ".mp4" = Some final ∧
  (∃ content output,
     fs w !! src = Some content ∧
     env_run E (is_h264 (PyStr.lower (env_probe E content))) content = FfDone output ∧
     fs w' !! final = Some output) ∧
  fs w' !! temp_sibling final = None ∧
  (src ≠ final → fs w' !! src = None) ∧
  (∀ p, p ≠ final → p ≠ temp_sibling final → p ≠ src → fs w' !! p = fs w !! p).
Proof.
  intros Hrun.
  destruct (_has_ffmpeg E) eqn:Htools;
    [|by rewrite ensure_unavailable in Hrun].
  destruct (PyPath.with_suffix (env_nt E) src ".mp4") as [final0|] eqn:Hfinal;
    [|unfold _ensure_h264_mp4 in Hrun; by rewrite Htools, Hfinal in Hrun].
  assert (PyPath.name src ≠ EmptyString) as Hname.
  { intros Hempty. unfold PyPath.with_suffix in Hfinal. rewrite Hempty in Hfinal.
    by destruct (env_nt E). }
  destruct (temp_sibling_fresh (env_nt E) src final0 Hname Hfinal) as (Hsrc & Hfin & _).
  destruct (fs w !! src) as [content|] eqn:Hcontent.
  - destruct (env_run E (is_h264 (PyStr.lower (env_probe E content))) content)
      as [output|partial] eqn:Hout.
    + destruct (ensure_converted E src content output w Hname Htools Hcontent Hout)
        as (final1 & w1 & Hfinal1 & Hrun1 & Hfs & _).
      rewrite Hrun in Hrun1. injection Hrun1 as <- <-.
      rewrite Hfinal in Hfinal1. injection Hfinal1 as ->.
      split; [done|]. split; [done|].
      destruct (decide (src = final)) as [Heq|Hne]; cbn [id] in Hfs; rewrite Hfs.
      * split; [exists content, output; by rewrite lookup_insert_eq|].
        split; [by rewrite lookup_insert_ne, lookup_delete_eq|]. split; [done|].
        intros p Hp Htemp _. by rewrite lookup_insert_ne, lookup_delete_ne.
      * split.
        { exists content, output. by rewrite lookup_delete_ne, lookup_insert_eq. }
        split; [by rewrite lookup_delete_ne, lookup_insert_ne, lookup_delete_eq|].
        split; [intros _; apply lookup_delete_eq|].
        intros p Hp Htemp Hp_src.
        by rewrite lookup_delete_ne, lookup_insert_ne, lookup_delete_ne.
    + destruct (ensure_failed E src content w partial Hname Htools Hcontent Hout)
        as (final1 & w1 & _ & Hrun1 & _).
      by rewrite Hrun in Hrun1.
  - unfold _ensure_h264_mp4, _convert_to_h264_mp4 in Hrun.
    rewrite Htools, Hfinal in Hrun. cbn [negb] in Hrun.
    destruct (env_ffmpeg E); [|done].
    rewrite unlink_if_exists_fs, lookup_delete_ne, Hcontent in Hrun by done.
    done.
Qed.

End OutputFolders.

(** ** What one item leaves on disk *)

Section Items.

Context (E : Env) (d : Dirs).

Lemma read_text_headers (r : Response) :
  headers (read_text r).2 = headers r ∧ status_code (read_text r).2 = status_code r.
Proof. unfold read_text. destruct (stream r) as [chunks [|]| |]; done. Qed.

(** Without cancellation the loop writes every chunk; it ends with the
    error of the iterator, if the iterator has one. *)
Lemma write_chunks_uncancelled dest chunks raises w content :
  env_stop_at E = None →
  fs w !! dest = Some content →
  ∃ w', write_chunks E dest chunks raises w
          = (w', if raises then Some StreamError else None) ∧
        fs w' !! dest = Some (content +:+ concat_chunks chunks).
Proof.
  intros Hnone. revert w content. induction chunks as [|chunk rest IH]; intros w content Hdest.
  - cbn. eexists. split; [done|]. by rewrite append_empty_r.
  - cbn [write_chunks]. unfold is_set. rewrite Hnone.
    cbn [concat_chunks foldr]. fold (concat_chunks rest). rewrite <- append_assoc.
    destruct chunk as [|ch chunk]; cbn [Re.nonempty].
    + rewrite append_empty_r. by apply IH.
    + apply IH. unfold append_file. cbn. by rewrite lookup_insert_eq, Hdest.
Qed.

Lemma write_chunks_no_error dest chunks raises w w' :
  write_chunks E dest chunks raises w = (w', None) → raises = false.
Proof.
  revert w. induction chunks as [|chunk rest IH]; intros w.
  - cbn. by destruct raises.
  - cbn [write_chunks]. destruct (is_set E w) as [w1 stop]. destruct stop; [done|].
    apply IH.
Qed.

(** X19: a response that [raise_for_status] refuses, or whose content type
    is not that of media, makes the item fail with [ok] unchanged; the run
    leaves a debug file numbered by the position in the work list and
    touches no file outside the debug directory. *)
Theorem rejected_response_saves_nothing (i idx : Z) (u media_text : string) (ok0 : Z)
    (w w1 : World) (r : Response) (final_url : string) :
  _resolve_media_response E false u w = (w1, Ok (r, final_url)) →
  raises_for_status (status_code r) = true ∨
  _looks_like_media_contenttype
    (PyStr.lower (header_get (headers r) "Content-Type" EmptyString)) = false →
  ∃ w' e,
    process_item E d i idx u media_text ok0 w = (w', ok0, Some e) ∧
    (e = HTTPError (status_code r) ∨
     e = RuntimeError ("Unexpected content type: " +:+
           PyStr.lower (header_get (headers r) "Content-Type" EmptyString))) ∧
    (is_Some (fs w' !! debug_status_path d i (status_code r)) ∨
     is_Some (fs w' !! debug_sample_path d i)) ∧
    ∀ p, PyPath.parent p ≠ dir_of (debug_dir d) → fs w' !! p = fs w !! p.
Proof.
  intros Hres Hrejected. unfold process_item. rewrite Hres.
  apply resolve_same_disk in Hres as [Hdisk _].
  destruct (error_status (status_code r)) eqn:Herr.
  - destruct (read_text r) as [text r'] eqn:Hread.
    pose proof (read_text_headers r) as [Hheaders _]. rewrite Hread in Hheaders.
    cbn [snd] in Hheaders. cbn [andb].
    destruct (raises_for_status (status_code r)).
    + eexists _, _. split; [reflexivity|]. split; [by left|]. split.
      * left. cbn. rewrite lookup_insert_eq. by eexists.
      * intros p Hp. cbn. rewrite lookup_insert_ne; [by rewrite Hdisk|]. by intros <-.
    + destruct Hrejected as [|Hctype]; [done|]. rewrite Hheaders, Hctype. cbn [negb].
      eexists _, _. split; [reflexivity|]. split; [by right|]. split.
      * right. cbn. rewrite lookup_insert_eq. by eexists.
      * intros p Hp. cbn.
        rewrite !lookup_insert_ne; [by rewrite Hdisk|by intros <-..].
  - assert (raises_for_status (status_code r) = false) as Hraise.
    { unfold error_status, raises_for_status in *.
      apply bool_decide_eq_false in Herr. apply bool_decide_eq_false. lia. }
    rewrite Hraise in Hrejected. destruct Hrejected as [|Hctype]; [done|].
    cbn [andb]. rewrite Hctype. cbn [negb].
    eexists _, _. split; [reflexivity|]. split; [by right|]. split.
    + right. cbn. rewrite lookup_insert_eq. by eexists.
    + intros p Hp. cbn. rewrite lookup_insert_ne; [by rewrite Hdisk|]. by intros <-.
Qed.

(** X20: when an item that is not a video ends without an exception, its
    destination holds the whole body of the response, [ok] grew by one,
    and no other file changed. *)
Theorem saved_file_holds_body (i idx : Z) (u media_text : string) (ok0 ok' : Z)
    (w w1 w' : World) (r : Response) (final_url : string) :
  _resolve_media_response E false u w = (w1, Ok (r, final_url)) →
  status_code r < 400 →
  is_video_item media_text = false →
  process_item E d i idx u media_text ok0 w = (w', ok', None) →
  ∃ dest chunks,
    final_dest E d idx media_text r final_url = Some dest ∧
    iter_content (1024 * 256) (stream r) = Some (chunks, false) ∧
    fs w' !! dest = Some (concat_chunks chunks) ∧
    ok' = ok0 + 1 ∧
    ∀ p, p ≠ dest → fs w' !! p = fs w !! p.
Proof.
  intros Hres Hstatus Himage. unfold process_item. rewrite Hres.
  apply resolve_same_disk in Hres as [Hdisk _].
  assert (error_status (status_code r) = false) as ->
    by (apply bool_decide_eq_false; lia).
  cbn [andb]. destruct (negb (_looks_like_media_contenttype _)); [done|].
  destruct (final_dest E d idx media_text r final_url) as [dest|]; [|done].
  destruct (save_stream E dest r w1) as [w3 [e|]] eqn:Hsave; [done|].
  rewrite Himage. intros [= <- <-].
  pose proof (save_stream_frame E _ _ _ _ _ Hsave) as Hframe.
  revert Hsave. unfold save_stream.
  destruct (iter_content (1024 * 256) (stream r)) as [[chunks raises]|] eqn:Hiter; [|done].
  intros Hwrite. pose proof (write_chunks_no_error _ _ _ _ _ Hwrite) as ->.
  exists dest, chunks. split; [done|]. split; [done|]. split.
  - cbn. apply (write_chunks_completed E _ _ _ _ _ EmptyString) in Hwrite; [done|].
    cbn. apply lookup_insert_eq.
  - split; [done|]. intros p Hp. cbn. by rewrite Hframe, Hdisk.
Qed.

(** X21: when the body iterator raises after some chunks and the run is
    not cancelled, the item fails with that error and the chunks received
    so far stay on disk under the destination name: only a cancellation
    removes a partial file. *)
Theorem stream_error_leaves_partial_file (i idx : Z) (u media_text : string) (ok0 : Z)
    (w w1 : World) (r : Response) (final_url : string) (dest : Path)
    (chunks : list string) :
  _resolve_media_response E false u w = (w1, Ok (r, final_url)) →
  status_code r < 400 →
  _looks_like_media_contenttype
    (PyStr.lower (header_get (headers r) "Content-Type" EmptyString)) = true →
  final_dest E d idx media_text r final_url = Some dest →
  stream r = Unread chunks true →
  env_stop_at E = None →
  ∃ w',
    process_item E d i idx u media_text ok0 w = (w', ok0, Some StreamError) ∧
    fs w' !! dest = Some (concat_chunks chunks).
Proof.
  intros Hres Hstatus Hctype Hdest Hstream Hnone.
  rewrite (process_item_streams E d i idx u media_text ok0 w w1 r final_url dest)
    by (try done; apply bool_decide_eq_false; lia).
  unfold save_stream. rewrite Hstream. cbn [iter_content].
  destruct (write_chunks_uncancelled dest chunks true (write_file dest EmptyString w1)
              EmptyString Hnone) as (w' & -> & Hfile).
  { cbn. apply lookup_insert_eq. }
  by exists w'.
Qed.

End Items.

(** ** Runs of the further properties *)

Section FurtherRuns.

Import PyStr PyPath.

Lemma retry_text_round_trip_witness :
  retry_text [3; 1; 3] = "1,3" ∧
  _parse_indices (retry_text [3; 1; 3]) 5 = sorted (list_to_set [3; 1; 3]).
Proof.
  split; [by vm_compute|].
  apply (retry_text_round_trip [3; 1; 3] 5).
  repeat (apply List.Forall_cons; [cbn beta; lia|]). apply List.Forall_nil.
Defined.

Lemma work_list_limit_witness :
  selected_indices None 3 = [] ∧
  (build_work (Some 2) None three_items).*1 = [1; 2].
Proof.
  split; [reflexivity|].
  pose proof (work_list_limit (Some 2) None three_items) as H. cbn zeta in H.
  destruct H as [H _]. destruct (H eq_refl) as [H1 _].
  rewrite H1. by vm_compute.
Defined.

Lemma ext_from_url_shape_witness :
  all_chars is_ascii heic_url = true ∧
  _ext_from_url heic_url = ".heic" ∧
  (_ext_from_url heic_url = EmptyString ∨
   ∃ g, _ext_from_url heic_url = "." +:+ g ∧
        (2 ≤ String.length g ≤ 4)%nat ∧
        all_chars lower_alnum g = true ∧
        ∃ pre g0 post, heic_url = pre +:+ "." +:+ g0 +:+ post ∧ g = lower g0).
Proof.
  split; [by vm_compute|]. split; [by vm_compute|].
  apply (ext_from_url_shape heic_url). by vm_compute.
Defined.

Lemma url_consulted_only_for_bin_witness :
  ∃ name,
    Re.search_filename (header_get (headers bin_reply) "Content-Disposition" EmptyString)
      = Some name ∧
    splitext_ext false name = ".bin" ∧
    chosen_ext false bin_reply heic_url ".jpg" = _ext_from_url heic_url.
Proof.
  apply (url_consulted_only_for_bin false bin_reply heic_url ".jpg");
    [done|done|by vm_compute].
Defined.

Lemma final_dest_name_witness :
  final_dest env_heic dirs 1 "image" png_reply "https://example.test/final"
    = Some (child (imgs dirs) "memory_1.png") ∧
  parent (child (imgs dirs) "memory_1.png") = parent (initial_dest dirs 1 "image") ∧
  ∃ t, name (child (imgs dirs) "memory_1.png") = ("memory_" +:+ pretty 1) +:+ String "." t.
Proof.
  split; [by vm_compute|].
  apply (final_dest_name env_heic dirs 1 "image" png_reply "https://example.test/final").
  by vm_compute.
Defined.

Lemma distinct_positions_distinct_files_witness :
  child (imgs dirs) "memory_1.png" ≠ child (vids dirs) "memory_12.mp4".
Proof.
  apply (distinct_positions_distinct_files env_heic dirs 1 12 "image" "video"
           png_reply (reply 200 "video/mp4" []) "u" "u"); [lia|lia|lia|by vm_compute..].
Defined.

Lemma backoff_schedule_witness :
  (∃ k, (k ≤ length (attempt_numbers 3))%nat ∧
        sleeps (trace run_503.1) =
          sleeps (trace empty_world) ++ (backoff <$> take k (attempt_numbers 3)) ∧
        ((∃ r, run_503.2 = Ok r ∧ retryable (status_code r) = false) ∨
         k = length (attempt_numbers 3))) ∧
  Forall (λ s, 1 ≤ s ∧ s ≤ 8) (backoff <$> attempt_numbers 3) ∧
  (∀ a, 4 ≤ a → backoff a = 8).
Proof.
  apply (backoff_schedule env_503_always false app_url 3 empty_world). by vm_compute.
Defined.

Lemma requests_stay_on_url_witness :
  ∃ reqs, network (trace run_503.1) = network (trace empty_world) ++ reqs ∧
          Forall (λ mu, mu.2 = app_url) reqs ∧
          (1 ≤ length reqs)%nat ∧
          (length reqs ≤ 2 * Z.to_nat (Z.max 1 3))%nat ∧
          requests run_503.1 = (requests empty_world + length reqs)%nat ∧
          fs run_503.1 = fs empty_world ∧ polls run_503.1 = polls empty_world.
Proof.
  apply (requests_stay_on_url env_503_always false app_url 3 empty_world _ run_503.2).
  by vm_compute.
Defined.

Lemma first_exception_outlives_responses_witness :
  env_net env_offline (requests empty_world) GET app_url = Raise "connection refused" ∧
  ((∃ r, run_offline.2 = Ok r ∧ retryable (status_code r) = false) ∨
   (∃ e', run_offline.2 = Err e')).
Proof.
  split; [reflexivity|].
  apply (first_exception_outlives_responses env_offline false app_url 3 empty_world
           run_offline.1 run_offline.2 "connection refused"); [reflexivity|by vm_compute].
Defined.

Lemma resolve_contacts_two_urls_witness :
  fs run_s3.1 = fs empty_world ∧ polls run_s3.1 = polls empty_world ∧
  ∃ reqs1 reqs2 target,
    network (trace run_s3.1) = network (trace empty_world) ++ reqs1 ++ reqs2 ∧
    Forall (λ mu, mu.2 = app_url) reqs1 ∧
    Forall (λ mu, mu.2 = target) reqs2 ∧
    (length reqs1 + length reqs2 ≤ 12)%nat ∧
    (reqs2 ≠ [] → ∀ r final_url, run_s3.2 = Ok (r, final_url) → final_url = target).
Proof.
  apply (resolve_contacts_two_urls env_s3 false app_url empty_world). by vm_compute.
Defined.

Lemma read_for_parsing_prefix_witness :
  ∃ k, (k ≤ length ["ab"; "cd"])%nat ∧
       (read_for_parsing (reply 200 "application/json" ["ab"; "cd"])).1
         = concat_chunks (take k ["ab"; "cd"]) ∧
       len (read_for_parsing (reply 200 "application/json" ["ab"; "cd"])).1
         ≤ 1024 * 1024 + 65536 ∧
       (len (concat_chunks ["ab"; "cd"]) ≤ 1024 * 1024 →
        (read_for_parsing (reply 200 "application/json" ["ab"; "cd"])).1
          = concat_chunks ["ab"; "cd"]) ∧
       (1024 * 1024 < len (read_for_parsing (reply 200 "application/json" ["ab"; "cd"])).1 →
        stream (read_for_parsing (reply 200 "application/json" ["ab"; "cd"])).2
          = Unread (drop k ["ab"; "cd"]) false).
Proof.
  apply (read_for_parsing_prefix (reply 200 "application/json" ["ab"; "cd"]));
    [reflexivity|].
  repeat (apply List.Forall_cons; [by vm_compute|]). apply List.Forall_nil.
Defined.

Lemma search_amazonaws_sound_witness :
  Re.search_amazonaws s3_body = Some s3_url ∧
  (∃ pre post, s3_body = pre +:+ s3_url +:+ post) ∧
  startswith "https://" s3_url = true ∧
  contains "amazonaws" s3_url = true ∧
  all_chars Re.url_char s3_url = true.
Proof.
  split; [by vm_compute|].
  apply (search_amazonaws_sound s3_body s3_url). by vm_compute.
Defined.

Lemma download_all_counts_witness :
  ∃ w' c,
    run_404 = Some (w', c) ∧
    0 ≤ ok c ∧ 0 ≤ fail c ∧
    ok c + fail c ≤ Z.of_nat (length (build_work None (Some "3") three_items)) ∧
    (env_stop_at env_404 = None →
     ok c + fail c = Z.of_nat (length (build_work None (Some "3") three_items))).
Proof.
  eexists _, _. split; [vm_compute; reflexivity|].
  eapply (download_all_counts env_404 export_root None (Some "3") (Some [7; 8]) three_items
           empty_world).
  vm_compute; reflexivity.
Defined.

Lemma failed_list_retry_witness :
  ∃ w' c,
    run_404 = Some (w', c) ∧
    ∃ failed,
      failed_out c = Some failed ∧
      Z.of_nat (length failed) = fail c ∧
      failed `sublist_of` (build_work None (Some "3") three_items).*1 ∧
      (failed ≠ [] →
       ∀ limit', (build_work limit' (Some (retry_text failed)) three_items).*1 = failed).
Proof.
  eexists _, _. split; [vm_compute; reflexivity|].
  eapply (failed_list_retry env_404 export_root None (Some "3") [7; 8] three_items
           empty_world).
  vm_compute; reflexivity.
Defined.

Lemma writes_stay_in_output_witness :
  ∃ w' c,
    run_404 = Some (w', c) ∧
    ∀ p, parent p ≠ dir_of (child (child export_root "snap_memories") "images") →
         parent p ≠ dir_of (child (child export_root "snap_memories") "videos") →
         parent p ≠ dir_of (child (child export_root "snap_memories") "debug") →
         fs w' !! p = fs empty_world !! p.
Proof.
  eexists _, _. split; [vm_compute; reflexivity|].
  eapply (writes_stay_in_output env_404 export_root None (Some "3") (Some [7; 8])
           three_items empty_world).
  vm_compute; reflexivity.
Defined.

Lemma returned_path_is_converted_witness :
  run_tool_works.2 = Ok (Some (child videos_dir "memory_2.mp4")) ∧
  _has_ffmpeg env_tool_works = true ∧
  with_suffix (env_nt env_tool_works) mov_file ".mp4"
    = Some (child videos_dir "memory_2.mp4") ∧
  (∃ content output,
     fs (world_with mov_file "raw") !! mov_file = Some content ∧
     env_run env_tool_works (is_h264 (lower (env_probe env_tool_works content))) content
       = FfDone output ∧
     fs run_tool_works.1 !! child videos_dir "memory_2.mp4" = Some output) ∧
  fs run_tool_works.1 !! temp_sibling (child videos_dir "memory_2.mp4") = None ∧
  (mov_file ≠ child videos_dir "memory_2.mp4" → fs run_tool_works.1 !! mov_file = None) ∧
  (∀ p, p ≠ child videos_dir "memory_2.mp4" →
        p ≠ temp_sibling (child videos_dir "memory_2.mp4") → p ≠ mov_file →
        fs run_tool_works.1 !! p = fs (world_with mov_file "raw") !! p).
Proof.
  split; [by vm_compute|].
  apply (returned_path_is_converted env_tool_works mov_file
           (child videos_dir "memory_2.mp4") (world_with mov_file "raw")
           run_tool_works.1).
  by vm_compute.
Defined.

Lemma rejected_response_saves_nothing_witness :
  raises_for_status (status_code not_found) = true ∧
  ∃ w' e,
    process_item env_404 dirs 1 3 "https://a.test/3" "image" 0 empty_world
      = (w', 0, Some e) ∧
    (e = HTTPError (status_code not_found) ∨
     e = RuntimeError ("Unexpected content type: " +:+
           lower (header_get (headers not_found) "Content-Type" EmptyString))) ∧
    (is_Some (fs w' !! debug_status_path dirs 1 (status_code not_found)) ∨
     is_Some (fs w' !! debug_sample_path dirs 1)) ∧
    ∀ p, parent p ≠ dir_of (debug_dir dirs) → fs w' !! p = fs empty_world !! p.
Proof.
  split; [by vm_compute|].
  apply (rejected_response_saves_nothing env_404 dirs 1 3 "https://a.test/3" "image" 0
           empty_world
           (_resolve_media_response env_404 false "https://a.test/3" empty_world).1
           not_found "https://example.test/final").
  - by vm_compute.
  - left. by vm_compute.
Defined.

Lemma saved_file_holds_body_witness :
  ∃ w' dest chunks,
    process_item env_heic dirs 1 1 heic_url "image" 0 empty_world = (w', 1, None) ∧
    final_dest env_heic dirs 1 "image"
      (reply 200 "application/octet-stream" ["heic-bytes"]) "https://example.test/final"
      = Some dest ∧
    iter_content (1024 * 256)
      (stream (reply 200 "application/octet-stream" ["heic-bytes"]))
      = Some (chunks, false) ∧
    fs w' !! dest = Some (concat_chunks chunks) ∧
    1 = 0 + 1 ∧
    ∀ p, p ≠ dest → fs w' !! p = fs empty_world !! p.
Proof.
  eexists. 
  assert (process_item env_heic dirs 1 1 heic_url "image" 0 empty_world
          = ((process_item env_heic dirs 1 1 heic_url "image" 0 empty_world).1.1, 1, None))
    as Hrun by (by vm_compute).
  destruct (saved_file_holds_body env_heic dirs 1 1 heic_url "image" 0 1 empty_world
              (_resolve_media_response env_heic false heic_url empty_world).1
              (process_item env_heic dirs 1 1 heic_url "image" 0 empty_world).1.1
              (reply 200 "application/octet-stream" ["heic-bytes"])
              "https://example.test/final")
    as (dest & chunks & H); [by vm_compute|by vm_compute|by vm_compute|exact Hrun|].
  exists dest, chunks. split; [exact Hrun|exact H].
Defined.

Lemma stream_error_leaves_partial_file_witness :
  stream broken_reply = Unread ["aa"; "bb"] true ∧
  env_stop_at env_broken = None ∧
  ∃ w',
    process_item env_broken dirs 1 1 "https://a.test/1" "image" 0 empty_world
      = (w', 0, Some StreamError) ∧
    fs w' !! child (imgs dirs) "memory_1.jpg" = Some (concat_chunks ["aa"; "bb"]).
Proof.
  split; [reflexivity|]. split; [reflexivity|].
  apply (stream_error_leaves_partial_file env_broken dirs 1 1 "https://a.test/1" "image" 0
           empty_world
           (_resolve_media_response env_broken false "https://a.test/1" empty_world).1
           broken_reply "https://example.test/final");
    [by vm_compute|by vm_compute|by vm_compute|by vm_compute|reflexivity|reflexivity].
Defined.

End FurtherRuns.
